(** * hugo-hoster: the HugoPage reconciler

    A shallow embedding of [controllers.HugoPageReconciler] (the reconcile
    loop, its five upsert functions and the nginx configuration template)
    together with the parts of the Kubernetes client, [pkg/errors] and
    [text/template] that the controller calls, and the properties of the
    controller proved over that embedding. *)

From Stdlib Require Import ZArith String Ascii List.
From stdpp Require Import gmap strings list fin_maps.

Local Open Scope string_scope.
Local Open Scope Z_scope.

(** ** Strings

    Go strings are byte strings; [fmt.Sprintf] with a single [%s] verb is
    concatenation. *)

Definition tab : string := String (ascii_of_nat 9) EmptyString.
Definition nl : string := String (ascii_of_nat 10) EmptyString.
Definition dq : string := String (ascii_of_nat 34) EmptyString.

(** [strings.ReplaceAll s old new] for a non-empty [old] (its only use in the
    controller is with [old = "."]): scan left to right, replace every
    non-overlapping occurrence.  [skip] counts the bytes of an occurrence
    that has just been replaced and are still to be dropped. *)
Fixpoint replaceAllFrom (old new : string) (skip : nat) (s : string) : string :=
  match s with
  | EmptyString => EmptyString
  | String c s' =>
      match skip with
      | S k => replaceAllFrom old new k s'
      | O =>
          if String.prefix old s
          then new +:+ replaceAllFrom old new (Nat.pred (String.length old)) s'
          else String c (replaceAllFrom old new O s')
      end
  end.

Definition ReplaceAll (s old new : string) : string :=
  replaceAllFrom old new O s.

(** ** Errors

    A Go [error] value is [option error]: [None] is [nil].  An API error
    carries the status reason that [k8serrors.IsNotFound] inspects;
    [errors.Wrap] adds a message in front of a cause. *)

Inductive StatusReason :=
| StatusReasonNotFound
| StatusReasonAlreadyExists
| StatusReasonConflict
| StatusReasonForbidden
| StatusReasonInternalError
| StatusReasonTimeout.

Inductive error :=
| StatusError (reason : StatusReason) (message : string)
| errorString (message : string)
| withMessage (cause : error) (msg : string).

#[global] Instance StatusReason_eq_dec : EqDecision StatusReason.
Proof. solve_decision. Defined.

#[global] Instance error_eq_dec : EqDecision error.
Proof. solve_decision. Defined.

(** [errors.Wrap]: "If err is nil, Wrap returns nil." *)
Definition Wrap (err : option error) (message : string) : option error :=
  match err with
  | None => None
  | Some e => Some (withMessage e message)
  end.

(** [k8serrors.ReasonForError] unwraps the chain down to the API status. *)
Fixpoint ReasonForError (e : error) : option StatusReason :=
  match e with
  | StatusError r _ => Some r
  | errorString _ => None
  | withMessage c _ => ReasonForError c
  end.

Definition IsNotFound (err : option error) : bool :=
  match err with
  | None => false
  | Some e => bool_decide (ReasonForError e = Some StatusReasonNotFound)
  end.

(** ** text/template

    The fragment of [text/template] the controller uses: literal text and
    field actions [{{.NAME}}], executed against a [map[string]string]. *)

Module Template.

Inductive Node :=
| TextNode (text : string)
| FieldNode (name : string).

Definition isIdentChar (c : ascii) : bool :=
  let n := nat_of_ascii c in
  ((48 <=? n) && (n <=? 57) || (65 <=? n) && (n <=? 90)
   || (97 <=? n) && (n <=? 122) || (n =? 95))%nat.

Fixpoint allIdent (s : string) : bool :=
  match s with
  | EmptyString => true
  | String c s' => isIdentChar c && allIdent s'
  end.

(** The body of an action: a dot followed by a non-empty identifier. *)
Definition parseAction (body : string) : option Node :=
  match body with
  | String "." name =>
      match name with
      | EmptyString => None
      | _ => if allIdent name then Some (FieldNode name) else None
      end
  | _ => None
  end.

Definition flushText (acc : string) (out : list Node) : list Node :=
  match acc with
  | EmptyString => out
  | _ => out ++ [TextNode acc]
  end.

(** The lexer and parser in one pass.  [inAction] tells whether the
    scanner is between the delimiters, [acc] is the text or action body
    read so far, [out] the nodes already produced. *)
Fixpoint scan (s : string) (inAction : bool) (acc : string)
         (out : list Node) : option (list Node) :=
  match s with
  | EmptyString => if inAction then None else Some (flushText acc out)
  | String c s' =>
      match s' with
      | String c' s'' =>
          if inAction then
            if (Ascii.eqb c "}" && Ascii.eqb c' "}")%bool then
              match parseAction acc with
              | Some n => scan s'' false EmptyString (out ++ [n])
              | None => None
              end
            else scan s' true (acc +:+ String c EmptyString) out
          else
            if (Ascii.eqb c "{" && Ascii.eqb c' "{")%bool then
              scan s'' true EmptyString (flushText acc out)
            else scan s' false (acc +:+ String c EmptyString) out
      | EmptyString =>
          if inAction then None
          else Some (flushText (acc +:+ String c EmptyString) out)
      end
  end.

(** [template.New(name).Parse(text)] *)
Definition Parse (text : string) : list Node + error :=
  match scan text false EmptyString [] with
  | Some ns => inl ns
  | None => inr (errorString "template: nginx.conf: parse error")
  end.

Definition evalNode (data : gmap string string) (n : Node) : string :=
  match n with
  | TextNode t => t
  | FieldNode name =>
      match data !! name with
      | Some v => v
      | None => "<no value>"
      end
  end.

(** [t.Execute(&buf, data)]: the bytes written to the buffer. *)
Fixpoint Execute (t : list Node) (data : gmap string string) : string :=
  match t with
  | [] => EmptyString
  | n :: t' => evalNode data n +:+ Execute t' data
  end.

End Template.

(** [nginxConfTemplate] *)
Definition nginxConfHead : string :=
  "user  nginx;" +:+ nl +:+
  "worker_processes  1;" +:+ nl +:+
  "error_log  /var/log/nginx/error.log warn;" +:+ nl +:+
  "pid        /var/run/nginx.pid;" +:+ nl +:+
  "events {" +:+ nl +:+
  tab +:+ "worker_connections  1024;" +:+ nl +:+
  "}" +:+ nl +:+
  "http {" +:+ nl +:+
  "  log_format  main   $remote_addr - $remote_user [$time_local] "
    +:+ dq +:+ "$request" +:+ dq +:+ " $status $body_bytes_sent "
    +:+ dq +:+ "$http_referer" +:+ dq +:+ " "
    +:+ dq +:+ "$http_user_agent" +:+ dq +:+ " "
    +:+ dq +:+ "$http_x_forwarded_for" +:+ dq +:+ ";" +:+ nl +:+
  "  include            /etc/nginx/mime.types;" +:+ nl +:+
  "  default_type       application/octet-stream;" +:+ nl +:+
  "  access_log         /var/log/nginx/access.log  main;" +:+ nl +:+
  "  sendfile           on;" +:+ nl +:+
  "  keepalive_timeout  65;" +:+ nl +:+
  "  server {" +:+ nl +:+
  tab +:+ "listen 80;" +:+ nl +:+
  tab +:+ "listen [::]:80;" +:+ nl +:+
  nl +:+
  tab +:+ "server_name _;" +:+ nl +:+
  tab +:+ "resolver kube-dns.kube-system.svc.cluster.local valid=5s;" +:+ nl +:+
  nl +:+
  tab +:+ "location /healthz {" +:+ nl +:+
  tab +:+ "  return 200;" +:+ nl +:+
  tab +:+ "}" +:+ nl +:+
  nl +:+
  tab +:+ "location / {" +:+ nl +:+
  tab +:+ "  rewrite ^(.*)(?!index\.html)$ $1/index.html last;" +:+ nl +:+
  tab +:+ "  proxy_pass ".

Definition nginxConfTail : string :=
  ";" +:+ nl +:+
  tab +:+ "  proxy_redirect off;" +:+ nl +:+
  tab +:+ "  proxy_intercept_errors on;" +:+ nl +:+
  tab +:+ "  proxy_set_header Host $http_host;" +:+ nl +:+
  tab +:+ "  proxy_set_header X-Real-IP $remote_addr;" +:+ nl +:+
  tab +:+ "  proxy_set_header X-Forwarded-For $proxy_add_x_forwarded_for;" +:+ nl +:+
  tab +:+ "  proxy_set_header X-Forwarded-Proto $scheme;" +:+ nl +:+
  tab +:+ "}" +:+ nl +:+
  "  }" +:+ nl +:+
  "}" +:+ nl.

Definition nginxConfTemplate : string :=
  nginxConfHead +:+ "{{.S3_URL}}/{{.BUCKET_NAME}}/{{.PAGE_NAME}}/" +:+ nginxConfTail.

(** ** Object metadata ([metav1]) *)

Record NamespacedName := {
  Namespace : string;
  Name : string;
}.

#[global] Instance NamespacedName_eq_dec : EqDecision NamespacedName.
Proof. solve_decision. Defined.

#[global] Instance NamespacedName_countable : Countable NamespacedName :=
  inj_countable'
    (fun k => (Namespace k, Name k))
    (fun p => {| Namespace := p.1; Name := p.2 |})
    (fun k => match k with Build_NamespacedName _ _ => eq_refl end).

Record OwnerReference := {
  refAPIVersion : string;
  refKind : string;
  refName : string;
  refUID : string;
  refController : option bool;
  refBlockOwnerDeletion : option bool;
}.

Record ObjectMeta := {
  metaName : string;
  metaNamespace : string;
  metaUID : string;
  metaLabels : gmap string string;
  metaAnnotations : gmap string string;
  metaOwnerReferences : list OwnerReference;
}.

(** The zero value [metav1.ObjectMeta{}]. *)
Definition emptyMeta : ObjectMeta :=
  {| metaName := EmptyString; metaNamespace := EmptyString;
     metaUID := EmptyString; metaLabels := ∅; metaAnnotations := ∅;
     metaOwnerReferences := [] |}.

Definition setOwnerReferences (refs : list OwnerReference) (m : ObjectMeta) : ObjectMeta :=
  {| metaName := metaName m; metaNamespace := metaNamespace m;
     metaUID := metaUID m; metaLabels := metaLabels m;
     metaAnnotations := metaAnnotations m;
     metaOwnerReferences := refs |}.

Definition setAnnotations (a : gmap string string) (m : ObjectMeta) : ObjectMeta :=
  {| metaName := metaName m; metaNamespace := metaNamespace m;
     metaUID := metaUID m; metaLabels := metaLabels m;
     metaAnnotations := a;
     metaOwnerReferences := metaOwnerReferences m |}.

Definition keyOf (m : ObjectMeta) : NamespacedName :=
  {| Namespace := metaNamespace m; Name := metaName m |}.

(** ** The custom resources ([api/v1alpha1]) *)

Record HugoPageSpec := {
  Repository : string;
  Branch : string;
  URL : string;
  BuildType : string;
  CronInterval : string;
}.

Record HugoPageStatus := {
  LastBuild : string;
  Commit : string;
  Status : string;
}.

Record HugoPage := {
  pageMeta : ObjectMeta;
  pageSpec : HugoPageSpec;
  pageStatus : HugoPageStatus;
}.

Record S3Config := {
  Endpoint : string;
  BucketName : string;
  SecretName : string;
  AccessKeyIDRef : string;
  AccessKeyRef : string;
}.

Record TLSSpec := {
  Enable : bool;
  Annotations : gmap string string;
}.

Record SettingSpec := {
  TLS : TLSSpec;
  IngressClassName : string;
  S3 : S3Config;
  ProxyURL : string;
  NginxProxyReplica : Z;
}.

Record Setting := {
  settingMeta : ObjectMeta;
  settingSpec : SettingSpec;
}.

(** ** The child resources ([batchv1], [apiv1], [appsv1], [networkingv1]) *)

Record SecretKeySelector := {
  selSecretName : string;
  selKey : string;
}.

Record EnvVar := {
  envName : string;
  envValue : string;
  envValueFrom : option SecretKeySelector;
}.

Record VolumeMount := {
  mountName : string;
  mountPath : string;
  mountSubPath : string;
  mountReadOnly : bool;
}.

Record Container := {
  containerName : string;
  containerImage : string;
  containerEnv : list EnvVar;
  containerPorts : list Z;
  containerVolumeMounts : list VolumeMount;
}.

Record Volume := {
  volumeName : string;
  volumeConfigMap : string;
}.

Record PodSpec := {
  podRestartPolicy : string;
  podContainers : list Container;
  podVolumes : list Volume;
}.

Record PodTemplateSpec := {
  templateLabels : gmap string string;
  templateSpec : PodSpec;
}.

Record CronJobSpec := {
  cjSchedule : string;
  cjConcurrencyPolicy : string;
  cjStartingDeadlineSeconds : option Z;
  cjSuspend : option bool;
  cjSuccessfulJobsHistoryLimit : option Z;
  cjFailedJobsHistoryLimit : option Z;
  cjJobTemplate : PodTemplateSpec;
}.

Record CronJobStatus := {
  cjLastScheduleTime : option string;
}.

Record CronJob := {
  cronJobMeta : ObjectMeta;
  cronJobSpec : CronJobSpec;
  cronJobStatus : CronJobStatus;
}.

Record ConfigMap := {
  configMapMeta : ObjectMeta;
  configMapData : gmap string string;
  configMapBinaryData : gmap string string;
  configMapImmutable : option bool;
}.

Record DeploymentSpec := {
  depSelector : option (gmap string string);
  depReplicas : option Z;
  depTemplate : PodTemplateSpec;
}.

Record DeploymentStatus := {
  depReadyReplicas : Z;
}.

Record Deployment := {
  deploymentMeta : ObjectMeta;
  deploymentSpec : DeploymentSpec;
  deploymentStatus : DeploymentStatus;
}.

Record ServicePort := {
  portName : string;
  portProtocol : string;
  portPort : Z;
  portTargetPort : Z;
}.

Record ServiceSpec := {
  svcSelector : gmap string string;
  svcPorts : list ServicePort;
}.

Record ServiceStatus := {
  svcLoadBalancer : list string;
}.

Record Service := {
  serviceMeta : ObjectMeta;
  serviceSpec : ServiceSpec;
  serviceStatus : ServiceStatus;
}.

Record HTTPIngressPath := {
  pathPath : string;
  pathType : option string;
  pathServiceName : string;
  pathServicePort : Z;
}.

Record IngressRule := {
  ruleHost : string;
  rulePaths : list HTTPIngressPath;
}.

Record IngressTLS := {
  tlsHosts : list string;
  tlsSecretName : string;
}.

Record IngressSpec := {
  ingClassName : option string;
  ingRules : list IngressRule;
  ingTLS : list IngressTLS;
}.

Record IngressStatus := {
  ingLoadBalancer : list string;
}.

Record Ingress := {
  ingressMeta : ObjectMeta;
  ingressSpec : IngressSpec;
  ingressStatus : IngressStatus;
}.

(** The zero values [&T{}] the controller hands to [client.Get]. *)
Definition emptyPodTemplate : PodTemplateSpec :=
  {| templateLabels := ∅;
     templateSpec := {| podRestartPolicy := EmptyString; podContainers := [];
                        podVolumes := [] |} |}.

Definition emptyHugoPage : HugoPage :=
  {| pageMeta := emptyMeta;
     pageSpec := {| Repository := EmptyString; Branch := EmptyString;
                    URL := EmptyString; BuildType := EmptyString;
                    CronInterval := EmptyString |};
     pageStatus := {| LastBuild := EmptyString; Commit := EmptyString;
                      Status := EmptyString |} |}.

Definition emptySetting : Setting :=
  {| settingMeta := emptyMeta;
     settingSpec :=
       {| TLS := {| Enable := false; Annotations := ∅ |};
          IngressClassName := EmptyString;
          S3 := {| Endpoint := EmptyString; BucketName := EmptyString;
                   SecretName := EmptyString; AccessKeyIDRef := EmptyString;
                   AccessKeyRef := EmptyString |};
          ProxyURL := EmptyString; NginxProxyReplica := 0 |} |}.

Definition emptyCronJob : CronJob :=
  {| cronJobMeta := emptyMeta;
     cronJobSpec :=
       {| cjSchedule := EmptyString; cjConcurrencyPolicy := EmptyString;
          cjStartingDeadlineSeconds := None; cjSuspend := None;
          cjSuccessfulJobsHistoryLimit := None;
          cjFailedJobsHistoryLimit := None;
          cjJobTemplate := emptyPodTemplate |};
     cronJobStatus := {| cjLastScheduleTime := None |} |}.

Definition emptyConfigMap : ConfigMap :=
  {| configMapMeta := emptyMeta; configMapData := ∅;
     configMapBinaryData := ∅; configMapImmutable := None |}.

Definition emptyDeployment : Deployment :=
  {| deploymentMeta := emptyMeta;
     deploymentSpec := {| depSelector := None; depReplicas := None;
                          depTemplate := emptyPodTemplate |};
     deploymentStatus := {| depReadyReplicas := 0 |} |}.

Definition emptyService : Service :=
  {| serviceMeta := emptyMeta;
     serviceSpec := {| svcSelector := ∅; svcPorts := [] |};
     serviceStatus := {| svcLoadBalancer := [] |} |}.

Definition emptyIngress : Ingress :=
  {| ingressMeta := emptyMeta;
     ingressSpec := {| ingClassName := None; ingRules := []; ingTLS := [] |};
     ingressStatus := {| ingLoadBalancer := [] |} |}.

(** ** The cluster and the client

    [Cluster] is the entity store behind [client.Client]: one table per
    resource kind, keyed by namespace and name.  [World] adds what the code
    can observe of its environment: an oracle that may fail any call (network
    and API failures), the record of the calls issued so far and the log
    lines written. *)

Inductive Kind :=
| KHugoPage | KSetting | KCronJob | KConfigMap | KDeployment | KService | KIngress.

#[global] Instance Kind_eq_dec : EqDecision Kind.
Proof. solve_decision. Defined.

Inductive Call :=
| GetCall (k : Kind) (key : NamespacedName)
| CreateCall (k : Kind) (m : ObjectMeta)
| UpdateCall (k : Kind) (m : ObjectMeta).

Definition callKind (c : Call) : Kind :=
  match c with
  | GetCall k _ | CreateCall k _ | UpdateCall k _ => k
  end.

Definition isWrite (c : Call) : bool :=
  match c with
  | GetCall _ _ => false
  | CreateCall _ _ | UpdateCall _ _ => true
  end.

Record Cluster := {
  hugoPages : gmap NamespacedName HugoPage;
  settings : gmap NamespacedName Setting;
  cronJobs : gmap NamespacedName CronJob;
  configMaps : gmap NamespacedName ConfigMap;
  deployments : gmap NamespacedName Deployment;
  services : gmap NamespacedName Service;
  ingresses : gmap NamespacedName Ingress;
}.

Record World := {
  cluster : Cluster;
  faults : nat -> Call -> option error;
  calls : list Call;
  logged : list string;
}.

Definition emptyCluster : Cluster :=
  {| hugoPages := ∅; settings := ∅; cronJobs := ∅; configMaps := ∅;
     deployments := ∅; services := ∅; ingresses := ∅ |}.

Definition noFaults : nat -> Call -> option error := fun _ _ => None.

(** [client.Object]: what the client needs to know of a resource type. *)
Class Object (T : Type) := {
  kindOf : Kind;
  zero : T;
  getMeta : T -> ObjectMeta;
  setMeta : ObjectMeta -> T -> T;
  table : Cluster -> gmap NamespacedName T;
  setTable : gmap NamespacedName T -> Cluster -> Cluster;
}.

#[global] Instance HugoPage_Object : Object HugoPage := {|
  kindOf := KHugoPage; zero := emptyHugoPage; getMeta := pageMeta;
  setMeta m o := {| pageMeta := m; pageSpec := pageSpec o; pageStatus := pageStatus o |};
  table := hugoPages;
  setTable t c := {| hugoPages := t; settings := settings c; cronJobs := cronJobs c;
                     configMaps := configMaps c; deployments := deployments c;
                     services := services c; ingresses := ingresses c |} |}.

#[global] Instance Setting_Object : Object Setting := {|
  kindOf := KSetting; zero := emptySetting; getMeta := settingMeta;
  setMeta m o := {| settingMeta := m; settingSpec := settingSpec o |};
  table := settings;
  setTable t c := {| hugoPages := hugoPages c; settings := t; cronJobs := cronJobs c;
                     configMaps := configMaps c; deployments := deployments c;
                     services := services c; ingresses := ingresses c |} |}.

#[global] Instance CronJob_Object : Object CronJob := {|
  kindOf := KCronJob; zero := emptyCronJob; getMeta := cronJobMeta;
  setMeta m o := {| cronJobMeta := m; cronJobSpec := cronJobSpec o;
                    cronJobStatus := cronJobStatus o |};
  table := cronJobs;
  setTable t c := {| hugoPages := hugoPages c; settings := settings c; cronJobs := t;
                     configMaps := configMaps c; deployments := deployments c;
                     services := services c; ingresses := ingresses c |} |}.

#[global] Instance ConfigMap_Object : Object ConfigMap := {|
  kindOf := KConfigMap; zero := emptyConfigMap; getMeta := configMapMeta;
  setMeta m o := {| configMapMeta := m; configMapData := configMapData o;
                    configMapBinaryData := configMapBinaryData o;
                    configMapImmutable := configMapImmutable o |};
  table := configMaps;
  setTable t c := {| hugoPages := hugoPages c; settings := settings c;
                     cronJobs := cronJobs c; configMaps := t;
                     deployments := deployments c;
                     services := services c; ingresses := ingresses c |} |}.

#[global] Instance Deployment_Object : Object Deployment := {|
  kindOf := KDeployment; zero := emptyDeployment; getMeta := deploymentMeta;
  setMeta m o := {| deploymentMeta := m; deploymentSpec := deploymentSpec o;
                    deploymentStatus := deploymentStatus o |};
  table := deployments;
  setTable t c := {| hugoPages := hugoPages c; settings := settings c;
                     cronJobs := cronJobs c; configMaps := configMaps c;
                     deployments := t;
                     services := services c; ingresses := ingresses c |} |}.

#[global] Instance Service_Object : Object Service := {|
  kindOf := KService; zero := emptyService; getMeta := serviceMeta;
  setMeta m o := {| serviceMeta := m; serviceSpec := serviceSpec o;
                    serviceStatus := serviceStatus o |};
  table := services;
  setTable t c := {| hugoPages := hugoPages c; settings := settings c;
                     cronJobs := cronJobs c; configMaps := configMaps c;
                     deployments := deployments c;
                     services := t; ingresses := ingresses c |} |}.

#[global] Instance Ingress_Object : Object Ingress := {|
  kindOf := KIngress; zero := emptyIngress; getMeta := ingressMeta;
  setMeta m o := {| ingressMeta := m; ingressSpec := ingressSpec o;
                    ingressStatus := ingressStatus o |};
  table := ingresses;
  setTable t c := {| hugoPages := hugoPages c; settings := settings c;
                     cronJobs := cronJobs c; configMaps := configMaps c;
                     deployments := deployments c;
                     services := services c; ingresses := t |} |}.

(** ** The effect monad

    A Go function body either returns or panics; on the way it reads and
    changes the world. *)

Inductive Outcome (A : Type) :=
| Returned (a : A)
| Panicked (reason : string).
Arguments Returned {A} a.
Arguments Panicked {A} reason.

Definition M (A : Type) : Type := World -> Outcome A * World.

Definition ret {A} (a : A) : M A := fun w => (Returned a, w).

Definition bind {A B} (m : M A) (k : A -> M B) : M B :=
  fun w =>
    match m w with
    | (Returned a, w') => k a w'
    | (Panicked r, w') => (Panicked r, w')
    end.

Definition panic {A} (reason : string) : M A := fun w => (Panicked reason, w).

Notation "x <- c1 ;; c2" := (bind c1 (fun x => c2))
  (at level 100, c1 at next level, right associativity).
Notation "c1 ;;; c2" := (bind c1 (fun _ => c2))
  (at level 100, right associativity).

(** Dereferencing a pointer that may be nil. *)
Definition deref {A} (p : option A) : M A :=
  match p with
  | Some a => ret a
  | None => panic "runtime error: invalid memory address or nil pointer dereference"
  end.

Definition logLine (msg : string) : M unit :=
  fun w => (Returned tt,
            {| cluster := cluster w; faults := faults w; calls := calls w;
               logged := logged w ++ [msg] |}).

(** Every client call is recorded; the oracle is asked first and, when it
    answers with an error, the store is neither read nor changed. *)
Definition recordCall (c : Call) (w : World) : World :=
  {| cluster := cluster w; faults := faults w; calls := calls w ++ [c];
     logged := logged w |}.

Definition issue (c : Call) (w : World) : option error * World :=
  (faults w (length (calls w)) c, recordCall c w).

Definition withCluster (c : Cluster) (w : World) : World :=
  {| cluster := c; faults := faults w; calls := calls w; logged := logged w |}.

Definition notFound : error := StatusError StatusReasonNotFound "not found".
Definition alreadyExists : error := StatusError StatusReasonAlreadyExists "already exists".

(** [client.Get(ctx, key, obj)] on a fresh [obj]: the object read (the zero
    value when the call fails) and the error. *)
Definition clientGet {T} `{Object T} (key : NamespacedName) : M (T * option error) :=
  fun w =>
    match issue (GetCall kindOf key) w with
    | (Some e, w') => (Returned (zero, Some e), w')
    | (None, w') =>
        match table (cluster w') !! key with
        | Some o => (Returned (o, None), w')
        | None => (Returned (zero, Some notFound), w')
        end
    end.

(** [client.Create(ctx, obj)] *)
Definition clientCreate {T} `{Object T} (obj : T) : M (option error) :=
  fun w =>
    match issue (CreateCall kindOf (getMeta obj)) w with
    | (Some e, w') => (Returned (Some e), w')
    | (None, w') =>
        let key := keyOf (getMeta obj) in
        match table (cluster w') !! key with
        | Some _ => (Returned (Some alreadyExists), w')
        | None =>
            (Returned None,
             withCluster (setTable (<[key := obj]> (table (cluster w'))) (cluster w')) w')
        end
    end.

(** [client.Update(ctx, obj)] *)
Definition clientUpdate {T} `{Object T} (obj : T) : M (option error) :=
  fun w =>
    match issue (UpdateCall kindOf (getMeta obj)) w with
    | (Some e, w') => (Returned (Some e), w')
    | (None, w') =>
        let key := keyOf (getMeta obj) in
        match table (cluster w') !! key with
        | None => (Returned (Some notFound), w')
        | Some _ =>
            (Returned None,
             withCluster (setTable (<[key := obj]> (table (cluster w'))) (cluster w')) w')
        end
    end.

(** ** Owner references ([controllerutil.SetControllerReference]) *)

Record GroupVersionKind := {
  gvkGroup : string;
  gvkVersion : string;
  gvkKind : string;
}.

(** A [runtime.Scheme]: the Go types registered, with their kinds. *)
Definition groupVersion (g : GroupVersionKind) : string :=
  match gvkGroup g with
  | EmptyString => gvkVersion g
  | grp => grp +:+ "/" +:+ gvkVersion g
  end.

Definition hugoPageGVK : GroupVersionKind :=
  {| gvkGroup := "hugo-hoster.cedi.dev"; gvkVersion := "v1alpha1"; gvkKind := "HugoPage" |}.

(** [scheme] as [main.init] builds it: the built-in kinds of
    [clientgoscheme] and the two kinds of [api/v1alpha1]. *)
Definition mainScheme : gmap string GroupVersionKind :=
  <["HugoPage" := hugoPageGVK]>
  (<["Setting" := {| gvkGroup := "hugo-hoster.cedi.dev"; gvkVersion := "v1alpha1"; gvkKind := "Setting" |}]>
  (<["CronJob" := {| gvkGroup := "batch"; gvkVersion := "v1"; gvkKind := "CronJob" |}]>
  (<["ConfigMap" := {| gvkGroup := EmptyString; gvkVersion := "v1"; gvkKind := "ConfigMap" |}]>
  (<["Deployment" := {| gvkGroup := "apps"; gvkVersion := "v1"; gvkKind := "Deployment" |}]>
  (<["Service" := {| gvkGroup := EmptyString; gvkVersion := "v1"; gvkKind := "Service" |}]>
  (<["Ingress" := {| gvkGroup := "networking.k8s.io"; gvkVersion := "v1"; gvkKind := "Ingress" |}]>
   ∅)))))).

Definition validateOwner (owner object : ObjectMeta) : option error :=
  if bool_decide (metaNamespace owner = EmptyString) then None
  else if bool_decide (metaNamespace object = EmptyString)
  then Some (errorString "cluster-scoped resource must not have a namespace-scoped owner")
  else if bool_decide (metaNamespace owner = metaNamespace object) then None
  else Some (errorString "cross-namespace owner references are disallowed").

Definition isController (r : OwnerReference) : bool :=
  match refController r with
  | Some true => true
  | _ => false
  end.

(** [referSameObject]: same group (the part of the API version before the
    slash), kind and name. *)
Fixpoint groupOf (apiVersion : string) (acc : string) : string :=
  match apiVersion with
  | EmptyString => EmptyString
  | String c rest =>
      if Ascii.eqb c "/" then acc else groupOf rest (acc +:+ String c EmptyString)
  end.

Definition referSameObject (a b : OwnerReference) : bool :=
  bool_decide (groupOf (refAPIVersion a) EmptyString = groupOf (refAPIVersion b) EmptyString)
  && bool_decide (refKind a = refKind b)
  && bool_decide (refName a = refName b).

Fixpoint upsertOwnerRef (ref : OwnerReference) (refs : list OwnerReference) : list OwnerReference :=
  match refs with
  | [] => [ref]
  | r :: rest =>
      if referSameObject r ref then ref :: rest else r :: upsertOwnerRef ref rest
  end.

Definition controllerRef (scheme : gmap string GroupVersionKind) (owner : HugoPage)
  : option OwnerReference :=
  match scheme !! "HugoPage" with
  | None => None
  | Some gvk =>
      Some {| refAPIVersion := groupVersion gvk; refKind := gvkKind gvk;
              refName := metaName (pageMeta owner); refUID := metaUID (pageMeta owner);
              refController := Some true; refBlockOwnerDeletion := Some true |}
  end.

(** The function works on the metadata of the controlled object, which it
    reaches through the [metav1.Object] interface.  [setControllerMeta] is
    the metadata after the call together with the error the call returns;
    on an error the metadata is left as it was. *)
Definition setControllerMeta (owner : HugoPage) (controlled : ObjectMeta)
           (scheme : gmap string GroupVersionKind) : ObjectMeta * option error :=
  match validateOwner (pageMeta owner) controlled with
  | Some e => (controlled, Some e)
  | None =>
      match controllerRef scheme owner with
      | None =>
          (controlled, Some (errorString "no kind is registered for the type v1alpha1.HugoPage"))
      | Some ref =>
          match List.find isController (metaOwnerReferences controlled) with
          | Some existing =>
              if referSameObject existing ref
              then (setOwnerReferences
                      (upsertOwnerRef ref (metaOwnerReferences controlled)) controlled, None)
              else (controlled, Some (errorString "Object is already owned by another controller"))
          | None =>
              (setOwnerReferences
                 (upsertOwnerRef ref (metaOwnerReferences controlled)) controlled, None)
          end
      end
  end.

Definition SetControllerReference {T} `{Object T} (owner : HugoPage) (controlled : T)
           (scheme : gmap string GroupVersionKind) : T * option error :=
  let res := setControllerMeta owner (getMeta controlled) scheme in
  (setMeta (fst res) controlled, snd res).

(** ** The entity accessors ([pkg/client]) *)

(** [HugoPageClient.GetNamespaced]: a nil page together with the error, or
    the page and a nil error. *)
Definition pageGetNamespaced (key : NamespacedName) : M (option HugoPage * option error) :=
  g <- clientGet (T := HugoPage) key ;;
  match snd g with
  | Some err => ret (None, Some err)
  | None => ret (Some (fst g), None)
  end.

(** [SettingsClient.GetNamespaced] and [SettingsClient.GetNameNamespace] *)
Definition settingGetNamespaced (key : NamespacedName) : M (option Setting * option error) :=
  g <- clientGet (T := Setting) key ;;
  match snd g with
  | Some err => ret (None, Some err)
  | None => ret (Some (fst g), None)
  end.

Definition settingGetNameNamespace (name namespace : string)
  : M (option Setting * option error) :=
  settingGetNamespaced {| Namespace := namespace; Name := name |}.

(** ** The controller ([controllers]) *)

Record HugoPageReconciler := {
  settingName : string;
  scheme : gmap string GroupVersionKind;
}.

Definition NewHugoPageReconciler (settingsName : string)
           (scheme : gmap string GroupVersionKind) : HugoPageReconciler :=
  {| settingName := settingsName; scheme := scheme |}.

(** [ctrl.Result]; [RequeueAfter] is a [time.Duration], in nanoseconds. *)
Record Result := {
  Requeue : bool;
  RequeueAfter : Z;
}.

Definition Minute : Z := 60 * 1000000000.

Definition isErr (e : option error) : bool :=
  match e with
  | Some _ => true
  | None => false
  end.

Definition isNil {A} (p : option A) : bool :=
  match p with
  | Some _ => false
  | None => true
  end.

Definition pageName (page : HugoPage) : string := metaName (pageMeta page).
Definition pageNamespace (page : HugoPage) : string := metaNamespace (pageMeta page).

Definition makeLabels (page : HugoPage) (component : string) : gmap string string :=
  <["app" := "hugo-hoster"]>
  (<["component" := component]>
  (<["page" := pageName page]> ∅)).

(** [metav1.ObjectMeta{Name: ..., Namespace: ..., Labels: ...}] *)
Definition newMeta (name namespace : string) (labels : gmap string string) : ObjectMeta :=
  {| metaName := name; metaNamespace := namespace; metaUID := EmptyString;
     metaLabels := labels; metaAnnotations := ∅; metaOwnerReferences := [] |}.

(** Each upsert first builds the object it is going to write: the metadata
    and the specification are overwritten with fresh values, whatever
    [client.Get] has read into the other fields stays, and the owner
    reference is set (the error of [SetControllerReference] is dropped).
    The five functions below are these object constructions. *)

(** [upsertPageBuilderCronJob], lines 219-298 *)
Definition builderCronJobFor (r : HugoPageReconciler) (page : HugoPage)
           (settings : Setting) (got : CronJob) : CronJob :=
  let startingDeadlineSeconds := 100 in
  let suspend := false in
  let successfulJobsHistoryLimit := 3 in
  let failedJobsHistoryLimit := 10 in
  let builderCronJob :=
    {| cronJobMeta := newMeta (pageName page) (pageNamespace page) (makeLabels page "builder");
       cronJobSpec :=
         {| cjSchedule := CronInterval (pageSpec page);
            cjConcurrencyPolicy := "Forbid";
            cjStartingDeadlineSeconds := Some startingDeadlineSeconds;
            cjSuspend := Some suspend;
            cjSuccessfulJobsHistoryLimit := Some successfulJobsHistoryLimit;
            cjFailedJobsHistoryLimit := Some failedJobsHistoryLimit;
            cjJobTemplate :=
              {| templateLabels := ∅;
                 templateSpec :=
                   {| podRestartPolicy := "OnFailure";
                      podContainers :=
                        [ {| containerName := "page-builder";
                             containerImage := "ghcr.io/hugo-hoster/page_builder:main";
                             containerEnv :=
                               [ {| envName := "REPO_URL";
                                    envValue := Repository (pageSpec page);
                                    envValueFrom := None |};
                                 {| envName := "PAGE_NAME";
                                    envValue := pageName page;
                                    envValueFrom := None |};
                                 {| envName := "S3_BUCKET_NAME";
                                    envValue := BucketName (S3 (settingSpec settings));
                                    envValueFrom := None |};
                                 {| envName := "AWS_ACCESS_KEY_ID";
                                    envValue := EmptyString;
                                    envValueFrom :=
                                      Some {| selSecretName := SecretName (S3 (settingSpec settings));
                                              selKey := AccessKeyIDRef (S3 (settingSpec settings)) |} |};
                                 {| envName := "AWS_SECRET_ACCESS_KEY";
                                    envValue := EmptyString;
                                    envValueFrom :=
                                      Some {| selSecretName := SecretName (S3 (settingSpec settings));
                                              selKey := AccessKeyRef (S3 (settingSpec settings)) |} |};
                                 {| envName := "S3_ENDPOINT";
                                    envValue := Endpoint (S3 (settingSpec settings));
                                    envValueFrom := None |} ];
                             containerPorts := [];
                             containerVolumeMounts := [] |} ];
                      podVolumes := [] |} |} |};
       cronJobStatus := cronJobStatus got |} in
  fst (SetControllerReference page builderCronJob (scheme r)).

(** [upsertPageIngress], lines 319-371 *)
Definition ingressFor (r : HugoPageReconciler) (page : HugoPage)
           (settings : Setting) (got : Ingress) : Ingress :=
  let pathTypePrefix := "Prefix" in
  let meta := newMeta (pageName page) (pageNamespace page) (makeLabels page "nginx-proxy") in
  let spec :=
    {| ingClassName := Some (IngressClassName (settingSpec settings));
       ingRules :=
         [ {| ruleHost := URL (pageSpec page);
              rulePaths :=
                [ {| pathPath := "/";
                     pathType := Some pathTypePrefix;
                     pathServiceName := "nginx-proxy-" +:+ pageName page +:+ "-svc";
                     pathServicePort := 80 |} ] |} ];
       ingTLS := [] |} in
  let ingress :=
    if Enable (TLS (settingSpec settings)) then
      {| ingressMeta :=
           setAnnotations
             (map_fold (fun annotationKey annotationValue acc =>
                          <[annotationKey := annotationValue]> acc)
                       (metaAnnotations meta)
                       (Annotations (TLS (settingSpec settings))))
             meta;
         ingressSpec :=
           {| ingClassName := ingClassName spec;
              ingRules := ingRules spec;
              ingTLS :=
                [ {| tlsHosts := [URL (pageSpec page)];
                     tlsSecretName :=
                       ReplaceAll (pageName page) "." "-" +:+ "-page-secret" |} ] |};
         ingressStatus := ingressStatus got |}
    else
      {| ingressMeta := meta; ingressSpec := spec;
         ingressStatus := ingressStatus got |} in
  fst (SetControllerReference page ingress (scheme r)).

(** [upsertNginxProxyService], lines 394-413 *)
Definition serviceFor (r : HugoPageReconciler) (page : HugoPage) (got : Service) : Service :=
  let serviceName := "nginx-proxy-" +:+ pageName page +:+ "-svc" in
  let service :=
    {| serviceMeta := newMeta serviceName (pageNamespace page) (makeLabels page "nginx-proxy");
       serviceSpec :=
         {| svcSelector := makeLabels page "nginx-proxy";
            svcPorts :=
              [ {| portName := "nginx"; portProtocol := "TCP";
                   portPort := 80; portTargetPort := 80 |} ] |};
       serviceStatus := serviceStatus got |} in
  fst (SetControllerReference page service (scheme r)).

(** [upsertPageNginxProxy], lines 439-492 *)
Definition deploymentFor (r : HugoPageReconciler) (page : HugoPage)
           (settings : Setting) (got : Deployment) : Deployment :=
  let deploymentName := "nginx-proxy-" +:+ pageName page in
  let labels := makeLabels page "nginx-proxy" in
  let deployment :=
    {| deploymentMeta := newMeta deploymentName (pageNamespace page) labels;
       deploymentSpec :=
         {| depSelector := Some labels;
            depReplicas := Some (NginxProxyReplica (settingSpec settings));
            depTemplate :=
              {| templateLabels := labels;
                 templateSpec :=
                   {| podRestartPolicy := EmptyString;
                      podContainers :=
                        [ {| containerName := "nginx";
                             containerImage := "nginx:alpine";
                             containerEnv := [];
                             containerPorts := [80];
                             containerVolumeMounts :=
                               [ {| mountName := "nginx-config";
                                    mountPath := "/etc/nginx/nginx.conf";
                                    mountSubPath := "nginx.conf";
                                    mountReadOnly := true |} ] |} ];
                      podVolumes :=
                        [ {| volumeName := "nginx-config";
                             volumeConfigMap := "nginx-proxy-conf-" +:+ pageName page |} ] |} |} |};
       deploymentStatus := deploymentStatus got |} in
  fst (SetControllerReference page deployment (scheme r)).

(** [nginxValue]: the three values handed to the template. *)
Definition nginxValue (proxyUrl bucketName pageName : string) : gmap string string :=
  <["S3_URL" := proxyUrl]>
  (<["BUCKET_NAME" := bucketName]>
  (<["PAGE_NAME" := pageName]> ∅)).

(** [upsertConfigMap], lines 515-545, after the template has compiled *)
Definition configMapFor (r : HugoPageReconciler) (page : HugoPage)
           (settings : Setting) (template : list Template.Node) (got : ConfigMap) : ConfigMap :=
  let configMapName := "nginx-proxy-conf-" +:+ pageName page in
  let meta := newMeta configMapName (pageNamespace page) (makeLabels page "nginx-proxy") in
  let proxyUrl := ProxyURL (settingSpec settings) in
  let proxyUrl :=
    if bool_decide (proxyUrl = EmptyString)
    then Endpoint (S3 (settingSpec settings)) else proxyUrl in
  let nginxConf :=
    Template.Execute template
      (nginxValue proxyUrl (BucketName (S3 (settingSpec settings))) (pageName page)) in
  let configMap :=
    {| configMapMeta := meta;
       configMapData := <["nginx.conf" := nginxConf]> ∅;
       configMapBinaryData := configMapBinaryData got;
       configMapImmutable := configMapImmutable got |} in
  fst (SetControllerReference page configMap (scheme r)).

Definition upsertPageBuilderCronJob (r : HugoPageReconciler) (page : option HugoPage)
           (settings : Setting) : M (option CronJob * option error) :=
  page <- deref page ;;
  g <- clientGet (T := CronJob)
         {| Name := pageName page; Namespace := pageNamespace page |} ;;
  let err := snd g in
  let builderCronJob := builderCronJobFor r page settings (fst g) in
  early <-
    (if isErr err && IsNotFound err then
       e <- clientCreate builderCronJob ;;
       match e with
       | Some _ => ret (Some (None, Wrap e "Failed to create new page-builder CronJob"))
       | None => ret None
       end
     else if isErr err then
       ret (Some (None, Wrap err "Failed to get page-builder CronJob"))
     else ret None) ;;
  match early with
  | Some res => ret res
  | None =>
      e <- clientUpdate builderCronJob ;;
      match e with
      | Some _ => ret (None, Wrap e "Failed to update page-builder CronJob")
      | None => ret (Some builderCronJob, None)
      end
  end.

Definition upsertPageIngress (r : HugoPageReconciler) (page : option HugoPage)
           (settings : Setting) : M (option Ingress * option error) :=
  page <- deref page ;;
  g <- clientGet (T := Ingress)
         {| Name := pageName page; Namespace := pageNamespace page |} ;;
  let err := snd g in
  let ingress := ingressFor r page settings (fst g) in
  early <-
    (if isErr err && IsNotFound err then
       e <- clientCreate ingress ;;
       match e with
       | Some _ => ret (Some (None, Wrap e "Failed to create new hugo-page Ingress"))
       | None => ret None
       end
     else if isErr err then
       ret (Some (None, Wrap err "Failed to get hugo-page Ingress"))
     else ret None) ;;
  match early with
  | Some res => ret res
  | None =>
      e <- clientUpdate ingress ;;
      match e with
      | Some _ => ret (None, Wrap e "Failed to update hugo-page Ingress")
      | None => ret (Some ingress, None)
      end
  end.

Definition upsertNginxProxyService (r : HugoPageReconciler) (page : option HugoPage)
  : M (option Service * option error) :=
  page <- deref page ;;
  let serviceName := "nginx-proxy-" +:+ pageName page +:+ "-svc" in
  g <- clientGet (T := Service)
         {| Name := serviceName; Namespace := pageNamespace page |} ;;
  let err := snd g in
  let service := serviceFor r page (fst g) in
  early <-
    (if isErr err && IsNotFound err then
       e <- clientCreate service ;;
       match e with
       | Some _ => ret (Some (None, Wrap e "Failed to create new hugo-page nginx service"))
       | None => ret None
       end
     else if isErr err then
       ret (Some (None, Wrap err "Failed to get hugo-page nginx service"))
     else ret None) ;;
  match early with
  | Some res => ret res
  | None =>
      e <- clientUpdate service ;;
      match e with
      | Some _ => ret (None, Wrap e "Failed to update hugo-page nginx service")
      | None => ret (Some service, None)
      end
  end.

Definition upsertPageNginxProxy (r : HugoPageReconciler) (page : option HugoPage)
           (settings : Setting) : M (option Deployment * option error) :=
  page <- deref page ;;
  let deploymentName := "nginx-proxy-" +:+ pageName page in
  g <- clientGet (T := Deployment)
         {| Name := deploymentName; Namespace := pageNamespace page |} ;;
  let err := snd g in
  let deployment := deploymentFor r page settings (fst g) in
  early <-
    (if isErr err && IsNotFound err then
       e <- clientCreate deployment ;;
       match e with
       | Some _ =>
           ret (Some (None, Wrap e "Failed to create new hugo-page nginx proxy deployment"))
       | None => ret None
       end
     else if isErr err then
       ret (Some (None, Wrap err "Failed to get hugo-page nginx proxy deployment"))
     else ret None) ;;
  match early with
  | Some res => ret res
  | None =>
      e <- clientUpdate deployment ;;
      match e with
      | Some _ => ret (None, Wrap e "Failed to update hugo-page nginx proxy deployment")
      | None => ret (Some deployment, None)
      end
  end.

Definition upsertConfigMap (r : HugoPageReconciler) (page : option HugoPage)
           (settings : Setting) : M (option ConfigMap * option error) :=
  page <- deref page ;;
  let configMapName := "nginx-proxy-conf-" +:+ pageName page in
  g <- clientGet (T := ConfigMap)
         {| Name := configMapName; Namespace := pageNamespace page |} ;;
  let clientErr := snd g in
  match Template.Parse nginxConfTemplate with
  | inr e => ret (None, Wrap (Some e) "Unable to compile nginx.conf template")
  | inl template =>
      (* [err], the error of [Parse], is nil from here on *)
      let err : option error := None in
      let configMap := configMapFor r page settings template (fst g) in
      early <-
        (if isErr clientErr && IsNotFound clientErr then
           e <- clientCreate configMap ;;
           match e with
           | Some _ =>
               ret (Some (None, Wrap e "Failed to create new hugo-page nginx proxy config"))
           | None => ret None
           end
         else if isErr clientErr then
           ret (Some (None, Wrap err "Failed to get hugo-page nginx proxy proxy config"))
         else ret None) ;;
      match early with
      | Some res => ret res
      | None =>
          e <- clientUpdate configMap ;;
          match e with
          | Some _ => ret (None, Wrap e "Failed to update hugo-page nginx proxy proxy config")
          | None => ret (Some configMap, None)
          end
      end
  end.

Definition requeueAfterMinute : Result :=
  {| Requeue := true; RequeueAfter := 1 * Minute |}.

Definition noRequeue : Result := {| Requeue := false; RequeueAfter := 0 |}.

(** [observability.RecordPanic] logs at panic level: the logger panics. *)
Definition RecordPanic {A} (msg : string) : M A :=
  logLine msg ;;; panic msg.

(** The message of the panic for missing settings, after [fmt.Sprintf]. *)
Definition missingSettingMessage (r : HugoPageReconciler) : string :=
  "Failed to fetch Setting resource. You MUST configure hugo-hoster before deploying a site with the setting object name=" +:+ settingName r.

(** [Reconcile], lines 149-194: the five upserts, each followed by the
    check of its error. *)
Definition reconcileChildren (r : HugoPageReconciler) (page : option HugoPage)
           (settings : Setting) : M (Result * option error) :=
  u <- upsertPageBuilderCronJob r page settings ;;
  match snd u with
  | Some err =>
      logLine "Failed to upsert page-builder CronJob" ;;;
      ret (requeueAfterMinute, Some err)
  | None =>
  u <- upsertConfigMap r page settings ;;
  match snd u with
  | Some err =>
      logLine "Failed to upsert page-builder nginx proxy config" ;;;
      ret (requeueAfterMinute, Some err)
  | None =>
  u <- upsertPageNginxProxy r page settings ;;
  match snd u with
  | Some err =>
      logLine "Failed to upsert page-builder nginx proxy deployment" ;;;
      ret (requeueAfterMinute, Some err)
  | None =>
  u <- upsertNginxProxyService r page ;;
  match snd u with
  | Some err =>
      logLine "Failed to upsert nginx-proxy Service" ;;;
      ret (requeueAfterMinute, Some err)
  | None =>
  u <- upsertPageIngress r page settings ;;
  match snd u with
  | Some err =>
      logLine "Failed to upsert nginx-proxy Ingress" ;;;
      ret (requeueAfterMinute, Some err)
  | None => ret (noRequeue, None)
  end end end end end.

(** [Reconcile], lines 143-147: the settings are fetched; without them the
    pass panics. *)
Definition reconcileWithSettings (r : HugoPageReconciler) (req : NamespacedName)
           (page : option HugoPage) : M (Result * option error) :=
  s <- settingGetNameNamespace (settingName r) (Namespace req) ;;
  let settings := fst s in
  let err := snd s in
  if isErr err || isNil settings then RecordPanic (missingSettingMessage r)
  else
    match settings with
    | Some settings => reconcileChildren r page settings
    | None => RecordPanic (missingSettingMessage r)
    end.

Definition Reconcile (r : HugoPageReconciler) (req : NamespacedName)
  : M (Result * option error) :=
  p <- pageGetNamespaced req ;;
  let page := fst p in
  let err := snd p in
  (if isErr err || isNil page then
     if IsNotFound err then
       logLine "Hugo Page resource not found. Ignoring since object must be deleted"
     else
       logLine "Failed to fetch HugoPage resource"
   else ret tt) ;;;
  reconcileWithSettings r req page.

(** ** The five child kinds

    [Reconcile] calls the five upserts one after the other; the definitions
    below name them so that properties can be stated for all of them. *)

Inductive ChildKind :=
| ScheduledJob | ConfigArtifact | ProxyWorkload | ProxyService | Route.

Inductive Child :=
| ChildCronJob (o : CronJob)
| ChildConfigMap (o : ConfigMap)
| ChildDeployment (o : Deployment)
| ChildService (o : Service)
| ChildIngress (o : Ingress).

Definition childKind (c : ChildKind) : Kind :=
  match c with
  | ScheduledJob => KCronJob
  | ConfigArtifact => KConfigMap
  | ProxyWorkload => KDeployment
  | ProxyService => KService
  | Route => KIngress
  end.

Definition childMeta (o : Child) : ObjectMeta :=
  match o with
  | ChildCronJob o => getMeta o
  | ChildConfigMap o => getMeta o
  | ChildDeployment o => getMeta o
  | ChildService o => getMeta o
  | ChildIngress o => getMeta o
  end.

(** The name under which each upsert reads and writes its resource. *)
Definition childName (c : ChildKind) (page : HugoPage) : string :=
  match c with
  | ScheduledJob => pageName page
  | ConfigArtifact => "nginx-proxy-conf-" +:+ pageName page
  | ProxyWorkload => "nginx-proxy-" +:+ pageName page
  | ProxyService => "nginx-proxy-" +:+ pageName page +:+ "-svc"
  | Route => pageName page
  end.

Definition childKey (c : ChildKind) (page : HugoPage) : NamespacedName :=
  {| Namespace := pageNamespace page; Name := childName c page |}.

(** The resource of kind [c] stored for [page], if any. *)
Definition childAt (c : ChildKind) (page : HugoPage) (cl : Cluster) : option Child :=
  match c with
  | ScheduledJob => ChildCronJob <$> cronJobs cl !! childKey c page
  | ConfigArtifact => ChildConfigMap <$> configMaps cl !! childKey c page
  | ProxyWorkload => ChildDeployment <$> deployments cl !! childKey c page
  | ProxyService => ChildService <$> services cl !! childKey c page
  | Route => ChildIngress <$> ingresses cl !! childKey c page
  end.

Definition tagged {A} (tag : A -> Child) (u : option A * option error)
  : option Child * option error :=
  (tag <$> fst u, snd u).

Definition upsertChild (c : ChildKind) (r : HugoPageReconciler)
           (page : option HugoPage) (settings : Setting)
  : M (option Child * option error) :=
  match c with
  | ScheduledJob =>
      u <- upsertPageBuilderCronJob r page settings ;; ret (tagged ChildCronJob u)
  | ConfigArtifact =>
      u <- upsertConfigMap r page settings ;; ret (tagged ChildConfigMap u)
  | ProxyWorkload =>
      u <- upsertPageNginxProxy r page settings ;; ret (tagged ChildDeployment u)
  | ProxyService =>
      u <- upsertNginxProxyService r page ;; ret (tagged ChildService u)
  | Route =>
      u <- upsertPageIngress r page settings ;; ret (tagged ChildIngress u)
  end.

(** The message [Reconcile] logs when the upsert of a kind fails. *)
Definition failureMessage (c : ChildKind) : string :=
  match c with
  | ScheduledJob => "Failed to upsert page-builder CronJob"
  | ConfigArtifact => "Failed to upsert page-builder nginx proxy config"
  | ProxyWorkload => "Failed to upsert page-builder nginx proxy deployment"
  | ProxyService => "Failed to upsert nginx-proxy Service"
  | Route => "Failed to upsert nginx-proxy Ingress"
  end.

(** The order of section 4.1 of the specification. *)
Definition upsertOrder : list ChildKind :=
  [ScheduledJob; ConfigArtifact; ProxyWorkload; ProxyService; Route].

(** The specification's step 3 and 4, in its own words: invoke the upserts
    in order, stop at the first that returns an error and report which one
    it was. *)
Fixpoint upsertInOrder (r : HugoPageReconciler) (page : option HugoPage)
         (settings : Setting) (kinds : list ChildKind)
  : M (option (ChildKind * error)) :=
  match kinds with
  | [] => ret None
  | c :: rest =>
      u <- upsertChild c r page settings ;;
      match snd u with
      | Some err => ret (Some (c, err))
      | None => upsertInOrder r page settings rest
      end
  end.

Definition reconcileResult (failed : option (ChildKind * error)) : M (Result * option error) :=
  match failed with
  | Some (c, err) =>
      logLine (failureMessage c) ;;; ret (requeueAfterMinute, Some err)
  | None => ret (noRequeue, None)
  end.

(** ** Observing a run *)

(** The calls a run from [w] to [w'] has issued, and the writes among them. *)
Definition issued (w w' : World) : list Call :=
  drop (length (calls w)) (calls w').

Definition writes (cs : list Call) : list Call := List.filter isWrite cs.

Definition callMeta (c : Call) : option ObjectMeta :=
  match c with
  | GetCall _ _ => None
  | CreateCall _ m | UpdateCall _ m => Some m
  end.

(** What the next [client.Get], [client.Create] and [client.Update] answer
    in a world. *)
Definition readOf {T} `{Object T} (w : World) (key : NamespacedName) : T * option error :=
  match faults w (length (calls w)) (GetCall kindOf key) with
  | Some e => (zero, Some e)
  | None =>
      match table (cluster w) !! key with
      | Some o => (o, None)
      | None => (zero, Some notFound)
      end
  end.

Definition createError {T} `{Object T} (w : World) (obj : T) : option error :=
  match faults w (length (calls w)) (CreateCall kindOf (getMeta obj)) with
  | Some e => Some e
  | None =>
      match table (cluster w) !! keyOf (getMeta obj) with
      | Some _ => Some alreadyExists
      | None => None
      end
  end.

Definition updateError {T} `{Object T} (w : World) (obj : T) : option error :=
  match faults w (length (calls w)) (UpdateCall kindOf (getMeta obj)) with
  | Some e => Some e
  | None =>
      match table (cluster w) !! keyOf (getMeta obj) with
      | Some _ => None
      | None => Some notFound
      end
  end.

Definition stored {T} `{Object T} (obj : T) (w : World) : World :=
  withCluster (setTable (<[keyOf (getMeta obj) := obj]> (table (cluster w))) (cluster w)) w.

(** The shape the five upserts share after the object has been built. *)
Definition writeBack {T} `{Object T} (obj : T) (err onGetFailure : option error)
           (createMsg updateMsg : string) : M (option T * option error) :=
  early <-
    (if isErr err && IsNotFound err then
       e <- clientCreate obj ;;
       match e with
       | Some _ => ret (Some (None, Wrap e createMsg))
       | None => ret None
       end
     else if isErr err then ret (Some (None, onGetFailure))
     else ret None) ;;
  match early with
  | Some res => ret res
  | None =>
      e <- clientUpdate obj ;;
      match e with
      | Some _ => ret (None, Wrap e updateMsg)
      | None => ret (Some obj, None)
      end
  end.

Definition getThenWrite {T} `{Object T} (key : NamespacedName) (build : T -> T)
           (onGetFailure : option error -> option error)
           (createMsg updateMsg : string) : M (option T * option error) :=
  g <- clientGet key ;;
  writeBack (build (fst g)) (snd g) (onGetFailure (snd g)) createMsg updateMsg.

(** The run of an upsert once the update has been reached in [w2]. *)
Definition afterUpdate {T} `{Object T} (updateMsg : string) (obj : T) (w2 : World)
  : Outcome (option T * option error) * World :=
  match updateError w2 obj with
  | Some e =>
      (Returned (None, Some (withMessage e updateMsg)),
       recordCall (UpdateCall kindOf (getMeta obj)) w2)
  | None =>
      (Returned (Some obj, None),
       stored obj (recordCall (UpdateCall kindOf (getMeta obj)) w2))
  end.

(** The tables of a cluster behave as independent fields. *)
Class ObjectLaws (T : Type) `{Object T} := {
  getMeta_setMeta : forall (m : ObjectMeta) (o : T), getMeta (setMeta m o) = m;
  table_setTable : forall t (c : Cluster), table (setTable t c) = t;
  setTable_table : forall c : Cluster, setTable (table c) c = c;
  setTable_setTable : forall t t' (c : Cluster), setTable t (setTable t' c) = setTable t c;
}.

(** ** The specification's vocabulary *)

(** Section 4.3: the override when it is set, the storage endpoint otherwise. *)
Definition effectiveEndpoint (settings : Setting) : string :=
  match ProxyURL (settingSpec settings) with
  | EmptyString => Endpoint (S3 (settingSpec settings))
  | override => override
  end.

(** Section 8: endpoint, bucket and site name joined by slashes, with a
    trailing slash. *)
Definition proxyTarget (endpoint bucket site : string) : string :=
  endpoint +:+ "/" +:+ bucket +:+ "/" +:+ site +:+ "/".

(** The rendered document as a function of the three values. *)
Definition renderedNginxConf (endpoint bucket site : string) : string :=
  nginxConfHead +:+ proxyTarget endpoint bucket site +:+ nginxConfTail.

(** "Dots replaced with dashes", character by character. *)
Fixpoint dotsToDashes (s : string) : string :=
  match s with
  | EmptyString => EmptyString
  | String c s' => String (if Ascii.eqb c "." then "-"%char else c) (dotsToDashes s')
  end.

(** The secret name as claim C6 states it (from the URL) and as the code
    computes it (from the name). *)
Definition secretNameFromURL (page : HugoPage) : string :=
  dotsToDashes (URL (pageSpec page)) +:+ "-page-secret".

Definition secretNameFromName (page : HugoPage) : string :=
  dotsToDashes (pageName page) +:+ "-page-secret".

(** A label selector selects the pods that carry all its labels. *)
Definition selects (selector labels : gmap string string) : Prop :=
  selector ⊆ labels.

(** ** Cascading deletion

    The garbage collector of the orchestration runtime, to the extent the
    specification relies on it: once an owner is gone, the resources that
    name it in an owner reference are removed. *)

Definition ownedBy (uid : string) (m : ObjectMeta) : bool :=
  existsb (fun ref => bool_decide (refUID ref = uid)) (metaOwnerReferences m).

Definition collect {T} `{Object T} (uid : string) (t : gmap NamespacedName T)
  : gmap NamespacedName T :=
  filter (fun kv => ownedBy uid (getMeta kv.2) = false) t.

Definition garbageCollect (uid : string) (c : Cluster) : Cluster :=
  {| hugoPages := hugoPages c; settings := settings c;
     cronJobs := collect uid (cronJobs c);
     configMaps := collect uid (configMaps c);
     deployments := collect uid (deployments c);
     services := collect uid (services c);
     ingresses := collect uid (ingresses c) |}.

Definition deleteSite (page : HugoPage) (c : Cluster) : Cluster :=
  garbageCollect (metaUID (pageMeta page))
    (setTable (delete (keyOf (pageMeta page)) (hugoPages c)) c).

(** The owner reference every child of [page] is expected to carry. *)
Definition ownerReferenceTo (gvk : GroupVersionKind) (page : HugoPage) : OwnerReference :=
  {| refAPIVersion := groupVersion gvk; refKind := gvkKind gvk;
     refName := pageName page; refUID := metaUID (pageMeta page);
     refController := Some true; refBlockOwnerDeletion := Some true |}.

(** ** Sample resources *)

Definition blogPage : HugoPage :=
  {| pageMeta :=
       {| metaName := "blog"; metaNamespace := "default"; metaUID := "4f1c-blog";
          metaLabels := ∅; metaAnnotations := ∅; metaOwnerReferences := [] |};
     pageSpec := {| Repository := "https://github.com/example/blog";
                    Branch := "main"; URL := "blog.example.com";
                    BuildType := "cron"; CronInterval := "*/5 * * * *" |};
     pageStatus := pageStatus emptyHugoPage |}.

Definition docsPage : HugoPage :=
  {| pageMeta :=
       {| metaName := "docs"; metaNamespace := "default"; metaUID := "77aa-docs";
          metaLabels := ∅; metaAnnotations := ∅; metaOwnerReferences := [] |};
     pageSpec := {| Repository := "https://github.com/example/docs";
                    Branch := "main"; URL := "docs.example.com";
                    BuildType := "cron"; CronInterval := "*/5 * * * *" |};
     pageStatus := pageStatus emptyHugoPage |}.

Definition sampleSetting : Setting :=
  {| settingMeta := newMeta "settings" "default" ∅;
     settingSpec :=
       {| TLS := {| Enable := true;
                    Annotations :=
                      <["cert-manager.io/cluster-issuer" := "letsencrypt"]> ∅ |};
          IngressClassName := "nginx";
          S3 := {| Endpoint := "https://s3.example.com"; BucketName := "my-bucket";
                   SecretName := "s3-credentials"; AccessKeyIDRef := "AccessKeyId";
                   AccessKeyRef := "AccessKey" |};
          ProxyURL := EmptyString; NginxProxyReplica := 1 |} |}.

Definition sampleReconciler : HugoPageReconciler :=
  NewHugoPageReconciler "settings" mainScheme.

Definition worldOf (c : Cluster) (f : nat -> Call -> option error) : World :=
  {| cluster := c; faults := f; calls := []; logged := [] |}.

(** A cluster with the settings and the two sites, and no child yet. *)
Definition sampleCluster : Cluster :=
  setTable (<[keyOf (pageMeta docsPage) := docsPage]>
            (<[keyOf (pageMeta blogPage) := blogPage]> ∅))
    (setTable (<[keyOf (settingMeta sampleSetting) := sampleSetting]> ∅) emptyCluster).

(** The same cluster before any site has been declared. *)
Definition settingsOnlyCluster : Cluster :=
  setTable (<[keyOf (settingMeta sampleSetting) := sampleSetting]> ∅) emptyCluster.

(** The sites without the settings. *)
Definition unconfiguredCluster : Cluster :=
  setTable (<[keyOf (pageMeta blogPage) := blogPage]> ∅) emptyCluster.

Definition forbidden : error := StatusError StatusReasonForbidden "forbidden".

(** An API server that refuses every read of a ConfigMap. *)
Definition configMapReadsForbidden : nat -> Call -> option error :=
  fun _ c =>
    match c with
    | GetCall KConfigMap _ => Some forbidden
    | _ => None
    end.

(** An API server that refuses every write of a Deployment. *)
Definition deploymentWritesForbidden : nat -> Call -> option error :=
  fun _ c =>
    match c with
    | CreateCall KDeployment _ | UpdateCall KDeployment _ => Some forbidden
    | _ => None
    end.

(** ** The paths of an upsert

    An upsert reads, may create, may update; the six ways a run can go. *)

Inductive Path :=
| ReadFailed (e : error)
| CreateFailed (e : error)
| CreatedUpdateFailed (e : error)
| CreatedUpdated
| UpdateFailed (e : error)
| Updated.

Definition succeeded (p : Path) : bool :=
  match p with
  | CreatedUpdated | Updated => true
  | _ => false
  end.

(** Whether the store has been changed on the way. *)
Definition wrote (p : Path) : bool :=
  match p with
  | CreatedUpdateFailed _ | CreatedUpdated | Updated => true
  | _ => false
  end.

Definition pathCalls (k : Kind) (key : NamespacedName) (m : ObjectMeta) (p : Path) : list Call :=
  match p with
  | ReadFailed _ => [GetCall k key]
  | CreateFailed _ => [GetCall k key; CreateCall k m]
  | CreatedUpdateFailed _ | CreatedUpdated => [GetCall k key; CreateCall k m; UpdateCall k m]
  | UpdateFailed _ | Updated => [GetCall k key; UpdateCall k m]
  end.

Definition pathError (onGetFailure : option error) (createMsg updateMsg : string) (p : Path)
  : option error :=
  match p with
  | ReadFailed _ => onGetFailure
  | CreateFailed e => Some (withMessage e createMsg)
  | CreatedUpdateFailed e | UpdateFailed e => Some (withMessage e updateMsg)
  | CreatedUpdated | Updated => None
  end.

(** What the read has answered on each path. *)
Definition readCondition (p : Path) (readErr : option error) : Prop :=
  match p with
  | ReadFailed e => readErr = Some e /\ IsNotFound (Some e) = false
  | CreateFailed _ | CreatedUpdateFailed _ | CreatedUpdated => IsNotFound readErr = true
  | UpdateFailed _ | Updated => readErr = None
  end.

(** The compiled template. *)
Definition nginxConfNodes : list Template.Node :=
  [Template.TextNode nginxConfHead; Template.FieldNode "S3_URL";
   Template.TextNode "/"; Template.FieldNode "BUCKET_NAME";
   Template.TextNode "/"; Template.FieldNode "PAGE_NAME";
   Template.TextNode ("/" +:+ nginxConfTail)].

(** The error of the read each upsert starts with, in world [w]. *)
Definition childReadError (c : ChildKind) (page : HugoPage) (w : World) : option error :=
  match c with
  | ScheduledJob => snd (readOf (T := CronJob) w (childKey c page))
  | ConfigArtifact => snd (readOf (T := ConfigMap) w (childKey c page))
  | ProxyWorkload => snd (readOf (T := Deployment) w (childKey c page))
  | ProxyService => snd (readOf (T := Service) w (childKey c page))
  | Route => snd (readOf (T := Ingress) w (childKey c page))
  end.

(** The object each upsert builds in world [w]. *)
Definition desiredChild (c : ChildKind) (r : HugoPageReconciler) (page : HugoPage)
           (settings : Setting) (w : World) : Child :=
  match c with
  | ScheduledJob =>
      ChildCronJob (builderCronJobFor r page settings (fst (readOf w (childKey c page))))
  | ConfigArtifact =>
      ChildConfigMap
        (configMapFor r page settings nginxConfNodes (fst (readOf w (childKey c page))))
  | ProxyWorkload =>
      ChildDeployment (deploymentFor r page settings (fst (readOf w (childKey c page))))
  | ProxyService =>
      ChildService (serviceFor r page (fst (readOf w (childKey c page))))
  | Route =>
      ChildIngress (ingressFor r page settings (fst (readOf w (childKey c page))))
  end.

(** What the API answers the create of each upsert, issued in world [w]
    after the read. *)
Definition childCreateError (c : ChildKind) (r : HugoPageReconciler) (page : HugoPage)
           (settings : Setting) (w : World) : option error :=
  let w1 := recordCall (GetCall (childKind c) (childKey c page)) w in
  match c with
  | ScheduledJob =>
      createError w1 (builderCronJobFor r page settings (fst (readOf w (childKey c page))))
  | ConfigArtifact =>
      createError w1
        (configMapFor r page settings nginxConfNodes (fst (readOf w (childKey c page))))
  | ProxyWorkload =>
      createError w1 (deploymentFor r page settings (fst (readOf w (childKey c page))))
  | ProxyService =>
      createError w1 (serviceFor r page (fst (readOf w (childKey c page))))
  | Route =>
      createError w1 (ingressFor r page settings (fst (readOf w (childKey c page))))
  end.

(** The messages each upsert wraps its errors with. *)
Definition getMessage (c : ChildKind) : string :=
  match c with
  | ScheduledJob => "Failed to get page-builder CronJob"
  | ConfigArtifact => "Failed to get hugo-page nginx proxy proxy config"
  | ProxyWorkload => "Failed to get hugo-page nginx proxy deployment"
  | ProxyService => "Failed to get hugo-page nginx service"
  | Route => "Failed to get hugo-page Ingress"
  end.

Definition createMessage (c : ChildKind) : string :=
  match c with
  | ScheduledJob => "Failed to create new page-builder CronJob"
  | ConfigArtifact => "Failed to create new hugo-page nginx proxy config"
  | ProxyWorkload => "Failed to create new hugo-page nginx proxy deployment"
  | ProxyService => "Failed to create new hugo-page nginx service"
  | Route => "Failed to create new hugo-page Ingress"
  end.

Definition updateMessage (c : ChildKind) : string :=
  match c with
  | ScheduledJob => "Failed to update page-builder CronJob"
  | ConfigArtifact => "Failed to update hugo-page nginx proxy proxy config"
  | ProxyWorkload => "Failed to update hugo-page nginx proxy deployment"
  | ProxyService => "Failed to update hugo-page nginx service"
  | Route => "Failed to update hugo-page Ingress"
  end.

(** What each upsert returns as its error when the read has failed with
    [readErr] and the failure is not a not-found. *)
Definition getFailure (c : ChildKind) (readErr : option error) : option error :=
  match c with
  | ConfigArtifact => None
  | _ => Wrap readErr (getMessage c)
  end.

(** Claim C2 as it is worded: one write per upsert, a create when the read
    has answered not-found and an update otherwise. *)
Definition exactlyOneWrite (c : ChildKind) (r : HugoPageReconciler) (page : HugoPage)
           (settings : Setting) (w : World) : Prop :=
  let ws := writes (issued w (snd (upsertChild c r (Some page) settings w))) in
  if IsNotFound (childReadError c page w)
  then exists m, ws = [CreateCall (childKind c) m]
  else exists m, ws = [UpdateCall (childKind c) m].

(** A non-empty run of calls that all concern the resource kind of [c]. *)
Definition callsOfKind (c : ChildKind) (cs : list Call) : Prop :=
  cs <> [] /\ Forall (fun call => callKind call = childKind c) cs.

(** An error that [errors.Wrap] has produced. *)
Definition isWrapped (e : error) : Prop :=
  exists cause msg, e = withMessage cause msg.

(** Claim C6 as it is worded: the secret of the route is named after the
    URL of the site. *)
Definition routeSecretFromURL (r : HugoPageReconciler) (page : HugoPage)
           (settings : Setting) (w : World) : Prop :=
  forall ing w',
    upsertPageIngress r (Some page) settings w = (Returned (Some ing, None), w') ->
    map tlsSecretName (ingTLS (ingressSpec ing)) = [secretNameFromURL page].

(** ** The rest of the entity accessors ([pkg/client])

    The accessors that work in "the current namespace" read it from the
    service-account file; [file] is what [os.ReadFile] gives for that file:
    its content or its error. *)

Definition setNamespace (ns : string) (m : ObjectMeta) : ObjectMeta :=
  {| metaName := metaName m; metaNamespace := ns;
     metaUID := metaUID m; metaLabels := metaLabels m;
     metaAnnotations := metaAnnotations m;
     metaOwnerReferences := metaOwnerReferences m |}.

(** [HugoPageClient.Get] *)
Definition pageGet (file : string + error) (name : string)
  : M (option HugoPage * option error) :=
  match file with
  | inr err => ret (None, Wrap (Some err) "Unable to read current namespace")
  | inl namespace => pageGetNamespaced {| Namespace := namespace; Name := name |}
  end.


(** [SettingsClient.Get] *)
Definition settingGet (file : string + error) (name : string)
  : M (option Setting * option error) :=
  match file with
  | inr err => ret (None, Wrap (Some err) "Unable to read current namespace")
  | inl namespace => settingGetNamespaced {| Namespace := namespace; Name := name |}
  end.

(** [HugoPageClient.Create]: the object as the call leaves it (the namespace
    may have been filled in) and the error. *)
Definition pageCreate (file : string + error) (page : HugoPage)
  : M (HugoPage * option error) :=
  if bool_decide (metaNamespace (pageMeta page) = EmptyString) then
    match file with
    | inr err => ret (page, Wrap (Some err) "Unable to read current namespace")
    | inl namespace =>
        let page := setMeta (setNamespace namespace (pageMeta page)) page in
        e <- clientCreate page ;; ret (page, e)
    end
  else
    e <- clientCreate page ;; ret (page, e).

(** [SettingsClient.Create] *)
Definition settingCreate (file : string + error) (setting : Setting)
  : M (Setting * option error) :=
  if bool_decide (metaNamespace (settingMeta setting) = EmptyString) then
    match file with
    | inr err => ret (setting, Wrap (Some err) "Unable to read current namespace")
    | inl namespace =>
        let setting := setMeta (setNamespace namespace (settingMeta setting)) setting in
        e <- clientCreate setting ;; ret (setting, e)
    end
  else
    e <- clientCreate setting ;; ret (setting, e).

(** ** More vocabulary for the children *)

(** The component label of each kind. *)
Definition childComponent (c : ChildKind) : string :=
  match c with
  | ScheduledJob => "builder"
  | _ => "nginx-proxy"
  end.

(** The store with a child put into the table of its kind, under its own
    namespace and name. *)
Definition putChild (o : Child) (cl : Cluster) : Cluster :=
  match o with
  | ChildCronJob x => setTable (<[keyOf (getMeta x) := x]> (cronJobs cl)) cl
  | ChildConfigMap x => setTable (<[keyOf (getMeta x) := x]> (configMaps cl)) cl
  | ChildDeployment x => setTable (<[keyOf (getMeta x) := x]> (deployments cl)) cl
  | ChildService x => setTable (<[keyOf (getMeta x) := x]> (services cl)) cl
  | ChildIngress x => setTable (<[keyOf (getMeta x) := x]> (ingresses cl)) cl
  end.

(** What an upsert does not overwrite: the status of the resource and, for
    a ConfigMap, its binary data and its immutability flag. *)
Definition sameResidue (a b : Child) : Prop :=
  match a, b with
  | ChildCronJob x, ChildCronJob y => cronJobStatus x = cronJobStatus y
  | ChildConfigMap x, ChildConfigMap y =>
      configMapBinaryData x = configMapBinaryData y
      /\ configMapImmutable x = configMapImmutable y
  | ChildDeployment x, ChildDeployment y => deploymentStatus x = deploymentStatus y
  | ChildService x, ChildService y => serviceStatus x = serviceStatus y
  | ChildIngress x, ChildIngress y => ingressStatus x = ingressStatus y
  | _, _ => False
  end.

(** An object one of the upserts of [page] can have built. *)
Definition builtFor (c : ChildKind) (r : HugoPageReconciler) (page : HugoPage)
           (settings : Setting) (o : Child) : Prop :=
  exists w0, o = desiredChild c r page settings w0.

(** No call fails for a reason of the API. *)
Definition faultFree (w : World) : Prop :=
  forall n call, faults w n call = None.

(** A site with an empty namespace, as a client may hand it to [Create]. *)
Definition draftPage : HugoPage :=
  {| pageMeta :=
       {| metaName := "draft"; metaNamespace := EmptyString; metaUID := EmptyString;
          metaLabels := ∅; metaAnnotations := ∅; metaOwnerReferences := [] |};
     pageSpec := pageSpec blogPage;
     pageStatus := pageStatus emptyHugoPage |}.

(** The settings with TLS switched off but the annotations left in place. *)
Definition plainSetting : Setting :=
  {| settingMeta := settingMeta sampleSetting;
     settingSpec :=
       {| TLS := {| Enable := false;
                    Annotations := Annotations (TLS (settingSpec sampleSetting)) |};
          IngressClassName := IngressClassName (settingSpec sampleSetting);
          S3 := S3 (settingSpec sampleSetting);
          ProxyURL := "https://cdn.example.com";
          NginxProxyReplica := 3 |} |}.

(** The resource of kind [c] stored under the key [k], whatever the key:
    a lookup in the table of that kind. *)
Definition resourceAt (c : ChildKind) (k : NamespacedName) (cl : Cluster) : option Child :=
  match c with
  | ScheduledJob => ChildCronJob <$> cronJobs cl !! k
  | ConfigArtifact => ChildConfigMap <$> configMaps cl !! k
  | ProxyWorkload => ChildDeployment <$> deployments cl !! k
  | ProxyService => ChildService <$> services cl !! k
  | Route => ChildIngress <$> ingresses cl !! k
  end.

(** Two tables agree at every key but [k0]. *)
Definition agreeExcept {T} (k0 : NamespacedName) (t t' : gmap NamespacedName T) : Prop :=
  forall k, k <> k0 -> t' !! k = t !! k.

(** Everything that does not belong to [page] is the same in [cl'] as in
    [cl]: the sites, the settings, and in each of the five tables of child
    resources every key but the one of [page]'s child of that kind, be it
    the key of another site's child or of a resource that is no child of any
    site. *)
Definition unchangedOutside (page : HugoPage) (cl cl' : Cluster) : Prop :=
  hugoPages cl' = hugoPages cl
  /\ settings cl' = settings cl
  /\ forall c k, k <> childKey c page -> resourceAt c k cl' = resourceAt c k cl.

(** A ConfigMap that is no child of any site. *)
Definition foreignConfigMap : ConfigMap :=
  {| configMapMeta := newMeta "kube-root-ca.crt" "default" ∅;
     configMapData := <["ca.crt" := "-----BEGIN CERTIFICATE-----"]> ∅;
     configMapBinaryData := ∅; configMapImmutable := None |}.

Definition clusterWithForeign : Cluster :=
  setTable (<[keyOf (getMeta foreignConfigMap) := foreignConfigMap]> ∅) sampleCluster.

(** The child of kind [c] is stored and is an object the upsert builds. *)
Definition settledAt (c : ChildKind) (r : HugoPageReconciler) (page : HugoPage)
           (settings : Setting) (cl : Cluster) : Prop :=
  exists o, childAt c page cl = Some o /\ builtFor c r page settings o.

(** A scheduled job as another tool may have left it: own labels, an
    annotation, a foreign owner, an outdated schedule, and a status. *)
Definition staleCronJob : CronJob :=
  {| cronJobMeta :=
       {| metaName := "blog"; metaNamespace := "default"; metaUID := "9c2e-job";
          metaLabels := <["team" := "web"]> ∅;
          metaAnnotations := <["note" := "edited by hand"]> ∅;
          metaOwnerReferences :=
            [ {| refAPIVersion := "v1"; refKind := "ConfigMap"; refName := "other";
                 refUID := "0000"; refController := Some true;
                 refBlockOwnerDeletion := None |} ] |};
     cronJobSpec :=
       {| cjSchedule := "0 0 * * *"; cjConcurrencyPolicy := "Allow";
          cjStartingDeadlineSeconds := None; cjSuspend := Some true;
          cjSuccessfulJobsHistoryLimit := None; cjFailedJobsHistoryLimit := None;
          cjJobTemplate := emptyPodTemplate |};
     cronJobStatus := {| cjLastScheduleTime := Some "2023-05-01T10:00:00Z" |} |}.

Definition staleCluster : Cluster :=
  setTable (<[keyOf (cronJobMeta staleCronJob) := staleCronJob]> ∅) sampleCluster.

(** The same job with other metadata and another specification, and the
    same status. *)
Definition otherStaleCronJob : CronJob :=
  {| cronJobMeta := newMeta "blog" "default" (<["owner" := "ops"]> ∅);
     cronJobSpec := cronJobSpec emptyCronJob;
     cronJobStatus := cronJobStatus staleCronJob |}.

Definition otherStaleCluster : Cluster :=
  setTable (<[keyOf (cronJobMeta otherStaleCronJob) := otherStaleCronJob]> ∅) sampleCluster.

(** The object an upsert builds when it has read [old]. *)
Definition rebuild (r : HugoPageReconciler) (page : HugoPage) (settings : Setting)
           (old : Child) : Child :=
  match old with
  | ChildCronJob x => ChildCronJob (builderCronJobFor r page settings x)
  | ChildConfigMap x => ChildConfigMap (configMapFor r page settings nginxConfNodes x)
  | ChildDeployment x => ChildDeployment (deploymentFor r page settings x)
  | ChildService x => ChildService (serviceFor r page x)
  | ChildIngress x => ChildIngress (ingressFor r page settings x)
  end.

(** The namespace [Create] sends an object to: its own when it has one,
    else the content of the service-account file, when that can be read. *)
Definition currentOr (file : string + error) (ns : string) : option string :=
  if bool_decide (ns = EmptyString) then
    match file with
    | inl current => Some current
    | inr _ => None
    end
  else Some ns.

(** A setting with an empty namespace. *)
Definition draftSetting : Setting :=
  {| settingMeta :=
       {| metaName := "settings"; metaNamespace := EmptyString; metaUID := EmptyString;
          metaLabels := ∅; metaAnnotations := ∅; metaOwnerReferences := [] |};
     settingSpec := settingSpec sampleSetting |}.

(** The service-account file cannot be read. *)
Definition noNamespaceFile : error :=
  errorString
    "open /var/run/secrets/kubernetes.io/serviceaccount/namespace: no such file or directory".

(** The store a pass without failures leaves on the sample cluster. *)
Definition settledCluster : Cluster :=
  Eval vm_compute in
    cluster (snd (Reconcile sampleReconciler (keyOf (pageMeta blogPage))
                    (worldOf sampleCluster noFaults))).

(** * Properties *)

(** ** Strings and the template *)

Example ReplaceAll_dots :
  ReplaceAll "docs.example.com" "." "-" = "docs-example-com".
Proof. reflexivity. Qed.

Lemma nginxConfTemplate_parses :
  Template.Parse nginxConfTemplate = inl nginxConfNodes.
Proof. vm_compute. reflexivity. Qed.

(** ** The client *)

#[global] Instance CronJob_laws : ObjectLaws CronJob.
Proof. split; [reflexivity | reflexivity | by intros [] | reflexivity]. Qed.

#[global] Instance ConfigMap_laws : ObjectLaws ConfigMap.
Proof. split; [reflexivity | reflexivity | by intros [] | reflexivity]. Qed.

#[global] Instance Deployment_laws : ObjectLaws Deployment.
Proof. split; [reflexivity | reflexivity | by intros [] | reflexivity]. Qed.

#[global] Instance Service_laws : ObjectLaws Service.
Proof. split; [reflexivity | reflexivity | by intros [] | reflexivity]. Qed.

#[global] Instance Ingress_laws : ObjectLaws Ingress.
Proof. split; [reflexivity | reflexivity | by intros [] | reflexivity]. Qed.

Section Skeleton.

Context {T : Type} `{ObjectLaws T}.
Variables (key : NamespacedName) (build : T -> T).
Variables (onGetFailure : option error -> option error).
Variables (createMsg updateMsg : string).

Lemma clientGet_run (w : World) :
  clientGet key w = (Returned (readOf w key), recordCall (GetCall kindOf key) w).
Proof.
  unfold clientGet, readOf, issue.
  destruct (faults w (length (calls w)) (GetCall kindOf key)); [reflexivity|].
  cbn [cluster recordCall]. by destruct (table (cluster w) !! key).
Qed.

Lemma clientCreate_run (obj : T) (w : World) :
  clientCreate obj w =
  match createError w obj with
  | Some e => (Returned (Some e), recordCall (CreateCall kindOf (getMeta obj)) w)
  | None => (Returned None, stored obj (recordCall (CreateCall kindOf (getMeta obj)) w))
  end.
Proof.
  unfold clientCreate, createError, issue, stored.
  destruct (faults w (length (calls w)) (CreateCall kindOf (getMeta obj)));
    [reflexivity|].
  cbn [cluster recordCall]. by destruct (table (cluster w) !! keyOf (getMeta obj)).
Qed.

Lemma clientUpdate_run (obj : T) (w : World) :
  clientUpdate obj w =
  match updateError w obj with
  | Some e => (Returned (Some e), recordCall (UpdateCall kindOf (getMeta obj)) w)
  | None => (Returned None, stored obj (recordCall (UpdateCall kindOf (getMeta obj)) w))
  end.
Proof.
  unfold clientUpdate, updateError, issue, stored.
  destruct (faults w (length (calls w)) (UpdateCall kindOf (getMeta obj)));
    [reflexivity|].
  cbn [cluster recordCall]. by destruct (table (cluster w) !! keyOf (getMeta obj)).
Qed.

Lemma clientUpdate_then (obj : T) (w2 : World) :
  (e <- clientUpdate obj ;;
   match e with
   | Some _ => ret (None, Wrap e updateMsg)
   | None => ret (Some obj, None)
   end) w2 = afterUpdate updateMsg obj w2.
Proof.
  unfold bind, afterUpdate. rewrite clientUpdate_run.
  by destruct (updateError w2 obj).
Qed.

(** Symbolic execution of the shared shape: every run takes one of the
    paths below. *)
Lemma getThenWrite_unfold (w : World) :
  getThenWrite key build onGetFailure createMsg updateMsg w =
  let g := readOf w key in
  let obj := build (fst g) in
  let w1 := recordCall (GetCall kindOf key) w in
  match snd g with
  | None => afterUpdate updateMsg obj w1
  | Some e =>
      if IsNotFound (Some e) then
        match createError w1 obj with
        | Some e' =>
            (Returned (None, Some (withMessage e' createMsg)),
             recordCall (CreateCall kindOf (getMeta obj)) w1)
        | None =>
            afterUpdate updateMsg obj (stored obj (recordCall (CreateCall kindOf (getMeta obj)) w1))
        end
      else (Returned (None, onGetFailure (Some e)), w1)
  end.
Proof.
  unfold getThenWrite, writeBack, bind at 1 2.
  rewrite clientGet_run. cbn zeta.
  destruct (readOf w key) as [o [e|]]; cbn [fst snd isErr andb].
  - destruct (IsNotFound (Some e)); [|reflexivity].
    unfold bind at 1. rewrite clientCreate_run.
    destruct (createError _ _); [reflexivity|].
    unfold ret at 1. cbn iota beta. apply clientUpdate_then.
  - unfold ret at 1. cbn iota beta. apply clientUpdate_then.
Qed.

End Skeleton.

(** ** The upserts as instances of the shared shape *)

Lemma upsertPageBuilderCronJob_shape r p s :
  upsertPageBuilderCronJob r (Some p) s =
  getThenWrite (childKey ScheduledJob p) (builderCronJobFor r p s)
    (fun e => Wrap e (getMessage ScheduledJob))
    (createMessage ScheduledJob) (updateMessage ScheduledJob).
Proof. reflexivity. Qed.

Lemma upsertConfigMap_shape r p s :
  upsertConfigMap r (Some p) s =
  getThenWrite (childKey ConfigArtifact p) (configMapFor r p s nginxConfNodes)
    (fun _ => Wrap None (getMessage ConfigArtifact))
    (createMessage ConfigArtifact) (updateMessage ConfigArtifact).
Proof.
  unfold upsertConfigMap. rewrite nginxConfTemplate_parses. reflexivity.
Qed.

Lemma upsertPageNginxProxy_shape r p s :
  upsertPageNginxProxy r (Some p) s =
  getThenWrite (childKey ProxyWorkload p) (deploymentFor r p s)
    (fun e => Wrap e (getMessage ProxyWorkload))
    (createMessage ProxyWorkload) (updateMessage ProxyWorkload).
Proof. reflexivity. Qed.

Lemma upsertNginxProxyService_shape r p :
  upsertNginxProxyService r (Some p) =
  getThenWrite (childKey ProxyService p) (serviceFor r p)
    (fun e => Wrap e (getMessage ProxyService))
    (createMessage ProxyService) (updateMessage ProxyService).
Proof. reflexivity. Qed.

Lemma upsertPageIngress_shape r p s :
  upsertPageIngress r (Some p) s =
  getThenWrite (childKey Route p) (ingressFor r p s)
    (fun e => Wrap e (getMessage Route))
    (createMessage Route) (updateMessage Route).
Proof. reflexivity. Qed.

(** ** The paths of the shared shape *)

Section Paths.

Context {T : Type} `{ObjectLaws T}.
Variables (key : NamespacedName) (build : T -> T).
Variables (onGetFailure : option error -> option error).
Variables (createMsg updateMsg : string).
Hypothesis build_key : forall o, keyOf (getMeta (build o)) = key.

Lemma stored_twice (obj : T) (c : Cluster) :
  setTable (<[key := obj]> (table (setTable (<[key := obj]> (table c)) c)))
    (setTable (<[key := obj]> (table c)) c)
  = setTable (<[key := obj]> (table c)) c.
Proof. by rewrite table_setTable, insert_insert_eq, setTable_setTable. Qed.

Lemma getThenWrite_paths (w : World) :
  let g := readOf w key in
  let obj := build (fst g) in
  let run := getThenWrite key build onGetFailure createMsg updateMsg w in
  exists path : Path,
    fst run = Returned (if succeeded path then Some obj else None,
                        pathError (onGetFailure (snd g)) createMsg updateMsg path)
    /\ calls (snd run) = (calls w ++ pathCalls kindOf key (getMeta obj) path)%list
    /\ faults (snd run) = faults w
    /\ logged (snd run) = logged w
    /\ readCondition path (snd g)
    /\ cluster (snd run) =
       if wrote path
       then setTable (<[key := obj]> (table (cluster w))) (cluster w)
       else cluster w.
Proof.
  cbn zeta. rewrite getThenWrite_unfold. cbn zeta.
  destruct (readOf w key) as [o [e|]]; cbn [fst snd].
  - destruct (IsNotFound (Some e)) eqn:Hnf.
    + destruct (createError _ _) as [e'|].
      * exists (CreateFailed e'). cbn. by rewrite <- !app_assoc.
      * unfold afterUpdate. destruct (updateError _ _) as [e'|].
        -- exists (CreatedUpdateFailed e'). cbn.
           rewrite <- !app_assoc, build_key. done.
        -- exists CreatedUpdated. cbn.
           rewrite <- !app_assoc, build_key, stored_twice. done.
    + exists (ReadFailed e). cbn. done.
  - unfold afterUpdate. destruct (updateError _ _) as [e'|].
    + exists (UpdateFailed e'). cbn. by rewrite <- !app_assoc.
    + exists Updated. cbn. rewrite <- !app_assoc, build_key. done.
Qed.

(** What a successful run returns is the object built from what was read. *)
Lemma getThenWrite_returns (w : World) (obj : T) (w' : World) :
  getThenWrite key build onGetFailure createMsg updateMsg w
    = (Returned (Some obj, None), w') ->
  obj = build (fst (readOf w key))
  /\ table (cluster w') !! key = Some obj.
Proof.
  intros Hrun. destruct (getThenWrite_paths w) as (path & Hout & _ & _ & _ & _ & Hcl).
  rewrite Hrun in Hout, Hcl. cbn [fst snd] in Hout, Hcl.
  destruct path; cbn in Hout; try discriminate;
    injection Hout as ->; cbn in Hcl; rewrite Hcl, table_setTable;
    by rewrite lookup_insert_eq.
Qed.

End Paths.

(** ** The objects the upserts build *)

Lemma keyOf_setControllerMeta p m sch :
  keyOf (fst (setControllerMeta p m sch)) = keyOf m.
Proof. unfold setControllerMeta. repeat case_match; reflexivity. Qed.

Lemma validateOwner_same_namespace p m :
  metaNamespace m = pageNamespace p -> validateOwner (pageMeta p) m = None.
Proof.
  unfold validateOwner, pageNamespace. intros ->.
  repeat case_bool_decide; congruence.
Qed.

(** On fresh metadata in the namespace of the page the owner reference is
    set whenever the scheme knows the kind of the page. *)
Lemma setControllerMeta_fresh p m sch gvk :
  metaOwnerReferences m = [] ->
  metaNamespace m = pageNamespace p ->
  sch !! "HugoPage" = Some gvk ->
  setControllerMeta p m sch = (setOwnerReferences [ownerReferenceTo gvk p] m, None).
Proof.
  intros Hrefs Hns Hsch. unfold setControllerMeta, controllerRef.
  rewrite validateOwner_same_namespace, Hsch, Hrefs by done. reflexivity.
Qed.

Ltac solve_build_key :=
  intros; cbv beta delta [builderCronJobFor configMapFor deploymentFor serviceFor
                           ingressFor SetControllerReference] zeta;
  cbn [fst snd]; rewrite getMeta_setMeta, keyOf_setControllerMeta;
  try case_match; reflexivity.

Lemma builderCronJobFor_key r p s o :
  keyOf (getMeta (builderCronJobFor r p s o)) = childKey ScheduledJob p.
Proof. solve_build_key. Qed.

Lemma configMapFor_key r p s t o :
  keyOf (getMeta (configMapFor r p s t o)) = childKey ConfigArtifact p.
Proof. solve_build_key. Qed.

Lemma deploymentFor_key r p s o :
  keyOf (getMeta (deploymentFor r p s o)) = childKey ProxyWorkload p.
Proof. solve_build_key. Qed.

Lemma serviceFor_key r p o :
  keyOf (getMeta (serviceFor r p o)) = childKey ProxyService p.
Proof. solve_build_key. Qed.

Lemma ingressFor_key r p s o :
  keyOf (getMeta (ingressFor r p s o)) = childKey Route p.
Proof. solve_build_key. Qed.

(** Building again from what has been built changes nothing: the builders
    take only the fields they do not overwrite from what was read. *)
Lemma builderCronJobFor_again r p s o :
  builderCronJobFor r p s (builderCronJobFor r p s o) = builderCronJobFor r p s o.
Proof. reflexivity. Qed.

Lemma configMapFor_again r p s t o :
  configMapFor r p s t (configMapFor r p s t o) = configMapFor r p s t o.
Proof. reflexivity. Qed.

Lemma deploymentFor_again r p s o :
  deploymentFor r p s (deploymentFor r p s o) = deploymentFor r p s o.
Proof. reflexivity. Qed.

Lemma serviceFor_again r p o :
  serviceFor r p (serviceFor r p o) = serviceFor r p o.
Proof. reflexivity. Qed.

Lemma ingressFor_again r p s o :
  ingressFor r p s (ingressFor r p s o) = ingressFor r p s o.
Proof. unfold ingressFor. by destruct (Enable (TLS (settingSpec s))). Qed.

(** ** The paths of the five upserts *)

Lemma bind_tagged {A} (tag : A -> Child) (m : M (option A * option error)) (w : World) :
  (u <- m ;; ret (tagged tag u)) w =
  match m w with
  | (Returned u, w') => (Returned (tagged tag u), w')
  | (Panicked reason, w') => (Panicked reason, w')
  end.
Proof. reflexivity. Qed.

Ltac transfer_paths Hkey :=
  let path := fresh "path" in
  let Hout := fresh "Hout" in
  let Hrest := fresh "Hrest" in
  match goal with
  | |- context [getThenWrite ?key ?build ?h ?cm ?um ?w] =>
      destruct (getThenWrite_paths key build h cm um Hkey w)
        as (path & Hout & Hrest);
      destruct (getThenWrite key build h cm um w) as [out w'];
      cbn [fst snd] in Hout, Hrest; subst out;
      destruct Hrest as (Hcalls & Hfaults & Hlogged & Hread & Hcluster);
      exists path; cbn [fst snd];
      repeat split; try done;
      [ by destruct path
      | destruct path; cbn [wrote] in *; try done;
        cbn [childAt]; rewrite Hcluster;
        match goal with
        | |- context [setTable ?t ?c] =>
            change (fmap ?f (_ !! ?k)) with (f <$> table (setTable t c) !! k)
        end;
        rewrite table_setTable, lookup_insert_eq; reflexivity ]
  end.

Lemma upsertChild_paths c r p s w :
  let run := upsertChild c r (Some p) s w in
  let obj := desiredChild c r p s w in
  exists path : Path,
    fst run = Returned (if succeeded path then Some obj else None,
                        pathError (getFailure c (childReadError c p w))
                          (createMessage c) (updateMessage c) path)
    /\ calls (snd run) =
       (calls w ++ pathCalls (childKind c) (childKey c p) (childMeta obj) path)%list
    /\ faults (snd run) = faults w
    /\ logged (snd run) = logged w
    /\ readCondition path (childReadError c p w)
    /\ (if wrote path
        then childAt c p (cluster (snd run)) = Some obj
        else cluster (snd run) = cluster w).
Proof.
  cbn zeta. destruct c; unfold upsertChild; rewrite bind_tagged.
  - rewrite upsertPageBuilderCronJob_shape.
    transfer_paths (builderCronJobFor_key r p s).
  - rewrite upsertConfigMap_shape.
    transfer_paths (configMapFor_key r p s nginxConfNodes).
  - rewrite upsertPageNginxProxy_shape.
    transfer_paths (deploymentFor_key r p s).
  - rewrite upsertNginxProxyService_shape.
    transfer_paths (serviceFor_key r p).
  - rewrite upsertPageIngress_shape.
    transfer_paths (ingressFor_key r p s).
Qed.

(** ** The writes of an upsert (claim C2) *)

Lemma issued_app (w w' : World) (cs : list Call) :
  calls w' = (calls w ++ cs)%list -> issued w w' = cs.
Proof. unfold issued. intros ->. apply drop_app_length. Qed.

(** C2 as worded fails: on a cluster where the scheduled job of the site
    does not exist yet the read answers not-found, and the upsert issues a
    create and then an update, two writes in one invocation. *)
Lemma upsert_not_found_writes_twice :
  ~ exactlyOneWrite ScheduledJob sampleReconciler blogPage sampleSetting
      (worldOf sampleCluster noFaults).
Proof.
  unfold exactlyOneWrite.
  change (IsNotFound _) with true. cbn iota.
  intros [m Hm]. vm_compute in Hm. discriminate Hm.
Qed.

Section Writes.

Context {T : Type} `{ObjectLaws T}.
Variables (key : NamespacedName) (build : T -> T).
Variables (onGetFailure : option error -> option error).
Variables (createMsg updateMsg : string).

(** The writes of a run, by the answers of the read and of the create. *)
Lemma getThenWrite_writes (w : World) :
  let g := readOf w key in
  let obj := build (fst g) in
  let run := getThenWrite key build onGetFailure createMsg updateMsg w in
  let ws := writes (issued w (snd run)) in
  match snd g with
  | None => ws = [UpdateCall kindOf (getMeta obj)]
  | Some e =>
      if IsNotFound (Some e) then
        match createError (recordCall (GetCall kindOf key) w) obj with
        | Some e' =>
            ws = [CreateCall kindOf (getMeta obj)]
            /\ run = (Returned (None, Some (withMessage e' createMsg)), snd run)
        | None => ws = [CreateCall kindOf (getMeta obj); UpdateCall kindOf (getMeta obj)]
        end
      else ws = []
  end.
Proof.
  cbn zeta. rewrite getThenWrite_unfold. cbn zeta.
  destruct (snd (readOf w key)) as [e|].
  - destruct (IsNotFound (Some e)).
    + destruct (createError _ _) as [e'|].
      * split; [|reflexivity]. unfold issued. cbn [snd calls recordCall].
        by rewrite <- !app_assoc, drop_app_length.
      * unfold afterUpdate. destruct (updateError _ _);
          unfold issued; cbn [snd calls recordCall stored withCluster];
          by rewrite <- !app_assoc, drop_app_length.
    + unfold issued. cbn [snd calls recordCall]. by rewrite drop_app_length.
  - unfold afterUpdate. destruct (updateError _ _);
      unfold issued; cbn [snd calls recordCall stored withCluster];
      by rewrite <- !app_assoc, drop_app_length.
Qed.

End Writes.

Ltac transfer_writes :=
  match goal with
  | |- context [getThenWrite ?key ?build ?h ?cm ?um ?w] =>
      let Hw := fresh "Hw" in
      pose proof (getThenWrite_writes key build h cm um w) as Hw; cbn zeta in Hw;
      unfold childReadError, childCreateError;
      cbn [desiredChild childMeta childKind childKey] in *;
      destruct (getThenWrite key build h cm um w) as [[out|?] w1];
      cbn [fst snd] in *;
      (destruct (snd (readOf w key)) as [e|]; [|exact Hw]);
      (destruct (IsNotFound (Some e)); [|exact Hw]);
      (destruct (createError _ _) as [e'|]; [|exact Hw]);
      destruct Hw as [Hws Hrun]; (split; [exact Hws|]);
      first [ discriminate Hrun | injection Hrun as ->; reflexivity ]
  end.

(** C2, amended: however the upsert of any of the five kinds runs, its
    writes are determined by the answers of the API.  When the read has
    succeeded there is exactly one write, an update.  When the read has
    answered not-found a create is issued first: if the create succeeds an
    update of the same object follows in the same invocation, two writes;
    if the create fails it is the only write, and the upsert returns no
    resource and the error of that create, wrapped with the create message
    of its kind.  When the read has failed otherwise nothing is written. *)
Theorem upsert_write_sequence c r p s w :
  let run := upsertChild c r (Some p) s w in
  let ws := writes (issued w (snd run)) in
  let k := childKind c in
  let m := childMeta (desiredChild c r p s w) in
  match childReadError c p w with
  | None => ws = [UpdateCall k m]
  | Some e =>
      if IsNotFound (Some e)
      then match childCreateError c r p s w with
           | Some e' =>
               ws = [CreateCall k m]
               /\ fst run = Returned (None, Some (withMessage e' (createMessage c)))
           | None => ws = [CreateCall k m; UpdateCall k m]
           end
      else ws = []
  end.
Proof.
  cbn zeta. destruct c; unfold upsertChild; rewrite bind_tagged.
  - rewrite upsertPageBuilderCronJob_shape. transfer_writes.
  - rewrite upsertConfigMap_shape. transfer_writes.
  - rewrite upsertPageNginxProxy_shape. transfer_writes.
  - rewrite upsertNginxProxyService_shape. transfer_writes.
  - rewrite upsertPageIngress_shape. transfer_writes.
Qed.

(** The deployment of the proxy on a server that refuses it: the read
    answers not-found, the create is refused, and it is the only write. *)
Example upsert_refused_create_run :
  let w := worldOf sampleCluster deploymentWritesForbidden in
  let run := upsertChild ProxyWorkload sampleReconciler (Some blogPage) sampleSetting w in
  fst run = Returned (None, Some (withMessage forbidden
                                    "Failed to create new hugo-page nginx proxy deployment"))
  /\ map isWrite (issued w (snd run)) = [false; true].
Proof. vm_compute. split; reflexivity. Qed.

(** ** Read failures (claim C5) *)

(** The four upserts other than the one of the ConfigMap wrap a failed read
    with a message that names their resource. *)
Lemma read_failure_wrapped c r p s w e :
  c <> ConfigArtifact ->
  childReadError c p w = Some e ->
  IsNotFound (Some e) = false ->
  fst (upsertChild c r (Some p) s w) = Returned (None, Some (withMessage e (getMessage c))).
Proof.
  intros Hc He Hnf.
  destruct (upsertChild_paths c r p s w) as (path & Hout & _ & _ & _ & Hread & _).
  rewrite Hout, He in *.
  destruct path; cbn [readCondition] in Hread;
    try (rewrite Hnf in Hread; discriminate Hread); try discriminate Hread.
  destruct Hread as [[= <-] _]. by destruct c.
Qed.

(** C5 fails for the ConfigMap: when the read fails with an error other
    than not-found, [upsertConfigMap] wraps [err], the error of the template
    compilation, which is nil at that point, and so returns a nil resource
    together with a nil error, after the single read and without a write. *)
Theorem upsertConfigMap_read_failure_returns_nil r p s w e :
  childReadError ConfigArtifact p w = Some e ->
  IsNotFound (Some e) = false ->
  upsertConfigMap r (Some p) s w
  = (Returned (None, None), recordCall (GetCall KConfigMap (childKey ConfigArtifact p)) w).
Proof.
  intros He Hnf. rewrite upsertConfigMap_shape, getThenWrite_unfold. cbn zeta.
  unfold childReadError in He. rewrite He, Hnf. reflexivity.
Qed.

Lemma upsertConfigMap_read_failure_witness :
  childReadError ConfigArtifact blogPage (worldOf sampleCluster configMapReadsForbidden)
    = Some forbidden
  /\ IsNotFound (Some forbidden) = false
  /\ upsertConfigMap sampleReconciler (Some blogPage) sampleSetting
       (worldOf sampleCluster configMapReadsForbidden)
     = (Returned (None, None),
        recordCall (GetCall KConfigMap (childKey ConfigArtifact blogPage))
          (worldOf sampleCluster configMapReadsForbidden)).
Proof.
  split; [reflexivity|]. split; [reflexivity|].
  apply (upsertConfigMap_read_failure_returns_nil sampleReconciler blogPage sampleSetting
           (worldOf sampleCluster configMapReadsForbidden) forbidden); reflexivity.
Defined.

(** What the nil error does to a pass: with every read of a ConfigMap
    refused, [Reconcile] goes on to the three remaining upserts and reports
    success, and no ConfigMap has been stored for the site. *)
Example Reconcile_swallows_configmap_read_failure :
  let run := Reconcile sampleReconciler (keyOf (pageMeta blogPage))
               (worldOf sampleCluster configMapReadsForbidden) in
  fst run = Returned (noRequeue, None)
  /\ childAt ConfigArtifact blogPage (cluster (snd run)) = None
  /\ map callKind (calls (snd run))
     = [KHugoPage; KSetting; KCronJob; KCronJob; KCronJob; KConfigMap;
        KDeployment; KDeployment; KDeployment; KService; KService; KService;
        KIngress; KIngress; KIngress].
Proof. vm_compute. repeat split. Qed.

(** ** The reconcile loop *)

Lemma pageGetNamespaced_run req w :
  pageGetNamespaced req w =
  (Returned (match snd (readOf (T := HugoPage) w req) with
             | Some e => (None, Some e)
             | None => (Some (fst (readOf (T := HugoPage) w req)), None)
             end),
   recordCall (GetCall KHugoPage req) w).
Proof.
  unfold pageGetNamespaced, bind. rewrite clientGet_run.
  by destruct (readOf w req) as [o [e|]].
Qed.

Lemma settingGetNameNamespace_run name ns w :
  settingGetNameNamespace name ns w =
  let key := {| Namespace := ns; Name := name |} in
  (Returned (match snd (readOf (T := Setting) w key) with
             | Some e => (None, Some e)
             | None => (Some (fst (readOf (T := Setting) w key)), None)
             end),
   recordCall (GetCall KSetting key) w).
Proof.
  unfold settingGetNameNamespace, settingGetNamespaced, bind. rewrite clientGet_run.
  cbn zeta. by destruct (readOf w _) as [o [e|]].
Qed.

(** A page that is not in the store is read as nil. *)
Lemma absent_page_read_fails req w :
  hugoPages (cluster w) !! req = None ->
  exists e, snd (readOf (T := HugoPage) w req) = Some e.
Proof.
  intros Habs. unfold readOf.
  destruct (faults w (length (calls w)) (GetCall kindOf req)) as [e|]; [by exists e|].
  change (table (cluster w)) with (hugoPages (cluster w)). rewrite Habs. by eexists.
Qed.

(** On a page that is not nil the five upserts of [Reconcile] are the
    in-order run followed by the decision on its result. *)
Lemma reconcileChildren_in_order r p s w :
  reconcileChildren r (Some p) s w =
  (failed <- upsertInOrder r (Some p) s upsertOrder ;; reconcileResult failed) w.
Proof.
  unfold reconcileChildren, upsertOrder, upsertInOrder, upsertChild, reconcileResult,
    failureMessage.
  unfold bind, ret, tagged.
  destruct (upsertPageBuilderCronJob r (Some p) s w) as [[[o1 [e1|]]|?] w3];
    cbn [fst snd]; try reflexivity.
  destruct (upsertConfigMap r (Some p) s w3) as [[[o2 [e2|]]|?] w4];
    cbn [fst snd]; try reflexivity.
  destruct (upsertPageNginxProxy r (Some p) s w4) as [[[o3 [e3|]]|?] w5];
    cbn [fst snd]; try reflexivity.
  destruct (upsertNginxProxyService r (Some p) w5) as [[[o4 [e4|]]|?] w6];
    cbn [fst snd]; try reflexivity.
  destruct (upsertPageIngress r (Some p) s w6) as [[[o5 [e5|]]|?] w7];
    cbn [fst snd]; reflexivity.
Qed.

(** On a nil page the first upsert dereferences it before any call. *)
Lemma reconcileChildren_nil_page r s w :
  reconcileChildren r None s w
  = (Panicked "runtime error: invalid memory address or nil pointer dereference", w).
Proof. reflexivity. Qed.

(** Up to the fetch of the settings: the page has been read and at most a
    log line has been written. *)
Lemma Reconcile_until_settings r req w :
  exists w1,
    cluster w1 = cluster w
    /\ faults w1 = faults w
    /\ calls w1 = (calls w ++ [GetCall KHugoPage req])%list
    /\ Reconcile r req w =
       reconcileWithSettings r req
         (match snd (readOf (T := HugoPage) w req) with
          | Some _ => None
          | None => Some (fst (readOf (T := HugoPage) w req))
          end) w1.
Proof.
  unfold Reconcile. unfold bind at 1. rewrite pageGetNamespaced_run.
  destruct (snd (readOf (T := HugoPage) w req)) as [e|];
    cbn [fst snd isErr isNil orb].
  - destruct (IsNotFound (Some e)).
    + by exists (snd (logLine "Hugo Page resource not found. Ignoring since object must be deleted"
                        (recordCall (GetCall KHugoPage req) w))).
    + by exists (snd (logLine "Failed to fetch HugoPage resource"
                        (recordCall (GetCall KHugoPage req) w))).
  - by exists (recordCall (GetCall KHugoPage req) w).
Qed.

Lemma reconcileWithSettings_run r req page w1 :
  let key := {| Namespace := Namespace req; Name := settingName r |} in
  let w2 := recordCall (GetCall KSetting key) w1 in
  reconcileWithSettings r req page w1 =
  match readOf (T := Setting) w1 key with
  | (s, None) => reconcileChildren r page s w2
  | (_, Some _) => RecordPanic (missingSettingMessage r) w2
  end.
Proof.
  cbn zeta. unfold reconcileWithSettings. unfold bind at 1.
  rewrite settingGetNameNamespace_run. cbn zeta.
  by destruct (readOf w1 _) as [s [e|]].
Qed.

Lemma Reconcile_after_fetch r req w p s :
  readOf (T := HugoPage) w req = (p, None) ->
  readOf (T := Setting) (recordCall (GetCall KHugoPage req) w)
    {| Namespace := Namespace req; Name := settingName r |} = (s, None) ->
  Reconcile r req w =
  (failed <- upsertInOrder r (Some p) s upsertOrder ;; reconcileResult failed)
    (recordCall (GetCall KSetting {| Namespace := Namespace req; Name := settingName r |})
       (recordCall (GetCall KHugoPage req) w)).
Proof.
  intros Hp Hs. unfold Reconcile. unfold bind at 1.
  rewrite pageGetNamespaced_run, Hp. cbn [fst snd isErr isNil orb].
  unfold bind at 1. unfold ret at 1. cbn iota beta.
  rewrite reconcileWithSettings_run. cbn zeta. rewrite Hs.
  apply reconcileChildren_in_order.
Qed.

Lemma pathCalls_of_kind c key m path :
  callsOfKind c (pathCalls (childKind c) key m path).
Proof. split; destruct path; cbn; try done; repeat constructor. Qed.

(** An error an upsert returns has been wrapped. *)
Lemma upsert_error_wrapped c p w path e :
  readCondition path (childReadError c p w) ->
  pathError (getFailure c (childReadError c p w)) (createMessage c) (updateMessage c) path
    = Some e ->
  isWrapped e.
Proof.
  intros Hread He. destruct path; cbn in He, Hread; try discriminate He;
    try (injection He as <-; by eexists _, _).
  destruct Hread as [Hr _]. rewrite Hr in He.
  destruct c; cbn in He; try discriminate He; injection He as <-; by eexists _, _.
Qed.

(** The in-order run never panics on a non-nil page; it attempts a prefix
    of the kinds, each attempt issues calls for its own kind only, and it
    ends either after the last kind or at the kind whose upsert has
    returned an error. *)
Lemma upsertInOrder_trace r p s kinds : forall w,
  exists failed w' attempted css,
    upsertInOrder r (Some p) s kinds w = (Returned failed, w')
    /\ faults w' = faults w
    /\ logged w' = logged w
    /\ calls w' = (calls w ++ concat css)%list
    /\ attempted `prefix_of` kinds
    /\ Forall2 callsOfKind attempted css
    /\ match failed with
       | None => attempted = kinds
       | Some (c, e) => last attempted = Some c /\ isWrapped e
       end.
Proof.
  induction kinds as [|c rest IH]; intros w.
  - exists None, w, [], []. cbn. rewrite app_nil_r. repeat split; done.
  - destruct (upsertChild_paths c r p s w)
      as (path & Hout & Hcalls & Hf & Hl & Hread & _).
    cbn [upsertInOrder]. unfold bind at 1.
    destruct (upsertChild c r (Some p) s w) as [out w1].
    cbn [fst snd] in Hout, Hcalls, Hf, Hl. subst out. cbn [snd].
    destruct (pathError _ _ _ path) as [e|] eqn:He.
    + exists (Some (c, e)), w1, [c], [pathCalls (childKind c) (childKey c p)
                                        (childMeta (desiredChild c r p s w)) path].
      cbn [concat]. rewrite app_nil_r. repeat split; try done.
      * by apply prefix_cons, prefix_nil.
      * repeat constructor; apply pathCalls_of_kind.
      * by eapply upsert_error_wrapped.
    + destruct (IH w1) as (failed & w' & attempted & css & Hrun & Hf' & Hl' & Hc' & Hpre & Hall & Hend).
      exists failed, w', (c :: attempted),
        (pathCalls (childKind c) (childKey c p)
           (childMeta (desiredChild c r p s w)) path :: css).
      repeat split.
      * exact Hrun.
      * congruence.
      * congruence.
      * rewrite Hc', Hcalls. cbn [concat]. by rewrite <- app_assoc.
      * by apply prefix_cons.
      * constructor; [apply pathCalls_of_kind | exact Hall].
      * destruct failed as [[c' e']|]; [|by rewrite Hend].
        destruct Hend as [Hlast Hw]. split; [|exact Hw].
        rewrite last_cons, Hlast. reflexivity.
Qed.

(** ** Claim C4 *)

(** C4: when the page and the settings have been fetched, [Reconcile]
    invokes the upserts in the order ScheduledJob, ConfigArtifact,
    ProxyWorkload, ProxyService, Route: it coincides with the in-order run
    that stops at the first upsert returning an error, the kinds attempted
    are a prefix of that order and the calls issued are those of the
    attempted kinds, one kind after the other.  If an upsert has returned an
    error, it is the last kind attempted and [Reconcile] returns a requeue
    request after exactly one minute (60000000000 ns) with that wrapped
    error; if none has, all five were attempted and [Reconcile] returns no
    requeue and a nil error. *)
Theorem Reconcile_upserts_in_order r req w p s :
  readOf (T := HugoPage) w req = (p, None) ->
  readOf (T := Setting) (recordCall (GetCall KHugoPage req) w)
    {| Namespace := Namespace req; Name := settingName r |} = (s, None) ->
  let w2 :=
    recordCall (GetCall KSetting {| Namespace := Namespace req; Name := settingName r |})
      (recordCall (GetCall KHugoPage req) w) in
  exists failed w3 attempted css,
    upsertInOrder r (Some p) s upsertOrder w2 = (Returned failed, w3)
    /\ Reconcile r req w = reconcileResult failed w3
    /\ attempted `prefix_of` upsertOrder
    /\ issued w2 w3 = concat css
    /\ Forall2 callsOfKind attempted css
    /\ match failed with
       | None =>
           attempted = upsertOrder
           /\ fst (Reconcile r req w)
              = Returned ({| Requeue := false; RequeueAfter := 0 |}, None)
       | Some (c, e) =>
           last attempted = Some c
           /\ isWrapped e
           /\ fst (Reconcile r req w)
              = Returned ({| Requeue := true; RequeueAfter := 60000000000 |}, Some e)
       end.
Proof.
  intros Hp Hs w2.
  destruct (upsertInOrder_trace r p s upsertOrder w2)
    as (failed & w3 & attempted & css & Hrun & _ & _ & Hcalls & Hpre & Hall & Hend).
  assert (Hrec : Reconcile r req w = reconcileResult failed w3).
  { rewrite (Reconcile_after_fetch r req w p s Hp Hs). fold w2.
    unfold bind at 1. by rewrite Hrun. }
  exists failed, w3, attempted, css. repeat split; try done.
  - by apply issued_app.
  - rewrite Hrec. destruct failed as [[c e]|].
    + destruct Hend as [Hlast Hw]. repeat split; done.
    + split; [exact Hend | reflexivity].
Qed.

Lemma Reconcile_upserts_in_order_witness :
  readOf (T := HugoPage) (worldOf sampleCluster deploymentWritesForbidden)
    (keyOf (pageMeta blogPage)) = (blogPage, None)
  /\ readOf (T := Setting)
       (recordCall (GetCall KHugoPage (keyOf (pageMeta blogPage)))
          (worldOf sampleCluster deploymentWritesForbidden))
       {| Namespace := "default"; Name := "settings" |} = (sampleSetting, None)
  /\ fst (Reconcile sampleReconciler (keyOf (pageMeta blogPage))
            (worldOf sampleCluster deploymentWritesForbidden))
     = Returned ({| Requeue := true; RequeueAfter := 60000000000 |},
                 Some (withMessage forbidden
                         "Failed to create new hugo-page nginx proxy deployment"))
  /\ map callKind
       (calls (snd (Reconcile sampleReconciler (keyOf (pageMeta blogPage))
                      (worldOf sampleCluster deploymentWritesForbidden))))
     = [KHugoPage; KSetting; KCronJob; KCronJob; KCronJob;
        KConfigMap; KConfigMap; KConfigMap; KDeployment; KDeployment].
Proof.
  split; [reflexivity|]. split; [reflexivity|].
  destruct (Reconcile_upserts_in_order sampleReconciler (keyOf (pageMeta blogPage))
              (worldOf sampleCluster deploymentWritesForbidden) blogPage sampleSetting
              eq_refl eq_refl)
    as (failed & w3 & attempted & css & Hrun & Hrec & _).
  split; [|vm_compute; reflexivity].
  rewrite Hrec. vm_compute in Hrun. injection Hrun as <- <-. vm_compute. reflexivity.
Defined.


(** ** Claims C1 and C3 *)

Lemma RecordPanic_run {A} msg w :
  RecordPanic (A := A) msg w = (Panicked msg, snd (logLine msg w)).
Proof. reflexivity. Qed.

(** C3: when the settings named by [settingName] are absent from the
    namespace of the request, or the read of them (the second call of the
    pass) fails, [Reconcile] aborts with a panic.  The only calls of the
    pass are the reads of the page and of the settings: no child resource is
    read, created or updated, and the store is left as it was. *)
Theorem Reconcile_without_settings_aborts r req w :
  let key := {| Namespace := Namespace req; Name := settingName r |} in
  settings (cluster w) !! key = None
  \/ faults w (length (calls w) + 1)%nat (GetCall KSetting key) <> None ->
  exists w',
    Reconcile r req w = (Panicked (missingSettingMessage r), w')
    /\ issued w w' = [GetCall KHugoPage req; GetCall KSetting key]
    /\ cluster w' = cluster w.
Proof.
  intros key Hmissing.
  destruct (Reconcile_until_settings r req w) as (w1 & Hc & Hf & Hcalls & ->).
  rewrite reconcileWithSettings_run. cbn zeta. fold key.
  assert (Hread : exists e, snd (readOf (T := Setting) w1 key) = Some e).
  { unfold readOf. rewrite Hf, Hcalls, Hc, length_app. cbn [length].
    destruct (faults w (length (calls w) + 1)%nat (GetCall kindOf key)) as [e|] eqn:Hfault;
      [by exists e|].
    destruct Hmissing as [Habs|Hfail]; [|by destruct Hfail].
    change (table (cluster w)) with (settings (cluster w)). rewrite Habs. by eexists. }
  destruct Hread as [e He]. destruct (readOf w1 key) as [s err]. cbn in He. subst err.
  rewrite RecordPanic_run. eexists. split; [reflexivity|]. split.
  - apply issued_app. cbn. by rewrite Hcalls, <- app_assoc.
  - exact Hc.
Qed.

Lemma Reconcile_without_settings_witness :
  settings (cluster (worldOf unconfiguredCluster noFaults))
    !! {| Namespace := "default"; Name := "settings" |} = None
  /\ exists w',
      Reconcile sampleReconciler (keyOf (pageMeta blogPage))
        (worldOf unconfiguredCluster noFaults)
      = (Panicked (missingSettingMessage sampleReconciler), w')
      /\ issued (worldOf unconfiguredCluster noFaults) w'
         = [GetCall KHugoPage (keyOf (pageMeta blogPage));
            GetCall KSetting {| Namespace := "default"; Name := "settings" |}]
      /\ cluster w' = unconfiguredCluster.
Proof.
  split; [reflexivity|].
  apply (Reconcile_without_settings_aborts sampleReconciler (keyOf (pageMeta blogPage))
           (worldOf unconfiguredCluster noFaults)).
  left. reflexivity.
Defined.

(** C1 fails: a request for a page that is not in the store does not make
    [Reconcile] return.  The absence is logged as to be ignored, but the
    pass goes on with a nil page: it fetches the settings and then either
    panics for missing settings or dereferences the nil page in the first
    upsert.  No child is read or written on the way. *)
Theorem Reconcile_absent_page_panics r req w :
  hugoPages (cluster w) !! req = None ->
  exists reason w',
    Reconcile r req w = (Panicked reason, w')
    /\ issued w w'
       = [GetCall KHugoPage req;
          GetCall KSetting {| Namespace := Namespace req; Name := settingName r |}]
    /\ cluster w' = cluster w.
Proof.
  intros Habs. destruct (absent_page_read_fails req w Habs) as [e He].
  destruct (Reconcile_until_settings r req w) as (w1 & Hc & Hf & Hcalls & ->).
  rewrite He, reconcileWithSettings_run. cbn zeta.
  destruct (readOf w1 _) as [s [e'|]].
  - rewrite RecordPanic_run. eexists _, _. split; [reflexivity|]. split.
    + apply issued_app. cbn. by rewrite Hcalls, <- app_assoc.
    + exact Hc.
  - rewrite reconcileChildren_nil_page. eexists _, _. split; [reflexivity|]. split.
    + apply issued_app. cbn. by rewrite Hcalls, <- app_assoc.
    + exact Hc.
Qed.

Lemma Reconcile_absent_page_witness :
  hugoPages (cluster (worldOf settingsOnlyCluster noFaults))
    !! keyOf (pageMeta blogPage) = None
  /\ exists reason w',
      Reconcile sampleReconciler (keyOf (pageMeta blogPage))
        (worldOf settingsOnlyCluster noFaults) = (Panicked reason, w')
      /\ issued (worldOf settingsOnlyCluster noFaults) w'
         = [GetCall KHugoPage (keyOf (pageMeta blogPage));
            GetCall KSetting {| Namespace := "default"; Name := "settings" |}]
      /\ cluster w' = settingsOnlyCluster.
Proof.
  split; [reflexivity|].
  apply (Reconcile_absent_page_panics sampleReconciler (keyOf (pageMeta blogPage))
           (worldOf settingsOnlyCluster noFaults)).
  reflexivity.
Defined.

(** The run on the deleted site, evaluated: the not-found is logged as to be
    ignored and the pass then panics on the nil page instead of returning
    an empty result and a nil error. *)
Example Reconcile_deleted_site_run :
  let run := Reconcile sampleReconciler (keyOf (pageMeta blogPage))
               (worldOf settingsOnlyCluster noFaults) in
  fst run = Panicked "runtime error: invalid memory address or nil pointer dereference"
  /\ logged (snd run)
     = ["Hugo Page resource not found. Ignoring since object must be deleted"]
  /\ fst run <> Returned (noRequeue, None).
Proof. vm_compute. repeat split. discriminate. Qed.

(** ** The route (claim C6) *)

Lemma ReplaceAll_dots_dashes s : ReplaceAll s "." "-" = dotsToDashes s.
Proof.
  unfold ReplaceAll. induction s as [|c s IH]; [reflexivity|].
  cbn [replaceAllFrom dotsToDashes String.prefix String.length Nat.pred].
  destruct (ascii_dec "." c) as [<-|Hne].
  - assert (Hpre : String.prefix EmptyString s = true) by by destruct s.
    rewrite Hpre, IH. reflexivity.
  - rewrite IH. destruct (Ascii.eqb_spec c "."); [congruence|reflexivity].
Qed.

Lemma map_fold_insert_all (a : gmap string string) :
  map_fold (fun k v acc => <[k := v]> acc) ∅ a = a.
Proof.
  apply (map_fold_weak_ind (fun res m => res = m)); [reflexivity|].
  by intros k v m res _ ->.
Qed.

Lemma setControllerMeta_annotations p m sch :
  metaAnnotations (fst (setControllerMeta p m sch)) = metaAnnotations m.
Proof. unfold setControllerMeta. repeat case_match; reflexivity. Qed.

(** C6 as worded fails: the site named docs with URL docs.example.com gets
    the secret docs-page-secret, not docs-example-com-page-secret. *)
Lemma route_secret_not_from_url :
  ~ routeSecretFromURL sampleReconciler docsPage sampleSetting
      (worldOf sampleCluster noFaults).
Proof.
  intros Hclaim.
  let run := eval vm_compute in
      (upsertPageIngress sampleReconciler (Some docsPage) sampleSetting
         (worldOf sampleCluster noFaults)) in
  match run with
  | (Returned (Some ?ing, None), ?w') =>
      specialize (Hclaim ing w' ltac:(vm_compute; reflexivity))
  end.
  vm_compute in Hclaim. discriminate Hclaim.
Qed.

(** C6, amended: with TLS enabled in the settings, the route the upsert
    produces and stores has one TLS block, for the URL of the site as host,
    whose secret name is the NAME of the site with every dot replaced by a
    dash, followed by "-page-secret"; and every key/value pair of the TLS
    annotations of the settings is among the annotations of the route. *)
Theorem route_tls_wiring r p s w ing w' :
  Enable (TLS (settingSpec s)) = true ->
  upsertPageIngress r (Some p) s w = (Returned (Some ing, None), w') ->
  ingTLS (ingressSpec ing)
    = [ {| tlsHosts := [URL (pageSpec p)]; tlsSecretName := secretNameFromName p |} ]
  /\ (forall k v, Annotations (TLS (settingSpec s)) !! k = Some v ->
                  metaAnnotations (ingressMeta ing) !! k = Some v)
  /\ ingresses (cluster w') !! childKey Route p = Some ing.
Proof.
  intros Htls Hrun. rewrite upsertPageIngress_shape in Hrun.
  apply getThenWrite_returns in Hrun as [-> Hstored]; [|apply ingressFor_key].
  split; [|split; [|exact Hstored]].
  - unfold ingressFor. rewrite Htls. cbn. unfold secretNameFromName.
    by rewrite ReplaceAll_dots_dashes.
  - intros k v Hkv. unfold ingressFor. rewrite Htls.
    cbv beta delta [SetControllerReference] zeta. cbn [fst snd].
    change (ingressMeta (setMeta ?m ?o)) with m.
    rewrite setControllerMeta_annotations. cbn.
    by rewrite map_fold_insert_all.
Qed.

Lemma route_tls_wiring_witness :
  Enable (TLS (settingSpec sampleSetting)) = true
  /\ exists ing w',
      upsertPageIngress sampleReconciler (Some docsPage) sampleSetting
        (worldOf sampleCluster noFaults) = (Returned (Some ing, None), w')
      /\ ingTLS (ingressSpec ing)
         = [ {| tlsHosts := ["docs.example.com"]; tlsSecretName := "docs-page-secret" |} ]
      /\ metaAnnotations (ingressMeta ing) !! "cert-manager.io/cluster-issuer"
         = Some "letsencrypt".
Proof.
  split; [reflexivity|].
  destruct (upsertPageIngress sampleReconciler (Some docsPage) sampleSetting
              (worldOf sampleCluster noFaults)) as [[[[ing|] [e|]]|?] w'] eqn:Hrun;
    try (vm_compute in Hrun; discriminate Hrun).
  exists ing, w'. split; [reflexivity|].
  destruct (route_tls_wiring sampleReconciler docsPage sampleSetting
              (worldOf sampleCluster noFaults) ing w' eq_refl Hrun) as (Htls & Hann & _).
  split; [exact Htls|]. by apply Hann.
Defined.

(** ** The rendered configuration (claim C7) *)

Lemma append_assoc (a b c : string) : (a +:+ b) +:+ c = a +:+ (b +:+ c).
Proof.
  induction a as [|x a IH]; [reflexivity|].
  change (String x ((a +:+ b) +:+ c) = String x (a +:+ (b +:+ c))).
  by rewrite IH.
Qed.

Lemma append_empty_r (a : string) : a +:+ EmptyString = a.
Proof.
  induction a as [|x a IH]; [reflexivity|].
  change (String x (a +:+ EmptyString) = String x a). by rewrite IH.
Qed.

(** Executing the compiled template is the substitution of the three values. *)
Lemma Execute_nginxConf (endpoint bucket site : string) :
  Template.Execute nginxConfNodes (nginxValue endpoint bucket site)
  = renderedNginxConf endpoint bucket site.
Proof.
  unfold nginxConfNodes, nginxValue, renderedNginxConf, proxyTarget.
  cbn [Template.Execute Template.evalNode].
  rewrite lookup_insert_eq.
  rewrite lookup_insert_ne, lookup_insert_eq by done.
  rewrite !lookup_insert_ne, lookup_insert_eq by done.
  rewrite append_empty_r, !append_assoc. reflexivity.
Qed.

Lemma effectiveEndpoint_spec s :
  (if bool_decide (ProxyURL (settingSpec s) = EmptyString)
   then Endpoint (S3 (settingSpec s)) else ProxyURL (settingSpec s))
  = effectiveEndpoint s.
Proof. unfold effectiveEndpoint. by destruct (ProxyURL (settingSpec s)). Qed.

(** C7: the configuration the ConfigMap upsert produces and stores is one
    file, nginx.conf, whose content is a function of three values only: the
    effective storage endpoint (the proxy-URL override of the settings when
    it is not empty, their storage endpoint otherwise), the bucket name and
    the name of the site.  In that document the target that follows
    "proxy_pass " and is closed by ";" is the three values joined by slashes
    with a trailing slash. *)
Theorem rendered_proxy_configuration r p s w cm w' :
  upsertConfigMap r (Some p) s w = (Returned (Some cm, None), w') ->
  configMapData cm
    = <["nginx.conf" :=
          renderedNginxConf (effectiveEndpoint s) (BucketName (S3 (settingSpec s)))
            (pageName p)]> ∅
  /\ renderedNginxConf (effectiveEndpoint s) (BucketName (S3 (settingSpec s))) (pageName p)
     = nginxConfHead
       +:+ (effectiveEndpoint s +:+ "/" +:+ BucketName (S3 (settingSpec s)) +:+ "/"
            +:+ pageName p +:+ "/")
       +:+ nginxConfTail
  /\ (exists before, nginxConfHead = before +:+ "proxy_pass ")
  /\ (exists rest, nginxConfTail = ";" +:+ rest)
  /\ effectiveEndpoint s
     = (if bool_decide (ProxyURL (settingSpec s) = EmptyString)
        then Endpoint (S3 (settingSpec s)) else ProxyURL (settingSpec s)).
Proof.
  intros Hrun. rewrite upsertConfigMap_shape in Hrun.
  apply getThenWrite_returns in Hrun as [-> _]; [|apply configMapFor_key].
  split; [|split; [reflexivity|split; [|split]]].
  - unfold configMapFor. cbv beta delta [SetControllerReference] zeta. cbn [fst snd].
    change (configMapData (setMeta ?m ?o)) with (configMapData o). cbn [configMapData].
    by rewrite Execute_nginxConf, effectiveEndpoint_spec.
  - exists (String.substring 0 (String.length nginxConfHead - 11) nginxConfHead).
    vm_compute. reflexivity.
  - eexists. reflexivity.
  - symmetry. apply effectiveEndpoint_spec.
Qed.

Lemma rendered_proxy_configuration_witness :
  exists cm w',
    upsertConfigMap sampleReconciler (Some blogPage) sampleSetting
      (worldOf sampleCluster noFaults) = (Returned (Some cm, None), w')
    /\ configMapData cm
       = <["nginx.conf" := renderedNginxConf "https://s3.example.com" "my-bucket" "blog"]> ∅
    /\ renderedNginxConf "https://s3.example.com" "my-bucket" "blog"
       = nginxConfHead +:+ "https://s3.example.com/my-bucket/blog/" +:+ nginxConfTail.
Proof.
  destruct (upsertConfigMap sampleReconciler (Some blogPage) sampleSetting
              (worldOf sampleCluster noFaults)) as [[[[cm|] [e|]]|?] w'] eqn:Hrun;
    try (vm_compute in Hrun; discriminate Hrun).
  exists cm, w'. split; [reflexivity|].
  destruct (rendered_proxy_configuration sampleReconciler blogPage sampleSetting
              (worldOf sampleCluster noFaults) cm w' Hrun) as (Hdata & _).
  split; [exact Hdata | reflexivity].
Defined.

(** ** The service and the proxy pods (claim C10) *)

(** C10: the selector of the service produced for a site equals the labels
    on the pod template of the proxy workload produced for that site; both
    are app=hugo-hoster, component=nginx-proxy, page=<name of the site>.
    Hence the service selects the proxy pods of a site exactly when that
    site has the same name, and it does not select pods without labels such
    as those of the build job. *)
Theorem service_selects_own_proxy_pods r p s w d w' w0 svc w0' :
  upsertPageNginxProxy r (Some p) s w = (Returned (Some d, None), w') ->
  upsertNginxProxyService r (Some p) w0 = (Returned (Some svc, None), w0') ->
  svcSelector (serviceSpec svc) = templateLabels (depTemplate (deploymentSpec d))
  /\ svcSelector (serviceSpec svc)
     = <["app" := "hugo-hoster"]>
       (<["component" := "nginx-proxy"]> (<["page" := pageName p]> ∅))
  /\ (forall q, selects (svcSelector (serviceSpec svc)) (makeLabels q "nginx-proxy")
                <-> pageName q = pageName p)
  /\ ~ selects (svcSelector (serviceSpec svc)) ∅.
Proof.
  intros Hd Hsvc.
  rewrite upsertPageNginxProxy_shape in Hd.
  apply getThenWrite_returns in Hd as [-> _]; [|apply deploymentFor_key].
  rewrite upsertNginxProxyService_shape in Hsvc.
  apply getThenWrite_returns in Hsvc as [-> _]; [|apply serviceFor_key].
  change (svcSelector (serviceSpec (serviceFor r p _))) with (makeLabels p "nginx-proxy").
  split; [reflexivity|]. split; [reflexivity|]. split.
  - intros q. unfold selects. split.
    + intros Hsub.
      assert (Hp : makeLabels p "nginx-proxy" !! "page" = Some (pageName p)) by reflexivity.
      assert (Hq : makeLabels q "nginx-proxy" !! "page" = Some (pageName q)) by reflexivity.
      eapply lookup_weaken in Hp; [|exact Hsub]. congruence.
    + intros Heq. unfold makeLabels. by rewrite Heq.
  - unfold selects. intros Hsub.
    assert (Hp : makeLabels p "nginx-proxy" !! "page" = Some (pageName p)) by reflexivity.
    eapply lookup_weaken in Hp; [|exact Hsub]. by rewrite lookup_empty in Hp.
Qed.

Lemma service_selects_own_proxy_pods_witness :
  exists d w' svc w0',
    upsertPageNginxProxy sampleReconciler (Some blogPage) sampleSetting
      (worldOf sampleCluster noFaults) = (Returned (Some d, None), w')
    /\ upsertNginxProxyService sampleReconciler (Some blogPage)
         (worldOf sampleCluster noFaults) = (Returned (Some svc, None), w0')
    /\ svcSelector (serviceSpec svc) = templateLabels (depTemplate (deploymentSpec d))
    /\ svcSelector (serviceSpec svc) !! "page" = Some "blog"
    /\ ~ selects (svcSelector (serviceSpec svc)) (makeLabels docsPage "nginx-proxy").
Proof.
  destruct (upsertPageNginxProxy sampleReconciler (Some blogPage) sampleSetting
              (worldOf sampleCluster noFaults)) as [[[[d|] [e|]]|?] w'] eqn:Hd;
    try (vm_compute in Hd; discriminate Hd).
  destruct (upsertNginxProxyService sampleReconciler (Some blogPage)
              (worldOf sampleCluster noFaults)) as [[[[svc|] [e|]]|?] w0'] eqn:Hsvc;
    try (vm_compute in Hsvc; discriminate Hsvc).
  exists d, w', svc, w0'. split; [reflexivity|]. split; [reflexivity|].
  destruct (service_selects_own_proxy_pods sampleReconciler blogPage sampleSetting
              (worldOf sampleCluster noFaults) d w' (worldOf sampleCluster noFaults)
              svc w0' Hd Hsvc) as (Heq & Hsel & Hother & _).
  split; [exact Heq|]. split; [by rewrite Hsel|].
  intros Hsub. apply Hother in Hsub. discriminate Hsub.
Defined.

(** ** Idempotence (claim C8) *)

Section Again.

Context {T : Type} `{ObjectLaws T}.
Variables (key : NamespacedName) (build : T -> T).
Variables (onGetFailure : option error -> option error).
Variables (createMsg updateMsg : string).
Hypothesis build_key : forall o, keyOf (getMeta (build o)) = key.
Hypothesis build_again : forall o, build (build o) = build o.

Lemma store_same (obj : T) (c : Cluster) :
  table c !! key = Some obj ->
  setTable (<[key := obj]> (table c)) c = c.
Proof. intros Hl. by rewrite insert_id, setTable_table. Qed.

(** A second run over the store a successful run has left. *)
Lemma getThenWrite_again (w : World) (obj : T) (w1 w1' : World) :
  getThenWrite key build onGetFailure createMsg updateMsg w
    = (Returned (Some obj, None), w1) ->
  cluster w1' = cluster w1 ->
  let run2 := getThenWrite key build onGetFailure createMsg updateMsg w1' in
  cluster (snd run2) = cluster w1
  /\ table (cluster (snd run2)) !! key = Some obj
  /\ (forall obj2, fst run2 = Returned (Some obj2, None) -> obj2 = obj)
  /\ ((forall n c, faults w1' n c = None) -> fst run2 = Returned (Some obj, None)).
Proof.
  intros Hrun Hsame.
  apply (getThenWrite_returns key build onGetFailure createMsg updateMsg build_key)
    in Hrun as [Hobj Hstored].
  assert (Hobj' : build obj = obj) by (rewrite Hobj; apply build_again).
  cbn zeta. rewrite getThenWrite_unfold. cbn zeta.
  unfold readOf, createError, afterUpdate, updateError.
  cbn [cluster faults calls recordCall stored withCluster].
  assert (Hst' : table (cluster w1') !! key = Some obj) by by rewrite Hsame.
  assert (Hkey_obj : keyOf (getMeta obj) = key) by (rewrite <- Hobj'; apply build_key).
  rewrite !build_key, Hst'.
  destruct (faults w1' (length (calls w1')) (GetCall kindOf key)) as [e|] eqn:Hget;
    cbn [fst snd].
  - destruct (IsNotFound (Some e)).
    + destruct (faults w1' _ (CreateCall _ _)) as [e'|];
        cbn [fst snd cluster recordCall];
        (split_and!;
         [ exact Hsame | exact Hst' | intros obj2 Heq; by simplify_eq
         | intros Hnone; by rewrite Hnone in Hget ]).
    + cbn [fst snd cluster recordCall].
      split_and!;
        [ exact Hsame | exact Hst' | intros obj2 Heq; by simplify_eq
        | intros Hnone; by rewrite Hnone in Hget ].
  - rewrite Hobj'.
    destruct (faults w1' _ (UpdateCall _ _)) as [e'|] eqn:Hupd;
      cbn [fst snd cluster recordCall stored withCluster].
    + split_and!;
        [ exact Hsame | exact Hst' | intros obj2 Heq; by simplify_eq
        | intros Hnone; by rewrite Hnone in Hupd ].
    + rewrite Hkey_obj, store_same by done.
      split_and!;
        [ exact Hsame | exact Hst' | intros obj2 Heq; by simplify_eq | done ].
Qed.

End Again.

Ltac transfer_again Hkey Hagain tag :=
  match goal with
  | Hrun : context [getThenWrite ?key ?build ?h ?cm ?um ?w] |- _ =>
      destruct (getThenWrite key build h cm um w) as [[[[o1|] [e1|]]|?] w1x] eqn:Hfirst;
      cbn [tagged fst snd fmap option_fmap option_map] in Hrun; try discriminate Hrun;
      injection Hrun as <- <-;
      match goal with
      | Hsame : cluster ?w1' = _ |- _ =>
          destruct (getThenWrite_again key build h cm um Hkey Hagain w o1 w1x w1'
                      Hfirst Hsame) as (Hcl & Hst & Huniq & Hok);
          destruct (getThenWrite key build h cm um w1') as [[[o2 e2]|?] w2];
          cbn [fst snd] in *;
          (split_and!;
           [ exact Hcl
           | cbn [childAt]; change (tag <$> table (cluster w2) !! key = Some (tag o1));
             by rewrite Hst
           | intros obj2 Hout;
             first
               [ discriminate Hout
               | destruct o2 as [o2|]; cbn [tagged fst snd fmap option_fmap option_map] in Hout;
                 [|discriminate Hout];
                 injection Hout as <- ->; by rewrite (Huniq o2 eq_refl) ]
           | intros Hnone; specialize (Hok Hnone); by simplify_eq ])
      end
  end.

(** C8: each of the five upserts is idempotent.  When an upsert has
    returned a resource, calling it again with the same site and settings
    over the store it has left (whatever the API does this time) leaves the
    store exactly as it was, with that resource stored; if the second call
    returns a resource it is the very same one, labels, specification and
    all; and when the API does not fail the second call does return it. *)
Theorem upsert_idempotent c r p s w obj w1 w1' :
  upsertChild c r (Some p) s w = (Returned (Some obj, None), w1) ->
  cluster w1' = cluster w1 ->
  let run2 := upsertChild c r (Some p) s w1' in
  cluster (snd run2) = cluster w1
  /\ childAt c p (cluster (snd run2)) = Some obj
  /\ (forall obj2, fst run2 = Returned (Some obj2, None) -> obj2 = obj)
  /\ ((forall n call, faults w1' n call = None) -> fst run2 = Returned (Some obj, None)).
Proof.
  intros Hrun Hsame. cbn zeta.
  destruct c; unfold upsertChild in *; rewrite bind_tagged in *.
  - rewrite upsertPageBuilderCronJob_shape in *.
    transfer_again (builderCronJobFor_key r p s) (builderCronJobFor_again r p s) ChildCronJob.
  - rewrite upsertConfigMap_shape in *.
    transfer_again (configMapFor_key r p s nginxConfNodes)
      (configMapFor_again r p s nginxConfNodes) ChildConfigMap.
  - rewrite upsertPageNginxProxy_shape in *.
    transfer_again (deploymentFor_key r p s) (deploymentFor_again r p s) ChildDeployment.
  - rewrite upsertNginxProxyService_shape in *.
    transfer_again (serviceFor_key r p) (serviceFor_again r p) ChildService.
  - rewrite upsertPageIngress_shape in *.
    transfer_again (ingressFor_key r p s) (ingressFor_again r p s) ChildIngress.
Qed.

Lemma upsert_idempotent_witness :
  exists obj w1,
    upsertChild ScheduledJob sampleReconciler (Some blogPage) sampleSetting
      (worldOf sampleCluster noFaults) = (Returned (Some obj, None), w1)
    /\ cluster (snd (upsertChild ScheduledJob sampleReconciler (Some blogPage)
                       sampleSetting w1)) = cluster w1
    /\ childAt ScheduledJob blogPage
         (cluster (snd (upsertChild ScheduledJob sampleReconciler (Some blogPage)
                          sampleSetting w1))) = Some obj
    /\ fst (upsertChild ScheduledJob sampleReconciler (Some blogPage) sampleSetting w1)
       = Returned (Some obj, None).
Proof.
  destruct (upsertChild ScheduledJob sampleReconciler (Some blogPage) sampleSetting
              (worldOf sampleCluster noFaults)) as [[[[obj|] [e|]]|?] w1] eqn:Hrun;
    try (vm_compute in Hrun; discriminate Hrun).
  exists obj, w1. split; [reflexivity|].
  destruct (upsert_idempotent ScheduledJob sampleReconciler blogPage sampleSetting
              (worldOf sampleCluster noFaults) obj w1 w1 Hrun eq_refl)
    as (Hcl & Hst & _ & Hok).
  split; [exact Hcl|]. split; [exact Hst|].
  apply Hok. intros n call.
  destruct (upsertChild_paths ScheduledJob sampleReconciler blogPage sampleSetting
              (worldOf sampleCluster noFaults)) as (_ & _ & _ & Hf & _).
  rewrite Hrun in Hf. cbn [snd] in Hf. by rewrite Hf.
Defined.

(** ** Ownership (claim C9) *)

Lemma ownedBy_reference gvk p m :
  metaOwnerReferences m = [ownerReferenceTo gvk p] ->
  ownedBy (metaUID (pageMeta p)) m = true.
Proof.
  intros Hrefs. unfold ownedBy. rewrite Hrefs. cbn.
  by rewrite bool_decide_eq_true_2.
Qed.

(** The garbage collector removes what carries a reference to the owner. *)
Lemma collect_owned {T} `{Object T} uid (t : gmap NamespacedName T) key o :
  t !! key = Some o ->
  ownedBy uid (getMeta o) = true ->
  collect uid t !! key = None.
Proof.
  intros Hl Hown. unfold collect. apply map_lookup_filter_None. right.
  intros o' Hl'. cbn. rewrite Hl in Hl'. injection Hl' as <-. by rewrite Hown.
Qed.

Lemma deleteSite_removes c p cl obj gvk :
  childAt c p cl = Some obj ->
  metaOwnerReferences (childMeta obj) = [ownerReferenceTo gvk p] ->
  childAt c p (deleteSite p cl) = None.
Proof.
  intros Hat Hrefs. apply (ownedBy_reference gvk p) in Hrefs.
  destruct c; cbn [childAt] in *;
    match type of Hat with
    | ?tag <$> ?t !! ?k = _ =>
        destruct (t !! k) as [o|] eqn:Hl; [|discriminate Hat];
        injection Hat as <-;
        change (tag <$> collect (metaUID (pageMeta p)) t !! k = None);
        by rewrite (collect_owned _ _ _ o Hl Hrefs)
    end.
Qed.

(** Every object the upserts build carries exactly the reference to its
    site, provided the scheme knows the kind of the site. *)
Lemma desiredChild_owner c r p s w gvk :
  scheme r !! "HugoPage" = Some gvk ->
  metaOwnerReferences (childMeta (desiredChild c r p s w)) = [ownerReferenceTo gvk p].
Proof.
  intros Hsch.
  destruct c; cbn [desiredChild childMeta];
    cbv beta delta [builderCronJobFor configMapFor deploymentFor serviceFor
                    ingressFor SetControllerReference] zeta;
    cbn [fst snd]; rewrite getMeta_setMeta;
    try (destruct (Enable (TLS (settingSpec s))));
    by erewrite setControllerMeta_fresh.
Qed.

(** C9: when the scheme of the reconciler knows the kind of the site (as
    the scheme built in [main] does), every create and every update that any
    of the five upserts issues is for an object that already carries the
    owner reference to that site: its name, its UID and its kind, marked as
    controller.  The resource a successful upsert returns is stored with that
    reference, and removing the site with cascading deletion removes it. *)
Theorem children_carry_owner_reference c r p s w gvk :
  scheme r !! "HugoPage" = Some gvk ->
  let run := upsertChild c r (Some p) s w in
  let ref :=
    {| refAPIVersion := groupVersion gvk; refKind := gvkKind gvk;
       refName := pageName p; refUID := metaUID (pageMeta p);
       refController := Some true; refBlockOwnerDeletion := Some true |} in
  (forall call m, call ∈ issued w (snd run) -> callMeta call = Some m ->
                  metaOwnerReferences m = [ref])
  /\ (forall obj, fst run = Returned (Some obj, None) ->
        metaOwnerReferences (childMeta obj) = [ref]
        /\ childAt c p (cluster (snd run)) = Some obj
        /\ childAt c p (deleteSite p (cluster (snd run))) = None).
Proof.
  intros Hsch. cbn zeta.
  pose proof (desiredChild_owner c r p s w gvk Hsch) as Hown.
  destruct (upsertChild_paths c r p s w) as (path & Hout & Hcalls & _ & _ & _ & Hcl).
  rewrite (issued_app _ _ _ Hcalls). split.
  - intros call m Hin Hmeta.
    destruct path; cbn [pathCalls] in Hin;
      repeat (apply elem_of_cons in Hin as [->|Hin]);
      try (by apply elem_of_nil in Hin);
      cbn in Hmeta; try discriminate Hmeta; by injection Hmeta as <-.
  - intros obj Hobj. rewrite Hout in Hobj.
    destruct path; cbn [succeeded] in Hobj; try discriminate Hobj;
      injection Hobj as <-; cbn [wrote] in Hcl;
      (split; [exact Hown|]); (split; [exact Hcl|]);
      by eapply deleteSite_removes.
Qed.

Lemma children_carry_owner_reference_witness :
  scheme sampleReconciler !! "HugoPage" = Some hugoPageGVK
  /\ exists obj,
      fst (upsertChild Route sampleReconciler (Some blogPage) sampleSetting
             (worldOf sampleCluster noFaults)) = Returned (Some obj, None)
      /\ metaOwnerReferences (childMeta obj)
         = [ {| refAPIVersion := "hugo-hoster.cedi.dev/v1alpha1"; refKind := "HugoPage";
                refName := "blog"; refUID := "4f1c-blog";
                refController := Some true; refBlockOwnerDeletion := Some true |} ]
      /\ childAt Route blogPage
           (deleteSite blogPage
              (cluster (snd (upsertChild Route sampleReconciler (Some blogPage)
                               sampleSetting (worldOf sampleCluster noFaults))))) = None.
Proof.
  split; [reflexivity|].
  destruct (children_carry_owner_reference Route sampleReconciler blogPage sampleSetting
              (worldOf sampleCluster noFaults) hugoPageGVK eq_refl) as [_ Hret].
  destruct (fst (upsertChild Route sampleReconciler (Some blogPage) sampleSetting
                   (worldOf sampleCluster noFaults))) as [[[obj|] [e|]]|?] eqn:Hrun;
    try (vm_compute in Hrun; discriminate Hrun).
  exists obj. split; [reflexivity|].
  destruct (Hret obj eq_refl) as (Hrefs & _ & Hgone).
  split; [exact Hrefs | exact Hgone].
Defined.

(** * Further properties of the controller *)

(** ** What an upsert does to the store *)

Section Store.

Context {T : Type} `{ObjectLaws T}.
Variables (key : NamespacedName) (build : T -> T).
Variables (onGetFailure : option error -> option error).
Variables (createMsg updateMsg : string).
Hypothesis build_key : forall o, keyOf (getMeta (build o)) = key.

(** Whatever the API does, the store is afterwards either as it was or has
    the built object at the key; a run that returns a resource has stored
    it. *)
Lemma getThenWrite_store (w : World) :
  let run := getThenWrite key build onGetFailure createMsg updateMsg w in
  let obj := build (fst (readOf w key)) in
  (cluster (snd run) = cluster w
   \/ cluster (snd run) = setTable (<[key := obj]> (table (cluster w))) (cluster w))
  /\ (forall o, fst run = Returned (Some o, None) ->
        o = obj
        /\ cluster (snd run) = setTable (<[key := obj]> (table (cluster w))) (cluster w))
  /\ (exists out, fst run = Returned out).
Proof.
  cbn zeta.
  destruct (getThenWrite_paths key build onGetFailure createMsg updateMsg build_key w)
    as (path & Hout & _ & _ & _ & _ & Hcl).
  rewrite Hout. split_and!.
  - destruct (wrote path); [by right | by left].
  - intros o Ho. destruct path; cbn in Ho, Hcl; by simplify_eq.
  - by eexists.
Qed.

(** A run that returns a resource over a store that already holds one at
    the key has read that one. *)
Lemma getThenWrite_reads_existing (w : World) (old obj : T) (w' : World) :
  table (cluster w) !! key = Some old ->
  getThenWrite key build onGetFailure createMsg updateMsg w
    = (Returned (Some obj, None), w') ->
  obj = build old.
Proof.
  intros Hold. rewrite getThenWrite_unfold. cbn zeta.
  unfold readOf, createError, afterUpdate, updateError.
  cbn [cluster faults calls recordCall stored withCluster].
  rewrite !build_key, Hold.
  destruct (faults w (length (calls w)) (GetCall kindOf key)) as [e|]; cbn [fst snd].
  - destruct (IsNotFound (Some e)); [|intros Heq; by simplify_eq].
    destruct (faults w _ (CreateCall _ _)); intros Heq; by simplify_eq.
  - destruct (faults w _ (UpdateCall _ _)); intros Heq; by simplify_eq.
Qed.

(** When the API does not fail, the upsert succeeds: it returns the built
    object and has stored it. *)
Lemma getThenWrite_fault_free (w : World) :
  faultFree w ->
  let run := getThenWrite key build onGetFailure createMsg updateMsg w in
  let obj := build (fst (readOf w key)) in
  fst run = Returned (Some obj, None)
  /\ cluster (snd run) = setTable (<[key := obj]> (table (cluster w))) (cluster w)
  /\ faultFree (snd run).
Proof.
  intros Hff. cbn zeta.
  assert (Hfaults : faultFree
            (snd (getThenWrite key build onGetFailure createMsg updateMsg w))).
  { destruct (getThenWrite_paths key build onGetFailure createMsg updateMsg build_key w)
      as (_ & _ & _ & Hf & _).
    intros n call. rewrite Hf. apply Hff. }
  revert Hfaults. rewrite getThenWrite_unfold. cbn zeta.
  unfold readOf, createError, afterUpdate, updateError.
  cbn [cluster faults calls recordCall stored withCluster].
  rewrite !Hff, !build_key.
  destruct (table (cluster w) !! key) as [o|] eqn:Hl; cbn [fst snd].
  - intros Hf. split_and!; [done| |done].
    unfold stored. cbn [cluster withCluster recordCall]. by rewrite build_key.
  - change (IsNotFound (Some notFound)) with true. cbn iota.
    rewrite ?Hl, ?table_setTable, ?lookup_insert_eq.
    intros Hf. split_and!; [done| |done].
    unfold stored. cbn [cluster withCluster recordCall].
    by rewrite build_key, table_setTable, insert_insert_eq, setTable_setTable.
Qed.

End Store.

Ltac transfer_store Hkey :=
  match goal with
  | |- context [getThenWrite ?key ?build ?h ?cm ?um ?w] =>
      let Hor := fresh "Hor" in
      let Hret := fresh "Hret" in
      destruct (getThenWrite_store key build h cm um Hkey w) as (Hor & Hret & _);
      cbn zeta in Hor, Hret;
      destruct (getThenWrite key build h cm um w) as [[[o1 e1]|?] w1x];
      cbn [fst snd] in *; cbn [putChild desiredChild]; rewrite Hkey;
      (split;
       [ exact Hor
       | intros o Ho;
         first
           [ discriminate Ho
           | destruct o1 as [o1|]; cbn [tagged fst snd fmap option_fmap option_map] in Ho;
             [|discriminate Ho];
             injection Ho as <- ->;
             destruct (Hret o1 eq_refl) as [-> Hcl]; by split ] ])
  end.

(** The store after an upsert, for the five kinds. *)
Lemma upsertChild_store c r p s w :
  let run := upsertChild c r (Some p) s w in
  let obj := desiredChild c r p s w in
  (cluster (snd run) = cluster w \/ cluster (snd run) = putChild obj (cluster w))
  /\ (forall o, fst run = Returned (Some o, None) ->
        o = obj /\ cluster (snd run) = putChild obj (cluster w)).
Proof.
  cbn zeta. destruct c; unfold upsertChild; rewrite bind_tagged.
  - rewrite upsertPageBuilderCronJob_shape.
    transfer_store (builderCronJobFor_key r p s).
  - rewrite upsertConfigMap_shape.
    transfer_store (configMapFor_key r p s nginxConfNodes).
  - rewrite upsertPageNginxProxy_shape.
    transfer_store (deploymentFor_key r p s).
  - rewrite upsertNginxProxyService_shape.
    transfer_store (serviceFor_key r p).
  - rewrite upsertPageIngress_shape.
    transfer_store (ingressFor_key r p s).
Qed.

Ltac transfer_fault_free Hkey Hff :=
  match goal with
  | |- context [getThenWrite ?key ?build ?h ?cm ?um ?w] =>
      destruct (getThenWrite_fault_free key build h cm um Hkey w Hff)
        as (Hout & Hcl & Hff');
      destruct (getThenWrite key build h cm um w) as [out w1x];
      cbn [fst snd] in *; subst out; cbn [putChild desiredChild]; rewrite Hkey;
      by split_and!
  end.

Lemma upsertChild_fault_free c r p s w :
  faultFree w ->
  let run := upsertChild c r (Some p) s w in
  let obj := desiredChild c r p s w in
  fst run = Returned (Some obj, None)
  /\ cluster (snd run) = putChild obj (cluster w)
  /\ faultFree (snd run).
Proof.
  intros Hff. cbn zeta. destruct c; unfold upsertChild; rewrite bind_tagged.
  - rewrite upsertPageBuilderCronJob_shape.
    transfer_fault_free (builderCronJobFor_key r p s) Hff.
  - rewrite upsertConfigMap_shape.
    transfer_fault_free (configMapFor_key r p s nginxConfNodes) Hff.
  - rewrite upsertPageNginxProxy_shape.
    transfer_fault_free (deploymentFor_key r p s) Hff.
  - rewrite upsertNginxProxyService_shape.
    transfer_fault_free (serviceFor_key r p) Hff.
  - rewrite upsertPageIngress_shape.
    transfer_fault_free (ingressFor_key r p s) Hff.
Qed.

Ltac transfer_existing Hkey :=
  match goal with
  | Hrun : context [getThenWrite ?key ?build ?h ?cm ?um ?w], Hat : _ <$> ?t !! ?k = Some _ |- _ =>
      destruct (t !! k) as [old0|] eqn:Hold; [|discriminate Hat];
      injection Hat as <-;
      destruct (getThenWrite key build h cm um w) as [[[[o1|] [e1|]]|?] w1x] eqn:Hfirst;
      cbn [tagged fst snd fmap option_fmap option_map] in Hrun; try discriminate Hrun;
      injection Hrun as <- <-;
      rewrite (getThenWrite_reads_existing key build h cm um Hkey w old0 o1 w1x Hold Hfirst)
  end.

(** What a successful upsert over an existing resource keeps of it. *)
Lemma upsertChild_keeps_residue c r p s w old obj w' :
  childAt c p (cluster w) = Some old ->
  upsertChild c r (Some p) s w = (Returned (Some obj, None), w') ->
  sameResidue old obj.
Proof.
  intros Hat Hrun.
  destruct c; unfold upsertChild in Hrun; rewrite bind_tagged in Hrun; cbn [childAt] in Hat.
  - rewrite upsertPageBuilderCronJob_shape in Hrun.
    transfer_existing (builderCronJobFor_key r p s). reflexivity.
  - rewrite upsertConfigMap_shape in Hrun.
    transfer_existing (configMapFor_key r p s nginxConfNodes). by split.
  - rewrite upsertPageNginxProxy_shape in Hrun.
    transfer_existing (deploymentFor_key r p s). reflexivity.
  - rewrite upsertNginxProxyService_shape in Hrun.
    transfer_existing (serviceFor_key r p). reflexivity.
  - rewrite upsertPageIngress_shape in Hrun.
    transfer_existing (ingressFor_key r p s).
    unfold ingressFor. by destruct (Enable (TLS (settingSpec s))).
Qed.

(** ** The frame of an upsert *)

Lemma putChild_sources o cl :
  hugoPages (putChild o cl) = hugoPages cl /\ settings (putChild o cl) = settings cl.
Proof. by destruct o. Qed.

Lemma childKey_desired c r p s w0 :
  keyOf (childMeta (desiredChild c r p s w0)) = childKey c p.
Proof.
  destruct c; cbn [desiredChild childMeta].
  - apply builderCronJobFor_key.
  - apply configMapFor_key.
  - apply deploymentFor_key.
  - apply serviceFor_key.
  - apply ingressFor_key.
Qed.

Lemma lookup_stored_ne {T} `{ObjectLaws T} (o : T) (k : NamespacedName) (cl : Cluster) :
  keyOf (getMeta o) <> k ->
  table (setTable (<[keyOf (getMeta o) := o]> (table cl)) cl) !! k = table cl !! k.
Proof. intros Hne. by rewrite table_setTable, lookup_insert_ne. Qed.

Lemma lookup_stored_at {T} `{ObjectLaws T} (o : T) (k : NamespacedName) (cl : Cluster) :
  keyOf (getMeta o) = k ->
  table (setTable (<[keyOf (getMeta o) := o]> (table cl)) cl) !! k = Some o.
Proof. intros <-. by rewrite table_setTable, lookup_insert_eq. Qed.

Lemma childAt_resourceAt c q cl : childAt c q cl = resourceAt c (childKey c q) cl.
Proof. by destruct c. Qed.

Lemma fmap_lookup_inj {A B} (f : A -> B) (x y : option A) :
  (forall a b, f a = f b -> a = b) -> f <$> x = f <$> y -> x = y.
Proof.
  intros Hinj. destruct x, y; cbn; intros Heq; try done.
  injection Heq as Heq. by rewrite (Hinj _ _ Heq).
Qed.

(** [unchangedOutside] spelled out on the seven tables. *)
Lemma unchangedOutside_tables p cl cl' :
  unchangedOutside p cl cl' <->
  hugoPages cl' = hugoPages cl
  /\ settings cl' = settings cl
  /\ agreeExcept (childKey ScheduledJob p) (cronJobs cl) (cronJobs cl')
  /\ agreeExcept (childKey ConfigArtifact p) (configMaps cl) (configMaps cl')
  /\ agreeExcept (childKey ProxyWorkload p) (deployments cl) (deployments cl')
  /\ agreeExcept (childKey ProxyService p) (services cl) (services cl')
  /\ agreeExcept (childKey Route p) (ingresses cl) (ingresses cl').
Proof.
  split.
  - intros (Hp & Hs & Hc). split_and!; [done..| | | | |];
      intros k Hne.
    + apply (fmap_lookup_inj ChildCronJob); [congruence|]. exact (Hc ScheduledJob k Hne).
    + apply (fmap_lookup_inj ChildConfigMap); [congruence|]. exact (Hc ConfigArtifact k Hne).
    + apply (fmap_lookup_inj ChildDeployment); [congruence|]. exact (Hc ProxyWorkload k Hne).
    + apply (fmap_lookup_inj ChildService); [congruence|]. exact (Hc ProxyService k Hne).
    + apply (fmap_lookup_inj ChildIngress); [congruence|]. exact (Hc Route k Hne).
  - intros (Hp & Hs & H1 & H2 & H3 & H4 & H5). split_and!; [done..|].
    intros c k Hne. destruct c; cbn [resourceAt]; f_equal; auto.
Qed.

(** Putting a child of [p] leaves the resource at every other key, and the
    resources of every other kind, where they are. *)
Lemma resourceAt_putChild_other c r p s w0 c' k cl :
  c' <> c \/ k <> childKey c p ->
  resourceAt c' k (putChild (desiredChild c r p s w0) cl) = resourceAt c' k cl.
Proof.
  intros Hne. pose proof (childKey_desired c r p s w0) as Hkey.
  destruct c, c'; cbn [desiredChild putChild resourceAt childMeta] in *;
    try reflexivity;
    (destruct Hne as [Hne|Hne]; [done|]);
    f_equal;
    match goal with
    | |- _ (setTable (<[keyOf (getMeta ?o) := _]> _) ?c) !! ?k = _ =>
        let T := type of o in
        change (table (T := T) (setTable (<[keyOf (getMeta o) := o]> (table (T := T) c)) c)
                  !! k = table (T := T) c !! k);
        apply lookup_stored_ne
    end;
    rewrite Hkey; congruence.
Qed.

Lemma childAt_putChild_other c r p s w0 c' q cl :
  c' <> c \/ childKey c' q <> childKey c p ->
  childAt c' q (putChild (desiredChild c r p s w0) cl) = childAt c' q cl.
Proof. rewrite !childAt_resourceAt. apply resourceAt_putChild_other. Qed.

Lemma childAt_putChild_same c r p s w0 cl :
  childAt c p (putChild (desiredChild c r p s w0) cl) = Some (desiredChild c r p s w0).
Proof.
  pose proof (childKey_desired c r p s w0) as Hkey.
  destruct c; cbn [desiredChild putChild childAt childMeta] in *;
    match goal with
    | |- ?tag <$> _ = Some (?tag ?o) =>
        change (Some (tag o)) with (tag <$> Some o)
    end;
    f_equal;
    match goal with
    | |- _ (setTable (<[keyOf (getMeta ?o) := _]> _) ?c) !! ?k = _ =>
        let T := type of o in
        change (table (T := T) (setTable (<[keyOf (getMeta o) := o]> (table (T := T) c)) c)
                  !! k = Some o);
        apply lookup_stored_at
    end;
    exact Hkey.
Qed.

Lemma unchangedOutside_refl p cl : unchangedOutside p cl cl.
Proof. by split_and!. Qed.

Lemma unchangedOutside_trans p cl1 cl2 cl3 :
  unchangedOutside p cl1 cl2 -> unchangedOutside p cl2 cl3 -> unchangedOutside p cl1 cl3.
Proof.
  intros (Hp1 & Hs1 & Hc1) (Hp2 & Hs2 & Hc2). split_and!; [congruence..|].
  intros c k Hne. by rewrite Hc2, Hc1.
Qed.

Lemma unchangedOutside_putChild c r p s w0 cl :
  unchangedOutside p cl (putChild (desiredChild c r p s w0) cl).
Proof.
  destruct (putChild_sources (desiredChild c r p s w0) cl) as [Hp Hs].
  split_and!; [done..|].
  intros c' k Hne.
  assert (Hdec : c' = c \/ c' <> c) by (destruct c, c'; (by left) || (by right)).
  destruct Hdec as [->|Hc].
  - apply resourceAt_putChild_other. by right.
  - apply resourceAt_putChild_other. by left.
Qed.

(** A store that has lost a ConfigMap that is no child of any site is not
    unchanged outside the children of a site. *)
Example unchangedOutside_foreign_resource :
  ~ unchangedOutside blogPage clusterWithForeign sampleCluster.
Proof.
  intros (_ & _ & Hc).
  specialize (Hc ConfigArtifact (keyOf (getMeta foreignConfigMap))).
  assert (Hne : keyOf (getMeta foreignConfigMap) <> childKey ConfigArtifact blogPage)
    by (intros Heq; vm_compute in Heq; discriminate Heq).
  specialize (Hc Hne). vm_compute in Hc. discriminate Hc.
Qed.

(** X1: whatever the API does, an upsert changes nothing in the store but
    the one resource of its kind stored under the namespace and name it
    derives from the site: the sites, the settings, every resource of the
    other four kinds and every resource of its own kind under any other key
    (a child of another site or no child at all) are as before, and the
    resource itself is either as before or the object the upsert has
    built. *)
Theorem upsert_touches_only_its_resource c r p s w :
  let cl := cluster w in
  let cl' := cluster (snd (upsertChild c r (Some p) s w)) in
  hugoPages cl' = hugoPages cl
  /\ settings cl' = settings cl
  /\ (forall c' k, c' <> c \/ k <> childKey c p ->
                   resourceAt c' k cl' = resourceAt c' k cl)
  /\ (childAt c p cl' = childAt c p cl
      \/ childAt c p cl' = Some (desiredChild c r p s w)).
Proof.
  cbn zeta. destruct (upsertChild_store c r p s w) as [[Hsame|Hput] _].
  - rewrite Hsame. split_and!; try done. by left.
  - rewrite Hput. destruct (putChild_sources (desiredChild c r p s w) (cluster w)) as [Hp Hs].
    split_and!; [done..| |].
    + intros c' k Hne. by apply resourceAt_putChild_other.
    + right. apply childAt_putChild_same.
Qed.

(** Evaluating a run on sample resources once, and keeping the equation. *)
Ltac evaluate_run t H :=
  let run := eval vm_compute in t in
  assert (H : t = run) by (vm_cast_no_check (eq_refl run)).

Ltac computed := vm_compute; reflexivity.

(** ** Names, labels and what is kept of an existing resource *)

Lemma setControllerMeta_fields p m sch :
  let m' := fst (setControllerMeta p m sch) in
  metaName m' = metaName m
  /\ metaNamespace m' = metaNamespace m
  /\ metaLabels m' = metaLabels m
  /\ metaAnnotations m' = metaAnnotations m.
Proof. unfold setControllerMeta. repeat case_match; done. Qed.

Lemma desiredChild_metadata c r p s w0 :
  let m := childMeta (desiredChild c r p s w0) in
  metaName m = childName c p
  /\ metaNamespace m = pageNamespace p
  /\ metaLabels m = makeLabels p (childComponent c)
  /\ (c <> Route -> metaAnnotations m = ∅).
Proof.
  cbn zeta.
  destruct c; cbn [desiredChild childMeta];
    cbv beta delta [builderCronJobFor configMapFor deploymentFor serviceFor
                    ingressFor SetControllerReference] zeta;
    cbn [fst snd]; rewrite getMeta_setMeta;
    match goal with
    | |- context [setControllerMeta ?p ?m ?sch] =>
        destruct (setControllerMeta_fields p m sch) as (-> & -> & -> & ->)
    end;
    try (destruct (Enable (TLS (settingSpec s)))); by split_and!.
Qed.

(** X3: the resource a successful upsert returns carries the name the
    upsert derives from the site (the site's name for the job and the route,
    nginx-proxy-conf-NAME, nginx-proxy-NAME and nginx-proxy-NAME-svc for the
    others), the namespace of the site, and exactly the labels app,
    component (builder for the job, nginx-proxy for the other four) and
    page; the four kinds other than the route carry no annotation.  Nothing
    of this depends on what the store held before. *)
Theorem child_name_and_labels c r p s w obj w' :
  upsertChild c r (Some p) s w = (Returned (Some obj, None), w') ->
  metaName (childMeta obj) = childName c p
  /\ metaNamespace (childMeta obj) = pageNamespace p
  /\ metaLabels (childMeta obj)
     = <["app" := "hugo-hoster"]>
       (<["component" := childComponent c]> (<["page" := pageName p]> ∅))
  /\ (c <> Route -> metaAnnotations (childMeta obj) = ∅).
Proof.
  intros Hrun. destruct (upsertChild_store c r p s w) as [_ Hret].
  rewrite Hrun in Hret. destruct (Hret obj eq_refl) as [-> _].
  apply desiredChild_metadata.
Qed.

Lemma child_name_and_labels_witness :
  exists obj w',
    upsertChild ScheduledJob sampleReconciler (Some blogPage) sampleSetting
      (worldOf staleCluster noFaults) = (Returned (Some obj, None), w')
    /\ metaName (childMeta obj) = "blog"
    /\ metaLabels (childMeta obj) !! "component" = Some "builder"
    /\ metaLabels (childMeta obj) !! "team" = None
    /\ metaAnnotations (childMeta obj) = ∅.
Proof.
  evaluate_run (upsertChild ScheduledJob sampleReconciler (Some blogPage) sampleSetting
                  (worldOf staleCluster noFaults)) Hrun.
  eexists _, _. split; [exact Hrun|].
  pose proof (child_name_and_labels ScheduledJob sampleReconciler blogPage sampleSetting
                _ _ _ Hrun) as (Hn & _ & Hl & Ha).
  split; [exact Hn|]. rewrite Hl. split; [computed|]. split; [computed|].
  by apply Ha.
Defined.


Ltac transfer_rebuild Hkey :=
  match goal with
  | Hrun : context [getThenWrite ?key ?build ?h ?cm ?um ?w], Hat : _ <$> ?t !! ?k = Some _ |- _ =>
      destruct (t !! k) as [old0|] eqn:Hold; [|discriminate Hat];
      injection Hat as <-;
      destruct (getThenWrite key build h cm um w) as [[[[o1|] [e1|]]|?] w1x] eqn:Hfirst;
      cbn [tagged fst snd fmap option_fmap option_map] in Hrun; try discriminate Hrun;
      injection Hrun as <- <-;
      by rewrite (getThenWrite_reads_existing key build h cm um Hkey w old0 o1 w1x Hold Hfirst)
  end.

(** A successful upsert over an existing resource returns what the builder
    makes of that resource. *)
Lemma upsertChild_rebuilds c r p s w old obj w' :
  childAt c p (cluster w) = Some old ->
  upsertChild c r (Some p) s w = (Returned (Some obj, None), w') ->
  obj = rebuild r p s old.
Proof.
  intros Hat Hrun.
  destruct c; unfold upsertChild in Hrun; rewrite bind_tagged in Hrun; cbn [childAt] in Hat.
  - rewrite upsertPageBuilderCronJob_shape in Hrun.
    transfer_rebuild (builderCronJobFor_key r p s).
  - rewrite upsertConfigMap_shape in Hrun.
    transfer_rebuild (configMapFor_key r p s nginxConfNodes).
  - rewrite upsertPageNginxProxy_shape in Hrun.
    transfer_rebuild (deploymentFor_key r p s).
  - rewrite upsertNginxProxyService_shape in Hrun.
    transfer_rebuild (serviceFor_key r p).
  - rewrite upsertPageIngress_shape in Hrun.
    transfer_rebuild (ingressFor_key r p s).
Qed.

(** The builders look at nothing of what was read but the residue. *)
Lemma rebuild_by_residue r p s old old2 :
  sameResidue old old2 -> rebuild r p s old = rebuild r p s old2.
Proof.
  destruct old, old2; cbn [sameResidue rebuild]; try done.
  - intros Hres. unfold builderCronJobFor. by rewrite Hres.
  - intros [Hb Hi]. unfold configMapFor. by rewrite Hb, Hi.
  - intros Hres. unfold deploymentFor. by rewrite Hres.
  - intros Hres. unfold serviceFor. by rewrite Hres.
  - intros Hres. unfold ingressFor. by rewrite Hres.
Qed.

(** X4: an upsert over an existing resource overwrites everything but the
    status (for a ConfigMap: but the binary data and the immutability flag).
    The resource it returns has the residue of the one that was stored, and
    two stored resources with the same residue, however different their
    metadata and specifications, lead to the very same result. *)
Theorem upsert_overwrites_all_but_residue c r p s w old obj w' w2 old2 obj2 w2' :
  childAt c p (cluster w) = Some old ->
  upsertChild c r (Some p) s w = (Returned (Some obj, None), w') ->
  childAt c p (cluster w2) = Some old2 ->
  upsertChild c r (Some p) s w2 = (Returned (Some obj2, None), w2') ->
  sameResidue old old2 ->
  sameResidue old obj /\ obj2 = obj.
Proof.
  intros Hat Hrun Hat2 Hrun2 Hres. split.
  - by eapply upsertChild_keeps_residue.
  - rewrite (upsertChild_rebuilds c r p s w old obj w' Hat Hrun).
    rewrite (upsertChild_rebuilds c r p s w2 old2 obj2 w2' Hat2 Hrun2).
    symmetry. by apply rebuild_by_residue.
Qed.

Lemma upsert_overwrites_all_but_residue_witness :
  exists obj w' obj2 w2',
    upsertChild ScheduledJob sampleReconciler (Some blogPage) sampleSetting
      (worldOf staleCluster noFaults) = (Returned (Some obj, None), w')
    /\ upsertChild ScheduledJob sampleReconciler (Some blogPage) sampleSetting
         (worldOf otherStaleCluster noFaults) = (Returned (Some obj2, None), w2')
    /\ sameResidue (ChildCronJob staleCronJob) obj
    /\ obj2 = obj.
Proof.
  evaluate_run (upsertChild ScheduledJob sampleReconciler (Some blogPage) sampleSetting
                  (worldOf staleCluster noFaults)) Hrun.
  evaluate_run (upsertChild ScheduledJob sampleReconciler (Some blogPage) sampleSetting
                  (worldOf otherStaleCluster noFaults)) Hrun2.
  eexists _, _, _, _. split; [exact Hrun|]. split; [exact Hrun2|].
  eapply (upsert_overwrites_all_but_residue ScheduledJob sampleReconciler blogPage
            sampleSetting (worldOf staleCluster noFaults) (ChildCronJob staleCronJob) _ _
            (worldOf otherStaleCluster noFaults) (ChildCronJob otherStaleCronJob));
    [computed | exact Hrun | computed | exact Hrun2 | reflexivity].
Defined.

(** ** Names do not collide *)

Lemma length_append (a b : string) :
  String.length (a +:+ b) = (String.length a + String.length b)%nat.
Proof.
  induction a as [|x a IH]; [reflexivity|].
  change (S (String.length (a +:+ b)) = S (String.length a + String.length b)).
  by rewrite IH.
Qed.

Lemma append_inj_l (pre a b : string) : pre +:+ a = pre +:+ b -> a = b.
Proof.
  induction pre as [|x pre IH]; [done|].
  change (String x (pre +:+ a) = String x (pre +:+ b) -> a = b).
  intros [= Heq]. by apply IH.
Qed.

Lemma append_inj_r (suf a b : string) : a +:+ suf = b +:+ suf -> a = b.
Proof.
  revert b. induction a as [|x a IH]; intros [|y b] Heq; [done| | |].
  - apply (f_equal String.length) in Heq. rewrite !length_append in Heq.
    cbn [String.length] in Heq. lia.
  - apply (f_equal String.length) in Heq. rewrite !length_append in Heq.
    cbn [String.length] in Heq. lia.
  - change (String x (a +:+ suf) = String y (b +:+ suf)) in Heq.
    injection Heq as -> Heq. f_equal. by apply IH.
Qed.

Lemma childName_inj c p q : childName c p = childName c q -> pageName p = pageName q.
Proof.
  destruct c; cbn [childName]; intros Heq; try done.
  - by apply append_inj_l in Heq.
  - by apply append_inj_l in Heq.
  - apply append_inj_l in Heq. by apply append_inj_r in Heq.
Qed.

(** X5: the names the upserts derive do not collide.  For each kind, two
    sites get their resource under the same namespace and name exactly when
    the sites have the same namespace and the same name. *)
Theorem childKey_injective c p q :
  childKey c p = childKey c q
  <-> (pageNamespace p = pageNamespace q /\ pageName p = pageName q).
Proof.
  unfold childKey. split.
  - intros [= Hns Hname]. split; [exact Hns|]. by eapply childName_inj.
  - intros [Hns Hname]. rewrite Hns. f_equal.
    destruct c; cbn [childName]; by rewrite Hname.
Qed.

(** ** How the children refer to each other *)

Lemma ingressFor_meta r p s o :
  metaName (ingressMeta (ingressFor r p s o)) = pageName p
  /\ metaNamespace (ingressMeta (ingressFor r p s o)) = pageNamespace p
  /\ metaAnnotations (ingressMeta (ingressFor r p s o))
     = (if Enable (TLS (settingSpec s)) then Annotations (TLS (settingSpec s)) else ∅).
Proof.
  unfold ingressFor. cbv beta delta [SetControllerReference] zeta. cbn [fst snd].
  change (ingressMeta (setMeta ?m ?x)) with m.
  match goal with
  | |- context [setControllerMeta ?p ?m ?sch] =>
      destruct (setControllerMeta_fields p m sch) as (-> & -> & _ & ->)
  end.
  destruct (Enable (TLS (settingSpec s))); cbn; [|done].
  by rewrite map_fold_insert_all.
Qed.

Lemma serviceFor_meta r p o :
  metaName (serviceMeta (serviceFor r p o)) = "nginx-proxy-" +:+ pageName p +:+ "-svc"
  /\ metaNamespace (serviceMeta (serviceFor r p o)) = pageNamespace p.
Proof.
  unfold serviceFor. cbv beta delta [SetControllerReference] zeta. cbn [fst snd].
  change (serviceMeta (setMeta ?m ?x)) with m.
  match goal with
  | |- context [setControllerMeta ?p ?m ?sch] =>
      destruct (setControllerMeta_fields p m sch) as (-> & -> & _ & _)
  end.
  done.
Qed.

Lemma configMapFor_meta r p s t o :
  metaName (configMapMeta (configMapFor r p s t o)) = "nginx-proxy-conf-" +:+ pageName p
  /\ metaNamespace (configMapMeta (configMapFor r p s t o)) = pageNamespace p.
Proof.
  unfold configMapFor. cbv beta delta [SetControllerReference] zeta. cbn [fst snd].
  change (configMapMeta (setMeta ?m ?x)) with m.
  match goal with
  | |- context [setControllerMeta ?p ?m ?sch] =>
      destruct (setControllerMeta_fields p m sch) as (-> & -> & _ & _)
  end.
  done.
Qed.

Lemma deploymentFor_meta r p s o :
  metaNamespace (deploymentMeta (deploymentFor r p s o)) = pageNamespace p.
Proof.
  unfold deploymentFor. cbv beta delta [SetControllerReference] zeta. cbn [fst snd].
  change (deploymentMeta (setMeta ?m ?x)) with m.
  match goal with
  | |- context [setControllerMeta ?p ?m ?sch] =>
      destruct (setControllerMeta_fields p m sch) as (_ & -> & _ & _)
  end.
  done.
Qed.

(** X6: the route and the service produced for a site fit together.  The
    route has one rule, for the URL of the site as host, whose single path /
    (by prefix) leads to the service by the very name the service upsert
    gives it, in the same namespace, on port 80, which is the port the
    service exposes; the ingress class is the one of the settings. *)
Theorem route_targets_service r p s w ing w' w0 svc w0' :
  upsertPageIngress r (Some p) s w = (Returned (Some ing, None), w') ->
  upsertNginxProxyService r (Some p) w0 = (Returned (Some svc, None), w0') ->
  ingRules (ingressSpec ing)
    = [ {| ruleHost := URL (pageSpec p);
           rulePaths :=
             [ {| pathPath := "/"; pathType := Some "Prefix";
                  pathServiceName := metaName (serviceMeta svc);
                  pathServicePort := 80 |} ] |} ]
  /\ map portPort (svcPorts (serviceSpec svc)) = [80]
  /\ metaNamespace (ingressMeta ing) = metaNamespace (serviceMeta svc)
  /\ ingClassName (ingressSpec ing) = Some (IngressClassName (settingSpec s)).
Proof.
  intros Hing Hsvc.
  rewrite upsertPageIngress_shape in Hing.
  apply getThenWrite_returns in Hing as [-> _]; [|apply ingressFor_key].
  rewrite upsertNginxProxyService_shape in Hsvc.
  apply getThenWrite_returns in Hsvc as [-> _]; [|apply serviceFor_key].
  destruct (serviceFor_meta r p (fst (readOf w0 (childKey ProxyService p)))) as [-> ->].
  destruct (ingressFor_meta r p s (fst (readOf w (childKey Route p)))) as (_ & -> & _).
  split_and!; try reflexivity;
    unfold ingressFor; by destruct (Enable (TLS (settingSpec s))).
Qed.

Lemma route_targets_service_witness :
  exists ing w' svc w0',
    upsertPageIngress sampleReconciler (Some blogPage) sampleSetting
      (worldOf sampleCluster noFaults) = (Returned (Some ing, None), w')
    /\ upsertNginxProxyService sampleReconciler (Some blogPage)
         (worldOf sampleCluster noFaults) = (Returned (Some svc, None), w0')
    /\ map ruleHost (ingRules (ingressSpec ing)) = ["blog.example.com"]
    /\ concat (map (fun rule => map pathServiceName (rulePaths rule))
                 (ingRules (ingressSpec ing)))
       = [metaName (serviceMeta svc)].
Proof.
  evaluate_run (upsertPageIngress sampleReconciler (Some blogPage) sampleSetting
                  (worldOf sampleCluster noFaults)) Hing.
  evaluate_run (upsertNginxProxyService sampleReconciler (Some blogPage)
                  (worldOf sampleCluster noFaults)) Hsvc.
  eexists _, _, _, _. split; [exact Hing|]. split; [exact Hsvc|].
  pose proof (route_targets_service sampleReconciler blogPage sampleSetting
                _ _ _ _ _ _ Hing Hsvc) as (Hrules & _).
  rewrite Hrules. split; reflexivity.
Defined.

(** X7: the proxy workload and the rendered configuration produced for a
    site fit together.  Every volume of the pod template is the ConfigMap by
    the name the ConfigMap upsert gives it, in the same namespace; every
    volume mount of every container names a volume of the pod, is read-only,
    and its sub-path is a file the ConfigMap holds. *)
Theorem workload_mounts_rendered_config r p s w d w' w0 cm w0' :
  upsertPageNginxProxy r (Some p) s w = (Returned (Some d, None), w') ->
  upsertConfigMap r (Some p) s w0 = (Returned (Some cm, None), w0') ->
  let pod := templateSpec (depTemplate (deploymentSpec d)) in
  map volumeConfigMap (podVolumes pod) = [metaName (configMapMeta cm)]
  /\ metaNamespace (deploymentMeta d) = metaNamespace (configMapMeta cm)
  /\ Forall (fun ctr =>
               Forall (fun m =>
                         mountName m ∈ map volumeName (podVolumes pod)
                         /\ mountReadOnly m = true
                         /\ is_Some (configMapData cm !! mountSubPath m))
                      (containerVolumeMounts ctr))
            (podContainers pod).
Proof.
  intros Hd Hcm.
  rewrite upsertPageNginxProxy_shape in Hd.
  apply getThenWrite_returns in Hd as [-> _]; [|apply deploymentFor_key].
  rewrite upsertConfigMap_shape in Hcm.
  apply getThenWrite_returns in Hcm as [-> _]; [|apply configMapFor_key].
  cbn zeta.
  destruct (configMapFor_meta r p s nginxConfNodes
              (fst (readOf w0 (childKey ConfigArtifact p)))) as [-> ->].
  rewrite deploymentFor_meta.
  split_and!; try reflexivity.
  unfold deploymentFor. cbv beta delta [SetControllerReference] zeta. cbn [fst snd].
  change (deploymentSpec (setMeta ?m ?x)) with (deploymentSpec x).
  cbn [deploymentSpec depTemplate templateSpec podContainers podVolumes
       containerVolumeMounts].
  constructor; [|constructor]. constructor; [|constructor].
  cbn [mountName mountReadOnly mountSubPath]. split_and!.
  - cbn. by apply list_elem_of_singleton.
  - reflexivity.
  - unfold configMapFor. cbv beta delta [SetControllerReference] zeta. cbn [fst snd].
    change (configMapData (setMeta ?m ?x)) with (configMapData x). cbn [configMapData].
    rewrite lookup_insert_eq. by eexists.
Qed.

Lemma workload_mounts_rendered_config_witness :
  exists d w' cm w0',
    upsertPageNginxProxy sampleReconciler (Some blogPage) sampleSetting
      (worldOf sampleCluster noFaults) = (Returned (Some d, None), w')
    /\ upsertConfigMap sampleReconciler (Some blogPage) sampleSetting
         (worldOf sampleCluster noFaults) = (Returned (Some cm, None), w0')
    /\ map volumeConfigMap (podVolumes (templateSpec (depTemplate (deploymentSpec d))))
       = [metaName (configMapMeta cm)]
    /\ metaName (configMapMeta cm) = "nginx-proxy-conf-blog".
Proof.
  evaluate_run (upsertPageNginxProxy sampleReconciler (Some blogPage) sampleSetting
                  (worldOf sampleCluster noFaults)) Hd.
  evaluate_run (upsertConfigMap sampleReconciler (Some blogPage) sampleSetting
                  (worldOf sampleCluster noFaults)) Hcm.
  eexists _, _, _, _. split; [exact Hd|]. split; [exact Hcm|].
  pose proof (workload_mounts_rendered_config sampleReconciler blogPage sampleSetting
                _ _ _ _ _ _ Hd Hcm) as (Hvol & _).
  split; [exact Hvol | reflexivity].
Defined.

(** X8: the proxy workload is consistent in itself and with the service.
    Its selector is the label set of its own pod template, its replica count
    is the one of the settings, and every port of the service produced for
    the site targets a port that a container of the pod template opens. *)
Theorem workload_selector_replicas_ports r p s w d w' w0 svc w0' :
  upsertPageNginxProxy r (Some p) s w = (Returned (Some d, None), w') ->
  upsertNginxProxyService r (Some p) w0 = (Returned (Some svc, None), w0') ->
  depSelector (deploymentSpec d) = Some (templateLabels (depTemplate (deploymentSpec d)))
  /\ depReplicas (deploymentSpec d) = Some (NginxProxyReplica (settingSpec s))
  /\ Forall (fun port =>
               Exists (fun ctr => portTargetPort port ∈ containerPorts ctr)
                      (podContainers (templateSpec (depTemplate (deploymentSpec d)))))
            (svcPorts (serviceSpec svc)).
Proof.
  intros Hd Hsvc.
  rewrite upsertPageNginxProxy_shape in Hd.
  apply getThenWrite_returns in Hd as [-> _]; [|apply deploymentFor_key].
  rewrite upsertNginxProxyService_shape in Hsvc.
  apply getThenWrite_returns in Hsvc as [-> _]; [|apply serviceFor_key].
  split_and!; try reflexivity.
  unfold serviceFor, deploymentFor. cbv beta delta [SetControllerReference] zeta.
  cbn [fst snd].
  change (serviceSpec (setMeta ?m ?x)) with (serviceSpec x).
  change (deploymentSpec (setMeta ?m ?x)) with (deploymentSpec x).
  cbn [serviceSpec svcPorts deploymentSpec depTemplate templateSpec podContainers].
  constructor; [|constructor]. constructor.
  cbn [portTargetPort containerPorts]. by apply list_elem_of_singleton.
Qed.

Lemma workload_selector_replicas_ports_witness :
  exists d w' svc w0',
    upsertPageNginxProxy sampleReconciler (Some blogPage) plainSetting
      (worldOf sampleCluster noFaults) = (Returned (Some d, None), w')
    /\ upsertNginxProxyService sampleReconciler (Some blogPage)
         (worldOf sampleCluster noFaults) = (Returned (Some svc, None), w0')
    /\ depReplicas (deploymentSpec d) = Some 3
    /\ depSelector (deploymentSpec d)
       = Some (templateLabels (depTemplate (deploymentSpec d))).
Proof.
  evaluate_run (upsertPageNginxProxy sampleReconciler (Some blogPage) plainSetting
                  (worldOf sampleCluster noFaults)) Hd.
  evaluate_run (upsertNginxProxyService sampleReconciler (Some blogPage)
                  (worldOf sampleCluster noFaults)) Hsvc.
  eexists _, _, _, _. split; [exact Hd|]. split; [exact Hsvc|].
  pose proof (workload_selector_replicas_ports sampleReconciler blogPage plainSetting
                _ _ _ _ _ _ Hd Hsvc) as (Hsel & Hrep & _).
  split; [exact Hrep | exact Hsel].
Defined.

(** X9: the TLS flag of the settings is a switch for both the TLS block and
    the annotations of the route.  With the flag off, the route has no TLS
    block and no annotation at all, even when the settings carry TLS
    annotations; with the flag on, its annotations are exactly the TLS
    annotations of the settings and it has exactly one TLS block. *)
Theorem route_tls_switch r p s w ing w' :
  upsertPageIngress r (Some p) s w = (Returned (Some ing, None), w') ->
  metaAnnotations (ingressMeta ing)
    = (if Enable (TLS (settingSpec s)) then Annotations (TLS (settingSpec s)) else ∅)
  /\ length (ingTLS (ingressSpec ing))
     = (if Enable (TLS (settingSpec s)) then 1%nat else 0%nat)
  /\ Forall (fun tls => tlsHosts tls = [URL (pageSpec p)]) (ingTLS (ingressSpec ing)).
Proof.
  intros Hing. rewrite upsertPageIngress_shape in Hing.
  apply getThenWrite_returns in Hing as [-> _]; [|apply ingressFor_key].
  destruct (ingressFor_meta r p s (fst (readOf w (childKey Route p)))) as (_ & _ & ->).
  split; [reflexivity|].
  unfold ingressFor. destruct (Enable (TLS (settingSpec s))); cbn; split; try done.
  by repeat constructor.
Qed.

Lemma route_tls_switch_witness :
  exists ing w',
    upsertPageIngress sampleReconciler (Some blogPage) plainSetting
      (worldOf sampleCluster noFaults) = (Returned (Some ing, None), w')
    /\ Annotations (TLS (settingSpec plainSetting)) !! "cert-manager.io/cluster-issuer"
       = Some "letsencrypt"
    /\ metaAnnotations (ingressMeta ing) = ∅
    /\ ingTLS (ingressSpec ing) = [].
Proof.
  evaluate_run (upsertPageIngress sampleReconciler (Some blogPage) plainSetting
                  (worldOf sampleCluster noFaults)) Hing.
  eexists _, _. split; [exact Hing|]. split; [computed|].
  pose proof (route_tls_switch sampleReconciler blogPage plainSetting _ _ _ Hing)
    as (Hann & _).
  split; [exact Hann | reflexivity].
Defined.

(** ** What a pass leaves alone *)

Lemma upsertChild_frame c r p s w :
  unchangedOutside p (cluster w) (cluster (snd (upsertChild c r (Some p) s w))).
Proof.
  destruct (upsertChild_store c r p s w) as [[-> | ->] _].
  - apply unchangedOutside_refl.
  - apply unchangedOutside_putChild.
Qed.

Lemma upsertInOrder_frame r p s kinds : forall w,
  exists failed w',
    upsertInOrder r (Some p) s kinds w = (Returned failed, w')
    /\ unchangedOutside p (cluster w) (cluster w').
Proof.
  induction kinds as [|c rest IH]; intros w.
  - exists None, w. split; [reflexivity | apply unchangedOutside_refl].
  - pose proof (upsertChild_frame c r p s w) as Hframe.
    destruct (upsertChild_paths c r p s w) as (path & Hout & _).
    cbn [upsertInOrder]. unfold bind at 1.
    destruct (upsertChild c r (Some p) s w) as [out w1].
    cbn [fst snd] in Hout, Hframe. subst out. cbn [snd].
    destruct (pathError _ _ _ path) as [e|].
    + by exists (Some (c, e)), w1.
    + destruct (IH w1) as (failed & w' & Hrun & Hframe').
      exists failed, w'. split; [exact Hrun|].
      by eapply unchangedOutside_trans.
Qed.

Lemma reconcileResult_cluster failed w :
  cluster (snd (reconcileResult failed w)) = cluster w.
Proof. by destruct failed as [[c e]|]. Qed.

Lemma readOf_found {T} `{Object T} (w : World) (k : NamespacedName) :
  snd (readOf (T := T) w k) = None ->
  table (cluster w) !! k = Some (fst (readOf (T := T) w k)).
Proof.
  unfold readOf. destruct (faults w _ _); [done|].
  by destruct (table (cluster w) !! k).
Qed.

(** A pass changes the store only through the upserts for the page it has
    read; without a page it changes nothing. *)
Lemma Reconcile_frame r req w :
  let cl' := cluster (snd (Reconcile r req w)) in
  (forall p, hugoPages (cluster w) !! req = Some p -> unchangedOutside p (cluster w) cl')
  /\ (hugoPages (cluster w) !! req = None -> cl' = cluster w).
Proof.
  cbn zeta.
  destruct (Reconcile_until_settings r req w) as (w1 & Hc & _ & _ & ->).
  rewrite reconcileWithSettings_run. cbn zeta.
  destruct (readOf w1 _) as [s [e|]].
  { rewrite RecordPanic_run. cbn [fst snd logLine cluster recordCall]. rewrite Hc.
    split; [intros; apply unchangedOutside_refl | done]. }
  destruct (snd (readOf (T := HugoPage) w req)) as [e|] eqn:Hread.
  { rewrite reconcileChildren_nil_page. cbn [snd cluster recordCall]. rewrite Hc.
    split; [intros; apply unchangedOutside_refl | done]. }
  apply readOf_found in Hread.
  change (table (cluster w)) with (hugoPages (cluster w)) in Hread.
  rewrite reconcileChildren_in_order. unfold bind at 1.
  destruct (upsertInOrder_frame r (fst (readOf (T := HugoPage) w req)) s upsertOrder
              (recordCall (GetCall KSetting
                             {| Namespace := Namespace req; Name := settingName r |}) w1))
    as (failed & w' & -> & Hframe).
  rewrite reconcileResult_cluster. cbn [cluster recordCall] in Hframe. rewrite Hc in Hframe.
  split.
  - intros p Hp. rewrite Hp in Hread. by injection Hread as ->.
  - intros Hnone. by rewrite Hnone in Hread.
Qed.

(** X2: a pass of [Reconcile], however it ends and whatever the API does,
    never changes a site or a setting, and in the five tables of child
    resources it changes nothing under any key but those of the five
    children of the site it was asked about, whether the key is that of
    another site's child or of a resource that is no child of any site;
    when that site is not in the store it changes nothing at all. *)
Theorem Reconcile_touches_only_children r req w :
  let cl := cluster w in
  let cl' := cluster (snd (Reconcile r req w)) in
  hugoPages cl' = hugoPages cl
  /\ settings cl' = settings cl
  /\ (forall p c k, hugoPages cl !! req = Some p ->
                    k <> childKey c p -> resourceAt c k cl' = resourceAt c k cl)
  /\ (hugoPages cl !! req = None -> cl' = cl).
Proof.
  cbn zeta. destruct (Reconcile_frame r req w) as [Hsome Hnone].
  destruct (hugoPages (cluster w) !! req) as [p|] eqn:Hp.
  - destruct (Hsome p eq_refl) as (Hpages & Hsettings & Hchildren).
    split_and!; [done..| |done].
    intros p' c k [= <-] Hne. by apply Hchildren.
  - rewrite (Hnone eq_refl). by split_and!.
Qed.

(** ** What a pass returns *)

(** X10: whenever [Reconcile] returns at all, its result and its error go
    together in one of two ways only: a nil error with an empty result (no
    requeue), or a wrapped error with a requeue after exactly one minute.
    It returns only after it has read the page: on a nil page it panics. *)
Theorem Reconcile_result_shape r req w res err w' :
  Reconcile r req w = (Returned (res, err), w') ->
  snd (readOf (T := HugoPage) w req) = None
  /\ ((err = None /\ res = {| Requeue := false; RequeueAfter := 0 |})
      \/ (exists e, err = Some e /\ isWrapped e
                    /\ res = {| Requeue := true; RequeueAfter := 60000000000 |})).
Proof.
  destruct (Reconcile_until_settings r req w) as (w1 & _ & _ & _ & ->).
  rewrite reconcileWithSettings_run. cbn zeta.
  destruct (readOf w1 _) as [s [e|]]; [by rewrite RecordPanic_run|].
  destruct (snd (readOf (T := HugoPage) w req)) as [e|];
    [by rewrite reconcileChildren_nil_page|].
  rewrite reconcileChildren_in_order. unfold bind at 1.
  destruct (upsertInOrder_trace r (fst (readOf (T := HugoPage) w req)) s upsertOrder
              (recordCall (GetCall KSetting
                             {| Namespace := Namespace req; Name := settingName r |}) w1))
    as (failed & w3 & attempted & css & -> & _ & _ & _ & _ & _ & Hend).
  intros Hres. split; [reflexivity|].
  destruct failed as [[c e]|]; cbn in Hres.
  - injection Hres as <- <- _. destruct Hend as [_ Hw]. right. by exists e.
  - injection Hres as <- <- _. by left.
Qed.

Lemma Reconcile_result_shape_witness :
  exists res err w',
    Reconcile sampleReconciler (keyOf (pageMeta blogPage))
      (worldOf sampleCluster deploymentWritesForbidden) = (Returned (res, err), w')
    /\ Requeue res = true
    /\ RequeueAfter res = 60000000000
    /\ exists e, err = Some e /\ isWrapped e.
Proof.
  evaluate_run (Reconcile sampleReconciler (keyOf (pageMeta blogPage))
                  (worldOf sampleCluster deploymentWritesForbidden)) Hrun.
  eexists _, _, _. split; [exact Hrun|].
  destruct (Reconcile_result_shape sampleReconciler (keyOf (pageMeta blogPage))
              _ _ _ _ Hrun) as [_ [[Herr _] | (e & Herr & Hw & _)]].
  - discriminate Herr.
  - split; [reflexivity|]. split; [reflexivity|].
    exists e. split; [exact Herr | exact Hw].
Defined.

(** ** Passes without API failures *)

Lemma faultFree_recordCall call w : faultFree w -> faultFree (recordCall call w).
Proof. intros Hff n c. apply Hff. Qed.

Lemma readOf_fault_free {T} `{Object T} (w : World) (k : NamespacedName) (o : T) :
  faultFree w -> table (cluster w) !! k = Some o -> readOf w k = (o, None).
Proof. intros Hff Hl. unfold readOf. by rewrite Hff, Hl. Qed.

(** Without failures an upsert settles its child and unsettles no other. *)
Lemma upsertChild_settles c r p s w :
  faultFree w ->
  exists obj w1,
    upsertChild c r (Some p) s w = (Returned (Some obj, None), w1)
    /\ faultFree w1
    /\ settledAt c r p s (cluster w1)
    /\ (forall c0, settledAt c0 r p s (cluster w) -> settledAt c0 r p s (cluster w1)).
Proof.
  intros Hff.
  destruct (upsertChild_fault_free c r p s w Hff) as (Hout & Hcl & Hff').
  destruct (upsertChild c r (Some p) s w) as [out w1]. cbn [fst snd] in *. subst out.
  exists (desiredChild c r p s w), w1. split; [reflexivity|]. split; [exact Hff'|].
  rewrite Hcl. split.
  - exists (desiredChild c r p s w). split; [apply childAt_putChild_same | by exists w].
  - intros c0 (o & Hat & Hbuilt).
    assert (Hdec : c0 = c \/ c0 <> c) by (destruct c, c0; (by left) || (by right)).
    destruct Hdec as [->|Hne].
    + exists (desiredChild c r p s w). split; [apply childAt_putChild_same | by exists w].
    + exists o. split; [|exact Hbuilt].
      rewrite childAt_putChild_other; [exact Hat | by left].
Qed.

Lemma upsertInOrder_fault_free r p s kinds : forall w,
  faultFree w ->
  exists w',
    upsertInOrder r (Some p) s kinds w = (Returned None, w')
    /\ faultFree w'
    /\ (forall c, c ∈ kinds -> settledAt c r p s (cluster w'))
    /\ (forall c, settledAt c r p s (cluster w) -> settledAt c r p s (cluster w')).
Proof.
  induction kinds as [|c rest IH]; intros w Hff.
  - exists w. split_and!; try done. intros c Hin. by apply elem_of_nil in Hin.
  - destruct (upsertChild_settles c r p s w Hff) as (obj & w1 & Hrun & Hff1 & Hset & Hkeep).
    destruct (IH w1 Hff1) as (w' & Hrest & Hff' & Hall & Hkeep').
    exists w'. cbn [upsertInOrder]. unfold bind at 1. rewrite Hrun. cbn [snd].
    split_and!; try done.
    + intros c0 Hin. apply elem_of_cons in Hin as [->|Hin]; [|by apply Hall].
      by apply Hkeep'.
    + intros c0 Hc0. by apply Hkeep', Hkeep.
Qed.

(** A pass without failures over a store that holds the page and the
    settings succeeds and settles all five children. *)
Lemma Reconcile_fault_free_run r req w p s :
  faultFree w ->
  hugoPages (cluster w) !! req = Some p ->
  settings (cluster w) !! {| Namespace := Namespace req; Name := settingName r |} = Some s ->
  exists w',
    Reconcile r req w = (Returned (noRequeue, None), w')
    /\ faultFree w'
    /\ forall c, settledAt c r p s (cluster w').
Proof.
  intros Hff Hp Hs.
  rewrite (Reconcile_after_fetch r req w p s).
  - unfold bind at 1.
    destruct (upsertInOrder_fault_free r p s upsertOrder
                (recordCall (GetCall KSetting
                               {| Namespace := Namespace req; Name := settingName r |})
                   (recordCall (GetCall KHugoPage req) w)))
      as (w' & -> & Hff' & Hall & _).
    { by do 2 apply faultFree_recordCall. }
    exists w'. split; [reflexivity|]. split; [exact Hff'|].
    intros c. apply Hall. unfold upsertOrder. destruct c; set_solver.
  - by apply (readOf_fault_free (T := HugoPage)).
  - apply (readOf_fault_free (T := Setting)); [by apply faultFree_recordCall | exact Hs].
Qed.

(** X11: when the API does not fail, a pass over a store that holds the
    site and the settings returns an empty result and a nil error, and
    afterwards each of the five children is stored under its derived name
    with the owner reference to the site (the scheme knowing the kind of the
    site); removing the site with cascading deletion then removes all
    five. *)
Theorem Reconcile_fault_free_pass r req w p s gvk :
  faultFree w ->
  hugoPages (cluster w) !! req = Some p ->
  settings (cluster w) !! {| Namespace := Namespace req; Name := settingName r |} = Some s ->
  scheme r !! "HugoPage" = Some gvk ->
  exists w',
    Reconcile r req w = (Returned ({| Requeue := false; RequeueAfter := 0 |}, None), w')
    /\ forall c, exists obj,
         childAt c p (cluster w') = Some obj
         /\ metaName (childMeta obj) = childName c p
         /\ metaNamespace (childMeta obj) = pageNamespace p
         /\ metaOwnerReferences (childMeta obj) = [ownerReferenceTo gvk p]
         /\ childAt c p (deleteSite p (cluster w')) = None.
Proof.
  intros Hff Hp Hs Hsch.
  destruct (Reconcile_fault_free_run r req w p s Hff Hp Hs) as (w' & Hrun & _ & Hall).
  exists w'. split; [exact Hrun|].
  intros c. destruct (Hall c) as (obj & Hat & w0 & ->).
  exists (desiredChild c r p s w0).
  destruct (desiredChild_metadata c r p s w0) as (Hn & Hns & _).
  pose proof (desiredChild_owner c r p s w0 gvk Hsch) as Hown.
  split; [exact Hat|]. split; [exact Hn|]. split; [exact Hns|]. split; [exact Hown|].
  exact (deleteSite_removes c p (cluster w') _ gvk Hat Hown).
Qed.

Lemma Reconcile_fault_free_pass_witness :
  exists w',
    Reconcile sampleReconciler (keyOf (pageMeta blogPage)) (worldOf sampleCluster noFaults)
    = (Returned ({| Requeue := false; RequeueAfter := 0 |}, None), w')
    /\ (exists obj, childAt ConfigArtifact blogPage (cluster w') = Some obj
                    /\ metaName (childMeta obj) = "nginx-proxy-conf-blog")
    /\ childAt ProxyWorkload blogPage (deleteSite blogPage (cluster w')) = None.
Proof.
  destruct (Reconcile_fault_free_pass sampleReconciler (keyOf (pageMeta blogPage))
              (worldOf sampleCluster noFaults) blogPage sampleSetting hugoPageGVK)
    as (w' & Hrun & Hall); [done | computed | computed | computed |].
  exists w'. split; [exact Hrun|]. split.
  - destruct (Hall ConfigArtifact) as (obj & Hat & Hn & _).
    exists obj. split; [exact Hat | exact Hn].
  - destruct (Hall ProxyWorkload) as (obj & _ & _ & _ & _ & Hgone). exact Hgone.
Defined.

(** X12: recovery from a partial failure.  Take any pass over a store that
    holds the site and the settings, with any failures of the API: it may
    stop at any child, return an error or even panic.  A later pass over the
    store it has left, this time without failures, returns an empty result
    and a nil error, has all five children stored as the upserts build them,
    and the two passes together have changed nothing outside the five
    children of the site: no site, no setting, and in the five tables of
    child resources nothing under any other key. *)
Theorem Reconcile_recovers r req w p s w2 :
  hugoPages (cluster w) !! req = Some p ->
  settings (cluster w) !! {| Namespace := Namespace req; Name := settingName r |} = Some s ->
  cluster w2 = cluster (snd (Reconcile r req w)) ->
  faultFree w2 ->
  exists w3,
    Reconcile r req w2 = (Returned ({| Requeue := false; RequeueAfter := 0 |}, None), w3)
    /\ (forall c, settledAt c r p s (cluster w3))
    /\ unchangedOutside p (cluster w) (cluster w3).
Proof.
  intros Hp Hs Hcl Hff.
  destruct (Reconcile_frame r req w) as [Hframe _].
  specialize (Hframe p Hp). rewrite <- Hcl in Hframe.
  pose proof Hframe as (Hpages & Hsettings & _).
  assert (Hp2 : hugoPages (cluster w2) !! req = Some p) by by rewrite Hpages.
  assert (Hs2 : settings (cluster w2)
                  !! {| Namespace := Namespace req; Name := settingName r |} = Some s)
    by by rewrite Hsettings.
  destruct (Reconcile_fault_free_run r req w2 p s Hff Hp2 Hs2) as (w3 & Hrun & _ & Hall).
  exists w3. split; [exact Hrun|]. split; [exact Hall|].
  eapply unchangedOutside_trans; [exact Hframe|].
  destruct (Reconcile_frame r req w2) as [Hframe2 _].
  specialize (Hframe2 p Hp2). by rewrite Hrun in Hframe2.
Qed.

Lemma Reconcile_recovers_witness :
  exists left w3,
    cluster (snd (Reconcile sampleReconciler (keyOf (pageMeta blogPage))
                    (worldOf sampleCluster deploymentWritesForbidden))) = left
    /\ childAt ProxyWorkload blogPage left = None
    /\ Reconcile sampleReconciler (keyOf (pageMeta blogPage)) (worldOf left noFaults)
       = (Returned ({| Requeue := false; RequeueAfter := 0 |}, None), w3)
    /\ forall c, settledAt c sampleReconciler blogPage sampleSetting (cluster w3).
Proof.
  evaluate_run (cluster (snd (Reconcile sampleReconciler (keyOf (pageMeta blogPage))
                                (worldOf sampleCluster deploymentWritesForbidden)))) Hleft.
  eexists _. 
  match type of Hleft with
  | _ = ?left =>
      destruct (Reconcile_recovers sampleReconciler (keyOf (pageMeta blogPage))
                  (worldOf sampleCluster deploymentWritesForbidden) blogPage sampleSetting
                  (worldOf left noFaults))
        as (w3 & Hrun & Hall & _);
      [ computed | computed | symmetry; exact Hleft | intros n call; reflexivity | ];
      exists w3
  end.
  split; [exact Hleft|]. split; [computed|]. split; [exact Hrun | exact Hall].
Defined.

(** ** The steady state *)

Lemma desiredChild_settled c r p s w o :
  faultFree w -> childAt c p (cluster w) = Some o -> builtFor c r p s o ->
  desiredChild c r p s w = o.
Proof.
  intros Hff Hat (w0 & ->).
  destruct c; cbn [childAt desiredChild] in *;
    match type of Hat with
    | _ <$> ?l = _ => destruct l as [x|] eqn:Hl; [|discriminate Hat]
    end;
    cbn [fmap option_fmap option_map] in Hat; injection Hat as ->;
    f_equal; (erewrite readOf_fault_free; [|exact Hff|exact Hl]); cbn [fst].
  - apply builderCronJobFor_again.
  - apply configMapFor_again.
  - apply deploymentFor_again.
  - apply serviceFor_again.
  - apply ingressFor_again.
Qed.

Lemma putChild_stored c r p s w0 cl :
  childAt c p cl = Some (desiredChild c r p s w0) ->
  putChild (desiredChild c r p s w0) cl = cl.
Proof.
  intros Hat. pose proof (childKey_desired c r p s w0) as Hkey.
  destruct c; cbn [childAt desiredChild putChild childMeta] in *;
    match type of Hat with
    | _ <$> ?l = _ => destruct l as [x|] eqn:Hl; [|discriminate Hat]
    end;
    cbn [fmap option_fmap option_map] in Hat; injection Hat as Hx;
    rewrite Hkey; subst x;
    match goal with
    | |- setTable (<[?k := ?o]> _) ?c = _ =>
        let T := type of o in
        change (setTable (<[k := o]> (table (T := T) c)) c = c);
        apply store_same; exact Hl
    end.
Qed.

(** Without failures an upsert over its settled child changes nothing. *)
Lemma upsertChild_steady c r p s w :
  faultFree w -> settledAt c r p s (cluster w) ->
  exists obj w1,
    upsertChild c r (Some p) s w = (Returned (Some obj, None), w1)
    /\ faultFree w1 /\ cluster w1 = cluster w.
Proof.
  intros Hff (o & Hat & Hbuilt).
  destruct (upsertChild_fault_free c r p s w Hff) as (Hout & Hcl & Hff').
  destruct (upsertChild c r (Some p) s w) as [out w1]. cbn [fst snd] in *. subst out.
  exists (desiredChild c r p s w), w1. split; [reflexivity|]. split; [exact Hff'|].
  rewrite Hcl. apply putChild_stored.
  by rewrite (desiredChild_settled c r p s w o Hff Hat Hbuilt).
Qed.

Lemma upsertInOrder_steady r p s kinds : forall w,
  faultFree w ->
  (forall c, settledAt c r p s (cluster w)) ->
  exists w',
    upsertInOrder r (Some p) s kinds w = (Returned None, w')
    /\ cluster w' = cluster w.
Proof.
  induction kinds as [|c rest IH]; intros w Hff Hall.
  - by exists w.
  - destruct (upsertChild_steady c r p s w Hff (Hall c)) as (obj & w1 & Hrun & Hff1 & Hcl).
    destruct (IH w1 Hff1) as (w' & Hrest & Hcl').
    { intros c0. rewrite Hcl. apply Hall. }
    exists w'. cbn [upsertInOrder]. unfold bind at 1. rewrite Hrun. cbn [snd].
    split; [exact Hrest | congruence].
Qed.

(** X13: the steady state.  Once the five children of a site are stored as
    the upserts build them, a further pass without failures of the API
    returns an empty result and a nil error and leaves the whole store
    exactly as it was: the pass is idempotent as a whole. *)
Theorem Reconcile_steady_state r req w p s :
  faultFree w ->
  hugoPages (cluster w) !! req = Some p ->
  settings (cluster w) !! {| Namespace := Namespace req; Name := settingName r |} = Some s ->
  (forall c, settledAt c r p s (cluster w)) ->
  exists w',
    Reconcile r req w = (Returned ({| Requeue := false; RequeueAfter := 0 |}, None), w')
    /\ cluster w' = cluster w.
Proof.
  intros Hff Hp Hs Hall.
  rewrite (Reconcile_after_fetch r req w p s).
  - unfold bind at 1.
    destruct (upsertInOrder_steady r p s upsertOrder
                (recordCall (GetCall KSetting
                               {| Namespace := Namespace req; Name := settingName r |})
                   (recordCall (GetCall KHugoPage req) w)))
      as (w' & -> & Hcl).
    { by do 2 apply faultFree_recordCall. }
    { exact Hall. }
    exists w'. split; [reflexivity | exact Hcl].
  - by apply (readOf_fault_free (T := HugoPage)).
  - apply (readOf_fault_free (T := Setting)); [by apply faultFree_recordCall | exact Hs].
Qed.

Lemma Reconcile_steady_state_witness :
  cluster (snd (Reconcile sampleReconciler (keyOf (pageMeta blogPage))
                  (worldOf sampleCluster noFaults))) = settledCluster
  /\ exists w',
       Reconcile sampleReconciler (keyOf (pageMeta blogPage)) (worldOf settledCluster noFaults)
       = (Returned ({| Requeue := false; RequeueAfter := 0 |}, None), w')
       /\ cluster w' = settledCluster.
Proof.
  split; [computed|].
  apply (Reconcile_steady_state sampleReconciler (keyOf (pageMeta blogPage))
           (worldOf settledCluster noFaults) blogPage sampleSetting).
  - intros n call. reflexivity.
  - computed.
  - computed.
  - intros c.
    exists (desiredChild c sampleReconciler blogPage sampleSetting
              (worldOf settledCluster noFaults)).
    split; [destruct c; computed|].
    by exists (worldOf settledCluster noFaults).
Defined.

(** ** The entity accessors *)

#[global] Instance HugoPage_laws : ObjectLaws HugoPage.
Proof. split; [reflexivity | reflexivity | by intros [] | reflexivity]. Qed.

#[global] Instance Setting_laws : ObjectLaws Setting.
Proof. split; [reflexivity | reflexivity | by intros [] | reflexivity]. Qed.

Lemma issued_recordCall call w : issued w (recordCall call w) = [call].
Proof. unfold issued. cbn [recordCall calls]. by rewrite drop_app_length. Qed.

Ltac run_create :=
  unfold bind, ret in *; rewrite clientCreate_run in *;
  match goal with
  | H : context [createError ?w ?o] |- _ =>
      unfold createError in *;
      destruct (faults w (length (calls w)) (CreateCall kindOf (getMeta o))) as [ef|] eqn:Hfault;
      [| destruct (table (cluster w) !! keyOf (getMeta o)) as [there|] eqn:Hthere ]
  end.





(** X16: a [HugoPageClient.Create] that returns an error has changed
    nothing in the store.  Either the page had no namespace and the
    service-account file could not be read: then no call was issued at all,
    the page is as given and the error is that of the file, wrapped; or one
    create was issued, for the page with its namespace filled in, which is
    also how the caller's page is left. *)
Theorem pageCreate_failure file page page' e w w' :
  pageCreate file page w = (Returned (page', Some e), w') ->
  cluster w' = cluster w
  /\ match currentOr file (pageNamespace page) with
     | None =>
         w' = w /\ page' = page
         /\ exists cause, file = inr cause
                          /\ e = withMessage cause "Unable to read current namespace"
     | Some ns =>
         page' = setMeta (setNamespace ns (pageMeta page)) page
         /\ issued w w' = [CreateCall KHugoPage (pageMeta page')]
     end.
Proof.
  unfold pageCreate, currentOr, pageNamespace. intros Hrun.
  case_bool_decide as Hns; [destruct file as [ns|err]|].
  - run_create; simplify_eq; (split; [reflexivity|]); (split; [reflexivity|]);
      apply issued_recordCall.
  - injection Hrun as <- <- <-. split; [reflexivity|]. split_and!; try reflexivity.
    by exists err.
  - run_create; simplify_eq; (split; [reflexivity|]);
      (split; [by destruct page' as [[] ? ?]|]); apply issued_recordCall.
Qed.

Lemma pageCreate_failure_witness :
  exists w',
    pageCreate (inr noNamespaceFile) draftPage (worldOf sampleCluster noFaults)
    = (Returned (draftPage,
                 Some (withMessage noNamespaceFile "Unable to read current namespace")), w')
    /\ cluster w' = sampleCluster
    /\ issued (worldOf sampleCluster noFaults) w' = [].
Proof.
  exists (worldOf sampleCluster noFaults).
  assert (Hrun : pageCreate (inr noNamespaceFile) draftPage (worldOf sampleCluster noFaults)
                 = (Returned (draftPage,
                              Some (withMessage noNamespaceFile
                                      "Unable to read current namespace")),
                    worldOf sampleCluster noFaults)) by reflexivity.
  destruct (pageCreate_failure _ _ _ _ _ _ Hrun) as [Hcl _].
  split; [exact Hrun|]. split; [exact Hcl | reflexivity].
Defined.

(** X17: the same for [SettingsClient.Create]: a call that returns an error
    has changed nothing in the store, and has issued no call at all when
    the namespace had to be read from the service-account file and could
    not, one create otherwise. *)
Theorem settingCreate_failure file setting setting' e w w' :
  settingCreate file setting w = (Returned (setting', Some e), w') ->
  cluster w' = cluster w
  /\ match currentOr file (metaNamespace (settingMeta setting)) with
     | None =>
         w' = w /\ setting' = setting
         /\ exists cause, file = inr cause
                          /\ e = withMessage cause "Unable to read current namespace"
     | Some ns =>
         setting' = setMeta (setNamespace ns (settingMeta setting)) setting
         /\ issued w w' = [CreateCall KSetting (settingMeta setting')]
     end.
Proof.
  unfold settingCreate, currentOr. intros Hrun.
  case_bool_decide as Hns; [destruct file as [ns|err]|].
  - run_create; simplify_eq; (split; [reflexivity|]); (split; [reflexivity|]);
      apply issued_recordCall.
  - injection Hrun as <- <- <-. split; [reflexivity|]. split_and!; try reflexivity.
    by exists err.
  - run_create; simplify_eq; (split; [reflexivity|]);
      (split; [by destruct setting' as [[] ?]|]); apply issued_recordCall.
Qed.

Lemma settingCreate_failure_witness :
  exists setting' w',
    settingCreate (inl "default") draftSetting (worldOf sampleCluster noFaults)
    = (Returned (setting', Some alreadyExists), w')
    /\ metaNamespace (settingMeta setting') = "default"
    /\ cluster w' = sampleCluster.
Proof.
  evaluate_run (settingCreate (inl "default") draftSetting (worldOf sampleCluster noFaults))
    Hrun.
  match type of Hrun with
  | _ = (Returned (?s, Some ?e), ?w1) =>
      exists s, w1; destruct (settingCreate_failure _ _ _ _ _ _ Hrun) as [Hcl _]
  end.
  split; [exact Hrun|]. split; [reflexivity | exact Hcl].
Defined.

Ltac run_get :=
  unfold bind, ret; rewrite clientGet_run; unfold readOf;
  match goal with
  | |- context [faults ?w ?n ?c] => destruct (faults w n c)
  end;
  cbn [fst snd cluster recordCall];
  [ split_and!; [reflexivity | right; by eexists | discriminate]
  | match goal with
    | |- context [?t !! ?k] => destruct (t !! k) eqn:?
    end;
    cbn [fst snd cluster recordCall];
    [ split_and!;
        [ reflexivity
        | left; eexists; split; [reflexivity | eexists; split; [reflexivity | eassumption]]
        | discriminate ]
    | split_and!; [reflexivity | right; by eexists | discriminate] ] ].

(** X18: [HugoPageClient.Get] changes nothing in the store and returns
    either a page and a nil error, the page being the one stored under the
    given name in the namespace read from the service-account file, or a nil
    page and an error, never both and never neither; when the file cannot
    be read no call is issued and the error is that of the file, wrapped. *)
Theorem pageGet_outcome file name w :
  let run := pageGet file name w in
  cluster (snd run) = cluster w
  /\ ((exists page, fst run = Returned (Some page, None)
                    /\ exists ns, file = inl ns
                                  /\ hugoPages (cluster w)
                                       !! {| Namespace := ns; Name := name |} = Some page)
      \/ (exists e, fst run = Returned (None, Some e)))
  /\ (forall cause, file = inr cause ->
        run = (Returned (None, Some (withMessage cause "Unable to read current namespace")),
               w)).
Proof.
  cbn zeta. unfold pageGet. destruct file as [ns|err].
  - unfold pageGetNamespaced. run_get.
  - cbn. split_and!; [reflexivity | right; by eexists | by intros ? [= <-]].
Qed.

(** X19: the same for [SettingsClient.Get]: the store is unchanged, the
    result is either the stored setting and a nil error or nil and an
    error, and an unreadable service-account file gives its wrapped error
    without any call. *)
Theorem settingGet_outcome file name w :
  let run := settingGet file name w in
  cluster (snd run) = cluster w
  /\ ((exists setting, fst run = Returned (Some setting, None)
                       /\ exists ns, file = inl ns
                                     /\ settings (cluster w)
                                          !! {| Namespace := ns; Name := name |}
                                        = Some setting)
      \/ (exists e, fst run = Returned (None, Some e)))
  /\ (forall cause, file = inr cause ->
        run = (Returned (None, Some (withMessage cause "Unable to read current namespace")),
               w)).
Proof.
  cbn zeta. unfold settingGet. destruct file as [ns|err].
  - unfold settingGetNamespaced. run_get.
  - cbn. split_and!; [reflexivity | right; by eexists | by intros ? [= <-]].
Qed.
